(** * FPS reaction-time experiment: analysis pipeline and waveform generator

    A shallow embedding of [analysis.py] and [plot_waveform.py].

    Conventions of the embedding:
    - a Python [str] is a [string] whose characters are code points below 256;
    - a Python exception is a value of [exn], and a computation that may raise
      returns a [result];
    - a float is a [float]: a rational, an infinity or NaN; a zero has no
      sign.  The quantiles and the fences of [remove_outliers] are rounded to
      binary64 after every operation, as numpy rounds them, since they
      decide which values are kept; sums, means and variances are exact;
    - values that go through [np.sqrt] ([std], effect sizes) live in [rfloat],
      the same four-way split over the real numbers;
    - [scipy.stats] tests are parameters of the functions that call them;
    - console output is not modelled, except for the pooled section of
      [group_analysis], whose printed lines are returned as a value. *)

From Stdlib Require Import ZArith QArith Qreduction Qround Qabs Reals Qreals Lra Lia.
From Stdlib Require Import List String Ascii OrdersEx Sorted Permutation.
From Stdlib Require Lqa.
From stdpp Require Import base option list gmap strings sorting.

Local Open Scope string_scope.
Local Open Scope Z_scope.
Local Open Scope list_scope.

(** ** Python runtime: exceptions, strings, number literals, floats *)

Module Py.

Inductive exn :=
| KeyError (key : string)
| ValueError (msg : string)
| OSError
| UnicodeDecodeError.

Inductive result (A : Type) :=
| Ok (a : A)
| Raise (e : exn).
Arguments Ok {A} a.
Arguments Raise {A} e.

Definition bind {A B} (m : result A) (k : A -> result B) : result B :=
  match m with
  | Ok a => k a
  | Raise e => Raise e
  end.

#[global] Instance result_bind : MBind result := fun A B k m => bind m k.

#[global] Instance result_ret : MRet result := fun A a => Ok a.

#[global] Instance result_fmap : FMap result := fun A B f m => bind m (fun a => Ok (f a)).

Definition returns {A} (m : result A) : Prop := exists a, m = Ok a.

Definition raises_KeyError {A} (m : result A) : Prop := exists k, m = Raise (KeyError k).

Definition raises_ValueError {A} (m : result A) : Prop := exists s, m = Raise (ValueError s).

(** *** Characters *)

Definition code (c : ascii) : N := N_of_ascii c.

Definition in_range (lo hi : N) (c : ascii) : bool :=
  (N.leb lo (code c) && N.leb (code c) hi)%bool.

(** [str.isspace] restricted to code points below 256. *)
Definition is_space (c : ascii) : bool :=
  (in_range 9 13 c || in_range 28 32 c || N.eqb (code c) 133 || N.eqb (code c) 160)%bool.

(** Whitespace skipped by [int()] and [float()] around a literal: the C
    locale's white space, and the non-ASCII spaces, which the conversion
    maps to a blank first. *)
Definition is_num_space (c : ascii) : bool :=
  (in_range 9 13 c || N.eqb (code c) 32 || N.eqb (code c) 133 || N.eqb (code c) 160)%bool.

Definition is_digit (c : ascii) : bool := in_range 48 57 c.

Definition digit_val (c : ascii) : Z := Z.of_N (code c) - 48.

Definition lower (c : ascii) : ascii :=
  if in_range 65 90 c then ascii_of_N (code c + 32) else c.

Fixpoint lower_str (s : string) : string :=
  match s with
  | EmptyString => EmptyString
  | String c s' => String (lower c) (lower_str s')
  end.

(** *** [str] methods *)

Fixpoint lstrip_with (sp : ascii -> bool) (s : string) : string :=
  match s with
  | EmptyString => EmptyString
  | String c s' => if sp c then lstrip_with sp s' else s
  end.

Fixpoint rstrip_with (sp : ascii -> bool) (s : string) : string :=
  match s with
  | EmptyString => EmptyString
  | String c s' =>
      match rstrip_with sp s' with
      | EmptyString => if sp c then EmptyString else String c EmptyString
      | r => String c r
      end
  end.

Definition strip_with (sp : ascii -> bool) (s : string) : string :=
  rstrip_with sp (lstrip_with sp s).

(** [s.strip()] *)
Definition strip (s : string) : string := strip_with is_space s.

(** [s.startswith(p)] *)
Definition startswith (s p : string) : bool := String.prefix p s.

(** [c in s] for a one-character [c] *)
Fixpoint contains (c : ascii) (s : string) : bool :=
  match s with
  | EmptyString => false
  | String a s' => if Ascii.eqb a c then true else contains c s'
  end.

(** [s.split(sep)] for a one-character separator: never the empty list. *)
Fixpoint split (sep : ascii) (s : string) : list string :=
  match s with
  | EmptyString => [EmptyString]
  | String c s' =>
      if Ascii.eqb c sep then EmptyString :: split sep s'
      else match split sep s' with
           | h :: t => String c h :: t
           | [] => [String c EmptyString]
           end
  end.

(** [s.split(sep, 1)]: cut at the first separator only. *)
Fixpoint split_once (sep : ascii) (s : string) : list string :=
  match s with
  | EmptyString => [EmptyString]
  | String c s' =>
      if Ascii.eqb c sep then [EmptyString; s']
      else match split_once sep s' with
           | h :: t => String c h :: t
           | [] => [String c EmptyString]
           end
  end.

(** String comparison [a < b]: lexicographic on code points. *)
Definition str_lt (a b : string) : bool :=
  match String_as_OT.compare a b with
  | Lt => true
  | _ => false
  end.

(** *** Number literals *)

(** The digits that follow a digit: [("_"? digit)*], longest match. *)
Fixpoint more_digits (s : string) : list Z * string :=
  match s with
  | EmptyString => ([], EmptyString)
  | String c s' =>
      if is_digit c then
        let '(ds, r) := more_digits s' in (digit_val c :: ds, r)
      else if Ascii.eqb c "_" then
        match s' with
        | String c' s'' =>
            if is_digit c' then
              let '(ds, r) := more_digits s'' in (digit_val c' :: ds, r)
            else ([], s)
        | EmptyString => ([], s)
        end
      else ([], s)
  end.

(** [digit ("_"? digit)*], or no digit at all. *)
Definition digitpart (s : string) : list Z * string :=
  match s with
  | String c s' =>
      if is_digit c then
        let '(ds, r) := more_digits s' in (digit_val c :: ds, r)
      else ([], s)
  | EmptyString => ([], s)
  end.

Definition digits_value (ds : list Z) : Z :=
  fold_left (fun acc d => 10 * acc + d) ds 0.

(** An optional sign: [true] for a minus. *)
Definition sign (s : string) : bool * string :=
  match s with
  | String c s' =>
      if Ascii.eqb c "-" then (true, s')
      else if Ascii.eqb c "+" then (false, s')
      else (false, s)
  | EmptyString => (false, s)
  end.

Definition invalid_int : exn := ValueError "invalid literal for int() with base 10".

(** [int(s)] *)
Definition int (s : string) : result Z :=
  let '(neg, body) := sign (strip_with is_num_space s) in
  match digitpart body with
  | (d :: ds, EmptyString) =>
      let v := digits_value (d :: ds) in Ok (if neg then - v else v)
  | _ => Raise invalid_int
  end.

(** *** Floats *)

Inductive float :=
| Fin (q : Q)
| PInf
| NInf
| NaN.

Definition fin (q : Q) : float := Fin (Qred q).

Definition of_Z (z : Z) : float := Fin (inject_Z z).

Definition inf (neg : bool) : float := if neg then NInf else PInf.

Definition neg_sign (q : Q) : bool := Qle_bool q 0 && negb (Qeq_bool q 0).

Definition fneg (a : float) : float :=
  match a with
  | Fin q => fin (- q)
  | PInf => NInf
  | NInf => PInf
  | NaN => NaN
  end.

Definition fadd (a b : float) : float :=
  match a, b with
  | NaN, _ | _, NaN => NaN
  | Fin p, Fin q => fin (p + q)
  | PInf, NInf | NInf, PInf => NaN
  | PInf, _ | _, PInf => PInf
  | NInf, _ | _, NInf => NInf
  end.

Definition fsub (a b : float) : float := fadd a (fneg b).

Definition fmul (a b : float) : float :=
  match a, b with
  | NaN, _ | _, NaN => NaN
  | Fin p, Fin q => fin (p * q)
  | Fin p, PInf | PInf, Fin p =>
      if Qeq_bool p 0 then NaN else inf (neg_sign p)
  | Fin p, NInf | NInf, Fin p =>
      if Qeq_bool p 0 then NaN else inf (negb (neg_sign p))
  | PInf, PInf | NInf, NInf => PInf
  | PInf, NInf | NInf, PInf => NInf
  end.

(** Division of array scalars: a zero divisor gives an infinity or NaN, it
    does not raise.  The sign of a zero is not tracked: every zero divisor
    is taken as [+0.0]. *)
Definition fdiv (a b : float) : float :=
  match a, b with
  | NaN, _ | _, NaN => NaN
  | Fin p, Fin q =>
      if Qeq_bool q 0 then
        if Qeq_bool p 0 then NaN else inf (neg_sign p)
      else fin (p / q)
  | Fin _, _ => Fin 0
  | PInf, Fin q => inf (neg_sign q)
  | NInf, Fin q => inf (negb (neg_sign q))
  | _, _ => NaN
  end.

(** [a <= b]: false as soon as one side is NaN. *)
Definition fle (a b : float) : bool :=
  match a, b with
  | NaN, _ | _, NaN => false
  | NInf, _ | _, PInf => true
  | Fin p, Fin q => Qle_bool p q
  | _, _ => false
  end.

(** [a < b] *)
Definition flt (a b : float) : bool :=
  match a, b with
  | NaN, _ | _, NaN => false
  | Fin p, Fin q => Qle_bool p q && negb (Qeq_bool p q)
  | PInf, _ | _, NInf => false
  | _, _ => true
  end.

Definition is_nan (a : float) : bool :=
  match a with
  | NaN => true
  | _ => false
  end.

(** The builtin [min(a, b)]: [b] when [b < a], else [a]. *)
Definition min (a b : float) : float := if flt b a then b else a.

(** *** Rounding to binary64 *)

(** [floor (log2 q)] for a positive [q]. *)
Definition ilog2 (q : Q) : Z :=
  let k := Z.log2 (Qnum q) - Z.log2 (Zpos (Qden q)) in
  if Qle_bool (Qpower 2 k) q then k else k - 1.

(** The integer nearest to [q], a tie going to the even one. *)
Definition nearest_even (q : Q) : Z :=
  let f := Qfloor q in
  match (q - inject_Z f ?= 1 # 2)%Q with
  | Lt => f
  | Gt => f + 1
  | Eq => if Z.even f then f else f + 1
  end.

(** The double nearest to [q], a tie going to the even significand: 53
    bits, the least exponent -1074 (so that small values are subnormal),
    and an infinity from [2^1024 - 2^970] on. *)
Definition round64 (q : Q) : float :=
  if Qeq_bool q 0 then Fin 0
  else
    let a := Qabs q in
    let e := Z.max (ilog2 a - 52) (-1074) in
    let m := nearest_even (a / Qpower 2 e) in
    let r := (inject_Z m * Qpower 2 e)%Q in
    if Qle_bool (Qpower 2 1024) r then inf (neg_sign q)
    else Fin (Qred (if neg_sign q then - r else r)).

Definition rnd (a : float) : float :=
  match a with
  | Fin q => round64 q
  | _ => a
  end.

(** The operations of float64: the exact result, rounded. *)
Definition add64 (a b : float) : float := rnd (fadd a b).

Definition sub64 (a b : float) : float := rnd (fsub a b).

Definition mul64 (a b : float) : float := rnd (fmul a b).

Definition div64 (a b : float) : float := rnd (fdiv a b).

Definition invalid_float : exn := ValueError "could not convert string to float".

(** [m * 10^e] as a rational. *)
Definition decimal (m e : Z) : Q :=
  if 0 <=? e then inject_Z (m * 10 ^ e)
  else Qmake m (Z.to_pos (10 ^ (- e))).

(** The exponent part of a float literal: absent, or [e|E] sign digits. *)
Definition exponent (s : string) : option (Z * string) :=
  match s with
  | String c s' =>
      if Ascii.eqb (lower c) "e" then
        let '(neg, body) := sign s' in
        match digitpart body with
        | (d :: ds, r) =>
            let v := digits_value (d :: ds) in Some (if neg then - v else v, r)
        | _ => None
        end
      else Some (0, s)
  | EmptyString => Some (0, s)
  end.

(** The fraction of a float literal: absent, or a point and maybe digits. *)
Definition fraction (s : string) : list Z * bool * string :=
  match s with
  | String c s' =>
      if Ascii.eqb c "." then
        let '(ds, r) := digitpart s' in (ds, true, r)
      else ([], false, s)
  | EmptyString => ([], false, s)
  end.

(** [float(s)] *)
Definition float_of_str (s : string) : result float :=
  let '(neg, body) := sign (strip_with is_num_space s) in
  let word := lower_str body in
  if String.eqb word "inf" || String.eqb word "infinity" then Ok (inf neg)
  else if String.eqb word "nan" then Ok NaN
  else
    let '(ip, r1) := digitpart body in
    let '(fp, _, r2) := fraction r1 in
    match ip ++ fp with
    | [] => Raise invalid_float
    | ds =>
        match exponent r2 with
        | Some (e, EmptyString) =>
            let m := digits_value ds in
            Ok (fin (decimal (if neg then - m else m) (e - Z.of_nat (length fp))))
        | _ => Raise invalid_float
        end
    end.

End Py.

(** ** pandas and numpy reductions *)

Module Num.
Import Py.

(** Values computed with [np.sqrt]: reals, infinities, NaN. *)
Inductive rfloat :=
| RFin (x : R)
| RPInf
| RNInf
| RNaN.

Definition of_float (a : float) : rfloat :=
  match a with
  | Fin q => RFin (Q2R q)
  | PInf => RPInf
  | NInf => RNInf
  | NaN => RNaN
  end.

Definition rinf (neg : bool) : rfloat := if neg then RNInf else RPInf.

Definition rneg_sign (x : R) : bool := if Rlt_dec x 0 then true else false.

Definition rzero (x : R) : bool := if Req_dec_T x 0 then true else false.

Definition radd (a b : rfloat) : rfloat :=
  match a, b with
  | RNaN, _ | _, RNaN => RNaN
  | RFin x, RFin y => RFin (x + y)
  | RPInf, RNInf | RNInf, RPInf => RNaN
  | RPInf, _ | _, RPInf => RPInf
  | RNInf, _ | _, RNInf => RNInf
  end.

(** [a ** 2] *)
Definition rsqr (a : rfloat) : rfloat :=
  match a with
  | RFin x => RFin (x * x)
  | RPInf | RNInf => RPInf
  | RNaN => RNaN
  end.

(** Division of array scalars; a zero divisor is taken as [+0.0]. *)
Definition rdiv (a b : rfloat) : rfloat :=
  match a, b with
  | RNaN, _ | _, RNaN => RNaN
  | RFin x, RFin y =>
      if rzero y then (if rzero x then RNaN else rinf (rneg_sign x))
      else RFin (x / y)
  | RFin _, _ => RFin 0
  | RPInf, RFin y => rinf (rneg_sign y)
  | RNInf, RFin y => rinf (negb (rneg_sign y))
  | _, _ => RNaN
  end.

(** [np.sqrt] *)
Definition rsqrt (a : rfloat) : rfloat :=
  match a with
  | RFin x => if Rlt_dec x 0 then RNaN else RFin (sqrt x)
  | RPInf => RPInf
  | RNInf | RNaN => RNaN
  end.

Definition of_nat (n : nat) : float := of_Z (Z.of_nat n).

Definition fsum (l : list float) : float := fold_left fadd l (Fin 0).

Definition notnan (a : float) : bool := negb (is_nan a).

(** Ascending sort of NaN-free values. *)
Fixpoint insert_float (x : float) (l : list float) : list float :=
  match l with
  | [] => [x]
  | y :: l' => if fle x y then x :: l else y :: insert_float x l'
  end.

Definition sort_floats (l : list float) : list float := fold_right insert_float [] l.

Definition item (l : list float) (i : nat) : float := nth i l NaN.

(** [Series.mean()]: missing values are skipped. *)
Definition pd_mean (s : list float) : float :=
  let v := List.filter notnan s in
  fdiv (fsum v) (of_nat (length v)).

(** [Series.var()], [ddof = 1]: NaN unless at least two values are present. *)
Definition pd_var (s : list float) : float :=
  let v := List.filter notnan s in
  let count := length v in
  if (count <=? 1)%nat then NaN
  else
    let avg := fdiv (fsum v) (of_nat count) in
    let sqr := map (fun x => let e := fsub avg x in fmul e e) v in
    fdiv (fsum sqr) (of_nat (count - 1)).

(** [Series.std()] *)
Definition pd_std (s : list float) : rfloat := rsqrt (of_float (pd_var s)).

(** [Series.median()] *)
Definition pd_median (s : list float) : float :=
  let v := sort_floats (List.filter notnan s) in
  let n := length v in
  if (n =? 0)%nat then NaN
  else if Nat.even n then
    fdiv (fadd (item v (n / 2 - 1)) (item v (n / 2))) (of_Z 2)
  else item v (n / 2).

(** [_lerp(a, b, t)] of numpy: [a + (b - a) * t], and
    [b - (b - a) * (1 - t)] where [t >= 0.5]. *)
Definition lerp (a b t : float) : float :=
  let diff_b_a := sub64 b a in
  if fle (Fin (1 # 2)) t then sub64 b (mul64 diff_b_a (sub64 (Fin 1) t))
  else add64 a (mul64 diff_b_a t).

(** [Series.quantile(q)] with the default linear interpolation, for a
    double [q] in [0, 1] (the callers pass 0.25 and 0.75).  pandas drops
    the missing values and hands [q * 100] to [np.percentile], which
    divides by 100 again and interpolates between the two values around
    the virtual index [(n - 1) * q] of the sorted values.  At or beyond
    the last index both neighbours are the last value and the weight is
    the virtual index plus one; below zero both are the first value. *)
Definition pd_quantile (s : list float) (q : Q) : float :=
  let v := sort_floats (List.filter notnan s) in
  let n := length v in
  if (n =? 0)%nat then NaN
  else
    let quantile := div64 (mul64 (Fin q) (of_Z 100)) (of_Z 100) in
    let last := rnd (of_nat (n - 1)) in
    match mul64 last quantile with
    | Fin virtual_index =>
        if fle last (Fin virtual_index) then
          lerp (item v (n - 1)) (item v (n - 1)) (sub64 (Fin virtual_index) (of_Z (-1)))
        else if Qle_bool 0 virtual_index then
          let previous := Qfloor virtual_index in
          lerp (item v (Z.to_nat previous)) (item v (Z.to_nat (previous + 1)))
               (sub64 (Fin virtual_index) (of_Z previous))
        else lerp (item v 0) (item v 0) (sub64 (Fin virtual_index) (of_Z 0))
    | _ => NaN
    end.

(** [ndarray.mean()] *)
Definition np_mean (a : list float) : float := fdiv (fsum a) (of_nat (length a)).

(** [ndarray.var()], [ddof = 0] *)
Definition np_var (a : list float) : float :=
  let m := np_mean a in
  let sqr := map (fun x => let e := fsub x m in fmul e e) a in
  fdiv (fsum sqr) (of_nat (length a)).

(** [ndarray.std()] *)
Definition np_std (a : list float) : rfloat := rsqrt (of_float (np_var a)).

(** [np.concatenate] *)
Definition concatenate (ls : list (list float)) : list float := concat ls.

End Num.

(** ** analysis.py *)

Module Analysis.
Import Py Num.

(** One row of the trial table. *)
Record trial := {
  Trial : Z;
  Direction : string;
  ReactionTime_ms : float;
}.

(** [pd.DataFrame(trials)]: the rows, in order.  A frame built from no row
    has no column. *)
Abbreviation DataFrame := (list trial).

Definition column_ReactionTime_ms (df : DataFrame) : result (list float) :=
  match df with
  | [] => Raise (KeyError "ReactionTime_ms")
  | _ => Ok (map ReactionTime_ms df)
  end.

(** The local variables of [parse_csv]. *)
Record parser := {
  settings : gmap string string;
  trials : list trial;
  in_settings : bool;
  in_trials : bool;
}.

Definition parser_init : parser :=
  {| settings := ∅; trials := []; in_settings := false; in_trials := false |}.

Definition set_mode (st : parser) (s t : bool) : parser :=
  {| settings := settings st; trials := trials st; in_settings := s; in_trials := t |}.

Definition set_setting (st : parser) (k v : string) : parser :=
  {| settings := <[k := v]> (settings st); trials := trials st;
     in_settings := in_settings st; in_trials := in_trials st |}.

Definition append_trial (st : parser) (t : trial) : parser :=
  {| settings := settings st; trials := trials st ++ [t];
     in_settings := in_settings st; in_trials := in_trials st |}.

(** How one iteration of the loop over the lines ends. *)
Inductive flow :=
| Next (st : parser)
| Break (st : parser).

Definition settings_marker : string := "--- Settings ---".
Definition summary_marker : string := "--- Summary ---".
Definition trials_marker : string := "Trial,Direction,".

Definition nonempty (s : string) : bool :=
  match s with
  | EmptyString => false
  | _ => true
  end.

(** [key, val = line.split(',', 1)] *)
Definition unpack2 (l : list string) : result (string * string) :=
  match l with
  | [a; b] => Ok (a, b)
  | _ => Raise (ValueError "wrong number of values to unpack")
  end.

(** [parts[i]] once [len(parts) >= 3] has been tested. *)
Definition field (parts : list string) (i : nat) : string := nth i parts EmptyString.

(** The body of [for line in f]. *)
Definition parse_line (st : parser) (raw : string) : result flow :=
  let line := strip raw in
  if startswith line settings_marker then Ok (Next (set_mode st true false))
  else if startswith line summary_marker then Ok (Break st)
  else if startswith line trials_marker then Ok (Next (set_mode st false true))
  else
    st1 ← (if in_settings st && contains "," line then
             '(key, val) ← unpack2 (split_once "," line);
             Ok (set_setting st (strip key) (strip val))
           else Ok st);
    if in_trials st1 && nonempty line then
      let parts := split "," line in
      if (3 <=? length parts)%nat then
        t ← int (field parts 0);
        rt ← float_of_str (field parts 2);
        Ok (Next (append_trial st1
                    {| Trial := t; Direction := field parts 1; ReactionTime_ms := rt |}))
      else Ok (Next st1)
    else Ok (Next st1).

Fixpoint parse_lines (st : parser) (lines : list string) : result parser :=
  match lines with
  | [] => Ok st
  | raw :: rest =>
      r ← parse_line st raw;
      match r with
      | Next st' => parse_lines st' rest
      | Break st' => Ok st'
      end
  end.

(** [open(filepath, 'r', encoding='utf-8')] and the lines it yields: the
    file system is a function from paths to the decoded lines, or to the
    error of opening or decoding. *)
Abbreviation filesystem := (string -> result (list string)).

Definition parse_csv (fs : filesystem) (filepath : string)
  : result (gmap string string * DataFrame) :=
  lines ← fs filepath;
  st ← parse_lines parser_init lines;
  Ok (settings st, trials st).

(** An entry of [subjects[name]]. *)
Record entry := {
  filename : string;
  ems_status : string;
  timestamp : string;
  file_settings : gmap string string;
  data : DataFrame;
}.

(** [list.sort(key=lambda x: x['timestamp'])]: the stable sort on the keys.
    [insert_entry x l] puts [x] in front of the first entry whose key is
    not below its own, so that [x], which came first, stays first among
    equal keys. *)
Fixpoint insert_entry (x : entry) (l : list entry) : list entry :=
  match l with
  | [] => [x]
  | y :: l' =>
      if str_lt (timestamp y) (timestamp x) then y :: insert_entry x l'
      else x :: l
  end.

Fixpoint sort_by_timestamp (l : list entry) : list entry :=
  match l with
  | [] => []
  | x :: l' => insert_entry x (sort_by_timestamp l')
  end.

(** The last loop of [load_all_data]: every subject's list is sorted.  The
    scan of the directory that fills [subjects] is not modelled. *)
Definition sort_subjects (subjects : gmap string (list entry)) : gmap string (list entry) :=
  sort_by_timestamp <$> subjects.

Definition has_status (s : string) (f : entry) : bool := String.eqb (ems_status f) s.

(** [if len(files) >= n: phases[key] = files[n - 1]] *)
Definition assign_nth (n : nat) (key : string) (files : list entry)
    (phases : gmap string entry) : gmap string entry :=
  if (n <=? length files)%nat then
    match files !! (n - 1)%nat with
    | Some f => <[key := f]> phases
    | None => phases
    end
  else phases.

Definition classify_phases (subject_files : list entry) : gmap string entry :=
  let phases : gmap string entry := ∅ in
  let off_files := List.filter (has_status "EMS_OFF") subject_files in
  let on_files := List.filter (has_status "EMS_ON") subject_files in
  let phases := assign_nth 1 "ems_response" on_files phases in
  let phases := assign_nth 2 "train_phase1" on_files phases in
  let phases := assign_nth 3 "train_phase2" on_files phases in
  let phases := assign_nth 1 "baseline" off_files phases in
  let phases := assign_nth 2 "measure_phase1" off_files phases in
  let phases := assign_nth 3 "measure_phase2" off_files phases in
  phases.

(** *** Outlier removal *)

Definition mask_physio (x : float) : bool := fle (of_Z 100) x && fle x (of_Z 1000).

(** [q1 - 1.5 * iqr] *)
Definition iqr_lower (cleaned : list float) : float :=
  let q1 := pd_quantile cleaned (1 # 4) in
  let q3 := pd_quantile cleaned (3 # 4) in
  let iqr := sub64 q3 q1 in
  sub64 q1 (mul64 (Fin (3 # 2)) iqr).

(** [q3 + 1.5 * iqr] *)
Definition iqr_upper (cleaned : list float) : float :=
  let q1 := pd_quantile cleaned (1 # 4) in
  let q3 := pd_quantile cleaned (3 # 4) in
  let iqr := sub64 q3 q1 in
  add64 q3 (mul64 (Fin (3 # 2)) iqr).

Definition mask_iqr (lower upper x : float) : bool := fle lower x && fle x upper.

(** [label] only feeds the message printed when something was removed. *)
Definition remove_outliers (series : list float) (label : string) : list float :=
  let cleaned := List.filter mask_physio series in
  let lower := iqr_lower cleaned in
  let upper := iqr_upper cleaned in
  List.filter (mask_iqr lower upper) cleaned.

(** *** Per-subject analysis *)

Inductive alternative :=
| two_sided
| greater.

(** [scipy.stats.mannwhitneyu(x, y, alternative=...)]: statistic and p-value. *)
Abbreviation rank_sum_test := (list float -> list float -> alternative -> result (float * float)).

(** [(m1 - m2) / np.sqrt((s1**2 + s2**2) / 2)] *)
Definition cohen_d (m1 : float) (s1 : rfloat) (m2 : float) (s2 : rfloat) : rfloat :=
  rdiv (of_float (fsub m1 m2)) (rsqrt (rdiv (radd (rsqr s1) (rsqr s2)) (RFin 2))).

(** The dictionary returned by [analyze_subject]. *)
Record subject_result := {
  subject : string;
  bl_mean : float; bl_sd : rfloat; bl_median : float; bl_n : nat;
  p1_mean : float; p1_sd : rfloat; p1_median : float; p1_n : nat;
  p2_mean : float; p2_sd : rfloat; p2_median : float; p2_n : nat;
  change_p1 : float;
  change_p2 : float;
  d_p1 : rfloat; p_p1 : float;
  d_p2 : rfloat; p_p2 : float;
  bl_data : list float;
  p1_data : list float;
  p2_data : list float;
}.

(** [phases[key]] *)
Definition getitem (phases : gmap string entry) (key : string) : result entry :=
  match phases !! key with
  | Some f => Ok f
  | None => Raise (KeyError key)
  end.

(** [phases[key]['data']['ReactionTime_ms']] *)
Definition reaction_times (phases : gmap string entry) (key : string) : result (list float) :=
  f ← getitem phases key;
  column_ReactionTime_ms (data f).

(** The labels handed to [remove_outliers] are the name followed by the
    phase; [name] stands for them. *)
Definition analyze_subject (mannwhitneyu : rank_sum_test)
    (name : string) (phases : gmap string entry) : result subject_result :=
  bl_raw ← reaction_times phases "baseline";
  p1_raw ← reaction_times phases "measure_phase1";
  p2_raw ← reaction_times phases "measure_phase2";
  let bl := remove_outliers bl_raw name in
  let p1 := remove_outliers p1_raw name in
  let p2 := remove_outliers p2_raw name in
  let change_p1 := fsub (pd_mean bl) (pd_mean p1) in
  let change_p2 := fsub (pd_mean bl) (pd_mean p2) in
  '(u1, p_val1) ← mannwhitneyu bl p1 greater;
  let d1 := cohen_d (pd_mean bl) (pd_std bl) (pd_mean p1) (pd_std p1) in
  '(u2, p_val2) ← mannwhitneyu bl p2 greater;
  let d2 := cohen_d (pd_mean bl) (pd_std bl) (pd_mean p2) (pd_std p2) in
  '(u3, p_val3) ← mannwhitneyu p1 p2 greater;
  let d3 := cohen_d (pd_mean p1) (pd_std p1) (pd_mean p2) (pd_std p2) in
  Ok {| subject := name;
        bl_mean := pd_mean bl; bl_sd := pd_std bl; bl_median := pd_median bl; bl_n := length bl;
        p1_mean := pd_mean p1; p1_sd := pd_std p1; p1_median := pd_median p1; p1_n := length p1;
        p2_mean := pd_mean p2; p2_sd := pd_std p2; p2_median := pd_median p2; p2_n := length p2;
        change_p1 := change_p1;
        change_p2 := change_p2;
        d_p1 := d1; p_p1 := p_val1;
        d_p2 := d2; p_p2 := p_val2;
        bl_data := bl;
        p1_data := p1;
        p2_data := p2 |}.

(** *** Group analysis *)

(** [scipy.stats.ttest_rel(a, b)] *)
Abbreviation paired_test := (list float -> list float -> result (float * float)).

(** [scipy.stats.kruskal(a, b, c)] *)
Abbreviation omnibus_test := (list float -> list float -> list float -> result (float * float)).

(** The labels of the pooled comparisons. *)
Inductive pair_label :=
| BL_vs_P1
| BL_vs_P2
| P1_vs_P2.

(** A printed line of the pooled comparisons: label, U, p, d. *)
Record pooled_row := {
  row_label : pair_label;
  row_U : float;
  row_p : float;
  row_d : rfloat;
}.

(** What follows the omnibus line: the corrected post-hoc rows, or the
    one-sided rows shown for reference. *)
Inductive pooled_section :=
| Corrected (rows : list pooled_row)
| Reference (rows : list pooled_row).

(** [group_analysis] returns the table [df]; the pooled section it prints
    is returned with it. *)
Record group_report := {
  df : list subject_result;
  kruskal_H : float;
  kruskal_p : float;
  pooled : pooled_section;
}.

(** [for label, g1, g2 in pairs: ...] of the significant branch. *)
Fixpoint posthoc_rows (mannwhitneyu : rank_sum_test)
    (pairs : list (pair_label * list float * list float)) : result (list pooled_row) :=
  match pairs with
  | [] => Ok []
  | (label, g1, g2) :: rest =>
      '(u, p_val) ← mannwhitneyu g1 g2 two_sided;
      let p_corrected := Py.min (fmul p_val (of_Z 3)) (Fin 1) in
      let d := cohen_d (np_mean g1) (np_std g1) (np_mean g2) (np_std g2) in
      rows ← posthoc_rows mannwhitneyu rest;
      Ok ({| row_label := label; row_U := u; row_p := p_corrected; row_d := d |} :: rows)
  end.

(** The two signed-rank calls sit in [try]/[except Exception] and only
    print: they are left out.  [df['bl_mean']] on the frame of an empty
    list is a missing column. *)
Definition group_analysis (ttest_rel : paired_test) (kruskal : omnibus_test)
    (mannwhitneyu : rank_sum_test) (results_list : list subject_result)
  : result group_report :=
  _ ← (match results_list with
       | [] => Raise (KeyError "bl_mean")
       | _ => Ok tt
       end);
  _ ← (if (2 <=? length results_list)%nat then
         _ ← ttest_rel (map bl_mean results_list) (map p1_mean results_list);
         _ ← ttest_rel (map bl_mean results_list) (map p2_mean results_list);
         Ok tt
       else Ok tt);
  let all_bl := concatenate (map bl_data results_list) in
  let all_p1 := concatenate (map p1_data results_list) in
  let all_p2 := concatenate (map p2_data results_list) in
  '(h_stat, h_p) ← kruskal all_bl all_p1 all_p2;
  if flt h_p (Fin (5 # 100)) then
    let pairs := [(BL_vs_P1, all_bl, all_p1);
                  (BL_vs_P2, all_bl, all_p2);
                  (P1_vs_P2, all_p1, all_p2)] in
    rows ← posthoc_rows mannwhitneyu pairs;
    Ok {| df := results_list; kruskal_H := h_stat; kruskal_p := h_p; pooled := Corrected rows |}
  else
    '(u1, pu1) ← mannwhitneyu all_bl all_p1 greater;
    let d1 := cohen_d (np_mean all_bl) (np_std all_bl) (np_mean all_p1) (np_std all_p1) in
    '(u2, pu2) ← mannwhitneyu all_bl all_p2 greater;
    let d2 := cohen_d (np_mean all_bl) (np_std all_bl) (np_mean all_p2) (np_std all_p2) in
    Ok {| df := results_list; kruskal_H := h_stat; kruskal_p := h_p;
          pooled := Reference [ {| row_label := BL_vs_P1; row_U := u1; row_p := pu1; row_d := d1 |};
                                {| row_label := BL_vs_P2; row_U := u2; row_p := pu2; row_d := d2 |} ] |}.

End Analysis.

(** ** plot_waveform.py *)

Module PlotWaveform.
Import Py Num.

Definition PULSE_WIDTH_US : Z := 50.
Definition BURST_COUNT : Z := 3.
Definition PULSE_COUNT : Z := 1.
Definition PULSE_INTERVAL_US : Z := 40000.
Definition DT : Z := 1.

(** The locals of [generate_biphasic_waveform]. *)
Record gen := {
  waveform : list float;
  time : list Z;
  t : Z;
}.

(** [range(n)] *)
Definition range (n : Z) : list Z := map Z.of_nat (seq 0 (Z.to_nat n)).

(** [time.append(t); waveform.append(v); t += DT] *)
Definition emit (v : float) (st : gen) : gen :=
  {| waveform := waveform st ++ [v]; time := time st ++ [t st]; t := t st + DT |}.

(** [for _ in range(n): ...] around [emit] *)
Definition emit_for (n : Z) (v : float) (st : gen) : gen :=
  fold_left (fun st _ => emit v st) (range n) st.

(** The body of [for burst in range(BURST_COUNT)]. *)
Definition burst_body (st : gen) : gen :=
  let st := emit_for PULSE_WIDTH_US (of_Z 1) st in
  let st := emit_for PULSE_WIDTH_US (of_Z 0) st in
  let st := emit_for PULSE_WIDTH_US (of_Z (-1)) st in
  emit_for PULSE_WIDTH_US (of_Z 0) st.

(** The body of [for rep in range(PULSE_COUNT)]. *)
Definition rep_body (st : gen) (rep : Z) : gen :=
  let st := fold_left (fun st _ => burst_body st) (range BURST_COUNT) st in
  if rep <? PULSE_COUNT - 1 then emit_for PULSE_INTERVAL_US (of_Z 0) st else st.

Definition generate_biphasic_waveform : list Z * list float :=
  let st := fold_left rep_body (range PULSE_COUNT) {| waveform := []; time := []; t := 0 |} in
  (time st, waveform st).

(** One biphasic cycle of width [w]: plus, rest, minus, rest. *)
Definition cycle (w : nat) : list float :=
  repeat (of_Z 1) w ++ repeat (of_Z 0) w ++ repeat (of_Z (-1)) w ++ repeat (of_Z 0) w.

Definition level (v : float) : bool :=
  match v with
  | Fin q => Qeq_bool q 1 || Qeq_bool q 0 || Qeq_bool q (-1)
  | _ => false
  end.

End PlotWaveform.

(** ** Vocabulary of the statements *)

Module Spec.
Import Py Num Analysis.

(** [a <= b] as Python's sort sees it: [b < a] fails. *)
Definition str_le (a b : string) : Prop := str_lt b a = false.

Definition before (x y : entry) : Prop := str_lt (timestamp x) (timestamp y) = true.

Definition not_after (x y : entry) : Prop := str_le (timestamp x) (timestamp y).

Definition on_files (files : list entry) : list entry := List.filter (has_status "EMS_ON") files.

Definition off_files (files : list entry) : list entry := List.filter (has_status "EMS_OFF") files.

Definition on_keys : list string := ["ems_response"; "train_phase1"; "train_phase2"].

Definition off_keys : list string := ["baseline"; "measure_phase1"; "measure_phase2"].

(** The keys each status fills, in order. *)
Definition status_keys : list (string * list string) :=
  [("EMS_ON", on_keys); ("EMS_OFF", off_keys)].

(** The physiologically plausible part of a series. *)
Definition physio (series : list float) : list float := List.filter mask_physio series.

(** The values of a series lie within the fences drawn from its own quartiles. *)
Definition within_own_fences (series : list float) : Prop :=
  Forall (fun x => mask_iqr (iqr_lower series) (iqr_upper series) x = true) series.

(** The fields of the lines that [parse_csv] reads as trial rows: lines
    met in trial mode before the summary marker that are no marker, are
    not empty and have three fields or more. *)
Fixpoint trial_rows (in_tr : bool) (lines : list string) : list (list string) :=
  match lines with
  | [] => []
  | raw :: rest =>
      let line := strip raw in
      if startswith line settings_marker then trial_rows false rest
      else if startswith line summary_marker then []
      else if startswith line trials_marker then trial_rows true rest
      else if in_tr && nonempty line && (3 <=? length (split "," line))%nat
           then split "," line :: trial_rows in_tr rest
           else trial_rows in_tr rest
  end.

(** Field 0 is an integer literal and field 2 a float literal. *)
Definition numeric_row (parts : list string) : Prop :=
  returns (int (field parts 0)) /\ returns (float_of_str (field parts 2)).

(** The three prefixes a line is tested against. *)
Definition no_marker (line : string) : Prop :=
  startswith line settings_marker = false /\
  startswith line summary_marker = false /\
  startswith line trials_marker = false.

(** The U statistic of the first sample: the pairs it wins, ties counting
    for a half. *)
Definition u_statistic (x y : list float) : float :=
  fsum (map (fun a =>
               fsum (map (fun b => if flt b a then Fin 1
                                   else if flt a b then Fin 0
                                   else Fin (1 # 2)) y)) x).



End Spec.

(** ** Sample data *)

Module Examples.
Import Py Num Analysis Spec.

(** A recorded file of subject [S1] with the given reaction times. *)
Definition recorded (status stamp : string) (rts : list Z) : entry :=
  {| filename := "Data_S1_" ++ status ++ "_" ++ stamp ++ ".csv";
     ems_status := status;
     timestamp := stamp;
     file_settings := ∅;
     data := imap (fun i rt => {| Trial := Z.of_nat (S i); Direction := "Left";
                                  ReactionTime_ms := of_Z rt |}) rts |}.

Definition on1 : entry := recorded "EMS_ON" "20240105_100000" [310; 295].
Definition off1 : entry := recorded "EMS_OFF" "20240105_101500" [300; 310; 290; 305].
Definition on2 : entry := recorded "EMS_ON" "20240105_103000" [280; 285].
Definition off2 : entry := recorded "EMS_OFF" "20240105_104500" [280; 275; 285; 270].
Definition on3 : entry := recorded "EMS_ON" "20240105_110000" [270; 275].
Definition off3 : entry := recorded "EMS_OFF" "20240105_111500" [260; 265; 255; 270].

(** The six files of the session, in no chronological order. *)
Definition shuffled : list entry := [on3; off2; on1; off3; off1; on2].

(** A session cut short: the third measurement is missing. *)
Definition cut_short : list entry := [off1; off2; on1; on2].

Definition synthetic : list float := map of_Z [120; 130; 125; 128; 122; 900; 121].

Definition synthetic_cleaned : list float := map of_Z [120; 130; 125; 128; 122; 121].

(** Two anticipations and a lapse around six plausible times. *)
Definition with_lapses : list float := map of_Z [40; 120; 130; 125; 99; 128; 122; 121; 2000].

(** A series whose quartiles move once its largest value is gone. *)
Definition drifting : list float := map of_Z [100; 101; 102; 103; 104; 110; 200].

(** The doubles nearest to 105.0, 107.4, 108.2 and 113.8. *)
Definition close_to_fence : list float :=
  map round64 [105 # 1; 1074 # 10; 1082 # 10; 1138 # 10]%Q.

(** The first and the third double above 100. *)
Definition neighbours : list float :=
  map round64 [100 + 1 / Qpower 2 46; 100 + 3 / Qpower 2 46]%Q.

(** A readable file whose only trial row has a word as trial number. *)
Definition word_for_number : filesystem :=
  fun _ => Ok ["Trial,Direction,ReactionTime_ms"; "one,Left,250.0"].

(** A readable file whose only trial row has a word as reaction time. *)
Definition word_for_time : filesystem :=
  fun _ => Ok ["Trial,Direction,ReactionTime_ms"; "1,Left,fast"].

(** A readable file with short rows, blank lines and well-formed rows. *)
Definition noisy : filesystem :=
  fun _ => Ok ["--- Settings ---"; "StimulusOffset, 0"; "Label,a,b";
               "Trial,Direction,ReactionTime_ms"; "1,Left,250.5"; "garbage"; "";
               "2,Right"; "3,Right,3e2,late"; "--- Summary ---"; "Average,x,y"].

(** Stand-ins for [scipy.stats] in the examples.  The rank-sum test has
    the p-values of two one-value samples, the first above the second. *)
Definition singleton_rank_sum : rank_sum_test :=
  fun x y alt =>
    Ok (u_statistic x y, match alt with
                         | greater => Fin (1 # 2)
                         | two_sided => Fin 1
                         end).

(** A rank-sum test with fixed p-values, the two-sided twice the one-sided. *)
Definition fixed_rank_sum : rank_sum_test :=
  fun x y alt =>
    Ok (u_statistic x y, match alt with
                         | greater => Fin (1 # 70)
                         | two_sided => Fin (2 # 70)
                         end).

Definition fixed_ttest : paired_test := fun _ _ => Ok (Fin 2, Fin (1 # 10)).

(** An omnibus test that reports a difference. *)
Definition significant_kruskal : omnibus_test := fun _ _ _ => Ok (Fin 9, Fin (1 # 100)).


(** Three sessions of one trial each. *)
Definition one_trial_each : list entry :=
  [recorded "EMS_OFF" "20240105_101500" [300];
   recorded "EMS_OFF" "20240105_104500" [280];
   recorded "EMS_OFF" "20240105_111500" [260]].

Definition baseline_sample : list float := map of_Z [300; 310; 290; 305].

Definition post_sample : list float := map of_Z [280; 275; 285; 270].

(** The result of a subject whose cleaned series are the given ones. *)
Definition result_of (bl p1 p2 : list float) : subject_result :=
  {| subject := "S1";
     bl_mean := pd_mean bl; bl_sd := pd_std bl; bl_median := pd_median bl; bl_n := length bl;
     p1_mean := pd_mean p1; p1_sd := pd_std p1; p1_median := pd_median p1; p1_n := length p1;
     p2_mean := pd_mean p2; p2_sd := pd_std p2; p2_median := pd_median p2; p2_n := length p2;
     change_p1 := fsub (pd_mean bl) (pd_mean p1);
     change_p2 := fsub (pd_mean bl) (pd_mean p2);
     d_p1 := cohen_d (pd_mean bl) (pd_std bl) (pd_mean p1) (pd_std p1); p_p1 := Fin (1 # 70);
     d_p2 := cohen_d (pd_mean bl) (pd_std bl) (pd_mean p2) (pd_std p2); p_p2 := Fin (1 # 70);
     bl_data := bl; p1_data := p1; p2_data := p2 |}.

End Examples.

(** ** Vocabulary for the parser's output *)

Module ParserSpec.
Import Py Num Analysis Spec.

(** The trial that the fields of a row stand for: field 0 through [int],
    field 1 as it is, field 2 through [float]. *)
Definition row_of (parts : list string) : result trial :=
  t ← int (field parts 0);
  rt ← float_of_str (field parts 2);
  Ok {| Trial := t; Direction := field parts 1; ReactionTime_ms := rt |}.

(** The rows in order, up to the first one that fails. *)
Fixpoint rows_of (rows : list (list string)) : result (list trial) :=
  match rows with
  | [] => Ok []
  | parts :: rest =>
      r ← row_of parts;
      rs ← rows_of rest;
      Ok (r :: rs)
  end.


(** A line that is not a trials header. *)
Definition no_header (raw : string) : Prop :=
  startswith (strip raw) trials_marker = false.



(** Settings only: the trials header never comes. *)
Definition headerless : list string :=
  ["--- Settings ---"; "StimulusOffset,0"; "1,Left,250.5"; "2,Right,260"].

End ParserSpec.

(** ** Vocabulary for timestamps and the order of the files *)

Module OrderSpec.
Import Py Num Analysis Spec Examples.

Fixpoint all_digits (s : string) : bool :=
  match s with
  | EmptyString => true
  | String c s' => is_digit c && all_digits s'
  end.

Fixpoint digits_of (s : string) : list Z :=
  match s with
  | EmptyString => []
  | String c s' => digit_val c :: digits_of s'
  end.

(** The number a string of digits writes. *)
Definition number (s : string) : Z := digits_value (digits_of s).

(** The shape the file names give a timestamp: eight digits, an
    underscore, six digits. *)
Definition is_stamp (ts : string) : bool :=
  (String.length ts =? 15)%nat && all_digits (substring 0 8 ts) &&
  String.eqb (substring 8 1 ts) "_" && all_digits (substring 9 6 ts).

Definition stamp_date (ts : string) : Z := number (substring 0 8 ts).

Definition stamp_time (ts : string) : Z := number (substring 9 6 ts).

(** Earlier day, or same day and earlier time. *)
Definition earlier (a b : string) : Prop :=
  stamp_date a < stamp_date b \/ (stamp_date a = stamp_date b /\ stamp_time a < stamp_time b).

(** The files with a given timestamp. *)
Definition stamped (ts : string) (f : entry) : bool := String.eqb (timestamp f) ts.

(** Two files of one status that the same second stamps. *)
Definition twin_a : entry := recorded "EMS_OFF" "20240105_101500" [300; 310].

Definition twin_b : entry := recorded "EMS_OFF" "20240105_101500" [280; 275].

(** A session with a fourth measurement and a file of an unknown status. *)
Definition surplus : list entry :=
  [off1; on1; recorded "EMS_TEST" "20240105_102000" [250]; off2; on2; off3; on3;
   recorded "EMS_OFF" "20240105_120000" [240]].

End OrderSpec.

(** ** analysis.py: the scan of the data directory and the main program *)

Module Loader.
Import Py Num Analysis OrderSpec.

(** [\w] on code points below 256: letters, digits and the underscore. *)
Definition is_word (c : ascii) : bool :=
  in_range 48 57 c || in_range 65 90 c || N.eqb (code c) 95 || in_range 97 122 c ||
  N.eqb (code c) 170 || in_range 178 179 c || N.eqb (code c) 181 || in_range 185 186 c ||
  in_range 188 190 c || in_range 192 214 c || in_range 216 246 c || in_range 248 255 c.

(** The length of the longest prefix made of word characters. *)
Fixpoint word_run (s : string) : nat :=
  match s with
  | String c s' => if is_word c then S (word_run s') else 0%nat
  | EmptyString => 0%nat
  end.

Fixpoint drop_str (n : nat) (s : string) : string :=
  match n, s with
  | S m, String _ s' => drop_str m s'
  | _, _ => s
  end.

(** A literal of the pattern: what is left of [s] behind it. *)
Definition literal (p s : string) : option string :=
  if String.prefix p s then Some (drop_str (String.length p) s) else None.

(** [\d{n}]: the digits and what is left behind them. *)
Definition digits (n : nat) (s : string) : option (string * string) :=
  let d := substring 0 n s in
  if (String.length d =? n)%nat && all_digits d then Some (d, drop_str n s) else None.

(** A greedy repetition followed by the rest [k] of the pattern: [n]
    characters first, then one less at a time, never none. *)
Fixpoint longest_first {R} (n : nat) (s : string)
    (k : string -> string -> option R) : option R :=
  match n with
  | O => None
  | S m =>
      match k (substring 0 n s) (drop_str n s) with
      | Some r => Some r
      | None => longest_first m s k
      end
  end.

(** [\w+] followed by the rest of the pattern. *)
Definition word_plus {R} (s : string) (k : string -> string -> option R) : option R :=
  longest_first (word_run s) s k.

(** [re.match(r'Data_(\w+)_(EMS_\w+)_(\d{8}_\d{6})\.csv', f)] and its
    three groups.  The match starts at the start of [f] and may end
    before its end. *)
Definition match_filename (f : string) : option (string * string * string) :=
  r ← literal "Data_" f;
  word_plus r (fun name r =>
    r ← literal "_" r;
    r ← literal "EMS_" r;
    word_plus r (fun w r =>
      r ← literal "_" r;
      '(date, r) ← digits 8 r;
      r ← literal "_" r;
      '(time, r) ← digits 6 r;
      _ ← literal ".csv" r;
      Some (name, ("EMS_" ++ w)%string, (date ++ "_" ++ time)%string))).

(** [s.endswith(suffix)] *)
Definition endswith (s suffix : string) : bool :=
  let n := String.length s in
  let m := String.length suffix in
  (m <=? n)%nat && String.eqb (substring (n - m) m s) suffix.

(** [sorted(names)] *)
Fixpoint insert_str (x : string) (l : list string) : list string :=
  match l with
  | [] => [x]
  | y :: l' => if str_lt y x then y :: insert_str x l' else x :: l
  end.

Definition sorted (l : list string) : list string := fold_right insert_str [] l.

(** The dictionary [subjects], in insertion order. *)
Abbreviation subject_table := (list (string * list entry)).

(** [if name not in subjects: subjects[name] = []] and, once the file is
    parsed, [subjects[name].append(e)]. *)
Fixpoint append_to (subjects : subject_table) (name : string) (e : entry) : subject_table :=
  match subjects with
  | [] => [(name, [e])]
  | (n, l) :: rest =>
      if String.eqb n name then (n, l ++ [e]) :: rest
      else (n, l) :: append_to rest name e
  end.

Section Directory.

(** The data directory, [os.path.join], [os.listdir] and the files. *)
Variable DATA_DIR : string.
Variable join : string -> string -> string.
Variable listdir : string -> result (list string).
Variable fs : filesystem.

(** [for f in files: ...] *)
Fixpoint scan (files : list string) (subjects : subject_table) : result subject_table :=
  match files with
  | [] => Ok subjects
  | f :: rest =>
      if negb (endswith f ".csv") then scan rest subjects
      else
        match match_filename f with
        | None => scan rest subjects
        | Some (name, status, stamp) =>
            '(settings, df) ← parse_csv fs (join DATA_DIR f);
            scan rest (append_to subjects name
                         {| filename := f; ems_status := status; timestamp := stamp;
                            file_settings := settings; data := df |})
        end
  end.

Definition load_all_data : result subject_table :=
  files ← sorted <$> listdir DATA_DIR;
  subjects ← scan files [];
  Ok (map (fun '(name, l) => (name, sort_by_timestamp l)) subjects).

(** The tests of [scipy.stats]. *)
Variable ttest_rel : paired_test.
Variable kruskal : omnibus_test.
Variable mannwhitneyu : rank_sum_test.

(** [for name, files in subjects.items(): ...] *)
Fixpoint analyze_all (subjects : subject_table) : result (list subject_result) :=
  match subjects with
  | [] => Ok []
  | (name, files) :: rest =>
      r ← analyze_subject mannwhitneyu name (classify_phases files);
      rs ← analyze_all rest;
      Ok (r :: rs)
  end.

(** [main], up to the group analysis.  The charts, the summary file and
    the closing messages come after it and are not modelled: an error
    found here is an error of [main]; a result found here is the value of
    [df_group]. *)
Definition main : result group_report :=
  subjects ← load_all_data;
  results_list ← analyze_all subjects;
  group_analysis ttest_rel kruskal mannwhitneyu results_list.

End Directory.

End Loader.

(** ** Vocabulary for the scan of the directory *)

Module LoaderSpec.
Import Py Num Analysis Spec Examples OrderSpec Loader.

Fixpoint all_word (s : string) : bool :=
  match s with
  | EmptyString => true
  | String c s' => is_word c && all_word s'
  end.

(** A name of the listing that the scan does not skip. *)
Definition relevant (f : string) : bool :=
  endswith f ".csv" && match match_filename f with Some _ => true | None => false end.

(** An entry of the table agrees with the file it was made from. *)
Definition entry_of_file (fs : filesystem) (path : string -> string)
    (name : string) (e : entry) : Prop :=
  match_filename (filename e) = Some (name, ems_status e, timestamp e) /\
  endswith (filename e) ".csv" = true /\
  parse_csv fs (path (filename e)) = Ok (file_settings e, data e).

(** The table holds well-formed entries under distinct names, and no
    name without an entry. *)
Definition well_formed (fs : filesystem) (path : string -> string)
    (s : subject_table) : Prop :=
  NoDup (map fst s) /\
  forall name files, (name, files) ∈ s ->
    files <> [] /\ Forall (entry_of_file fs path name) files.

(** The file names behind a table. *)
Definition loaded_names (s : subject_table) : list string :=
  map filename (concat (map snd s)).

(** A small data directory: the six files of one subject, two files of
    another, and files that do not belong. *)
Definition some_names : list string :=
  ["notes.txt"; "Data_S2_EMS_OFF_20240106_090000.csv"; "Data_S1_EMS_ON_20240105_100000.csv";
   "Data_S1_EMS_OFF_20240105_101500.csv"; "summary.csv"; "Data_S2_EMS_ON_20240106_091500.csv";
   "Data_S1_EMS_ON_20240105_100000.csv.bak"].

Definition some_files : filesystem :=
  fun _ => Ok ["Trial,Direction,ReactionTime_ms"; "1,Left,250.5"; "2,Right,300"].

Definition slash (d f : string) : string := (d ++ "/" ++ f)%string.

End LoaderSpec.

(** ** Vocabulary for the descriptive statistics *)

Module StatsSpec.
Import Py Num Analysis Spec Examples.
Local Open Scope Q_scope.

(** A float that is finite and stands for the rational [q]. *)
Definition approx (a : float) (q : Q) : Prop :=
  match a with
  | Fin p => p == q
  | _ => False
  end.

(** The rational behind a finite float. *)
Definition value (a : float) : Q :=
  match a with
  | Fin q => q
  | _ => 0
  end.

Definition qsum (l : list Q) : Q := fold_right Qplus 0 l.

Definition plausible (a : float) : Prop := mask_physio a = true.

(** A float that is a number. *)
Definition finite (a : float) : Prop := exists q, a = Fin q.

(** A reported mean and its count: NaN for no value, else a number
    between 100 and 1000. *)
Definition mean_in_range (n : nat) (m : float) : Prop :=
  (n = 0%nat /\ m = NaN) \/ (n <> 0%nat /\ exists q, m = Fin q /\ 100 <= q <= 1000).

(** The divisor of the effect size for two standard deviations. *)
Definition pooled_sd (s1 s2 : R) : R := sqrt ((s1 * s1 + s2 * s2) / 2).

(** The effect size read off the reported columns: finite, the change
    over the divisor, and of the sign of the change. *)
Definition effect_of_columns (change : float) (s1 s2 : R) (d : rfloat) : Prop :=
  exists c, change = Fin c /\ d = RFin (Q2R c / pooled_sd s1 s2) /\
            ((0 < Q2R c / pooled_sd s1 s2)%R <-> 0 < c) /\
            ((Q2R c / pooled_sd s1 s2 < 0)%R <-> c < 0).

(** The sum of the squared distances to [m]. *)
Definition squares (m : Q) (l : list Q) : Q := qsum (map (fun x => (x - m) * (x - m)) l).

(** The mean of the values of a series. *)
Definition qmean (l : list float) : Q := qsum (map value l) / inject_Z (Z.of_nat (length l)).

End StatsSpec.

(** ** plot_waveform.py with its parameters left open *)

Module WaveformGeneral.
Import Py Num PlotWaveform.

Section Parameters.

(** The constants of the module, as variables. *)
Variable PULSE_WIDTH_US : Z.
Variable BURST_COUNT : Z.
Variable PULSE_COUNT : Z.
Variable PULSE_INTERVAL_US : Z.
Variable DT : Z.

(** [time.append(t); waveform.append(v); t += DT] *)
Definition emit (v : float) (st : gen) : gen :=
  {| waveform := waveform st ++ [v]; time := time st ++ [t st]; t := t st + DT |}.

Definition emit_for (n : Z) (v : float) (st : gen) : gen :=
  fold_left (fun st _ => emit v st) (range n) st.

Definition burst_body (st : gen) : gen :=
  let st := emit_for PULSE_WIDTH_US (of_Z 1) st in
  let st := emit_for PULSE_WIDTH_US (of_Z 0) st in
  let st := emit_for PULSE_WIDTH_US (of_Z (-1)) st in
  emit_for PULSE_WIDTH_US (of_Z 0) st.

Definition rep_body (st : gen) (rep : Z) : gen :=
  let st := fold_left (fun st _ => burst_body st) (range BURST_COUNT) st in
  if rep <? PULSE_COUNT - 1 then emit_for PULSE_INTERVAL_US (of_Z 0) st else st.

Definition generate : list Z * list float :=
  let st := fold_left rep_body (range PULSE_COUNT) {| waveform := []; time := []; t := 0 |} in
  (time st, waveform st).

(** The samples of one repetition: the cycles of the burst, then the
    interval unless the repetition is the last. *)
Definition repetition (rep : nat) : list float :=
  concat (repeat (cycle (Z.to_nat PULSE_WIDTH_US)) (Z.to_nat BURST_COUNT)) ++
  (if (S rep <? Z.to_nat PULSE_COUNT)%nat
   then repeat (of_Z 0) (Z.to_nat PULSE_INTERVAL_US) else []).

(** The samples of all repetitions. *)
Definition samples : list float :=
  concat (map repetition (seq 0 (Z.to_nat PULSE_COUNT))).

(** The state after [w] has been emitted from [st]. *)
Definition after (st : gen) (w : list float) : gen :=
  {| waveform := waveform st ++ w;
     time := time st ++ map (fun i => t st + Z.of_nat i * DT) (seq 0 (length w));
     t := t st + Z.of_nat (length w) * DT |}.

End Parameters.

End WaveformGeneral.

(** * Properties *)

Module WaveformFacts.
Import Py Num PlotWaveform.

(** C10. With the module's parameters, [generate_biphasic_waveform] returns
    two arrays of length 600 = 4 * PULSE_WIDTH_US * BURST_COUNT; [time[i] = i]
    for every index; every waveform value is -1, 0 or 1; the waveform is
    three cycles of 50 samples at +1, 50 at 0, 50 at -1 and 50 at 0; and
    the samples sum to 0. *)
Theorem generate_biphasic_waveform_shape :
  let '(time, waveform) := generate_biphasic_waveform in
  length time = 600%nat /\
  length waveform = 600%nat /\
  Z.of_nat (length waveform) = 4 * PULSE_WIDTH_US * BURST_COUNT /\
  time = map Z.of_nat (seq 0 600) /\
  (forall i, (i < 600)%nat -> nth i time (-1) = Z.of_nat i) /\
  forallb level waveform = true /\
  waveform = cycle 50 ++ cycle 50 ++ cycle 50 /\
  fsum waveform = Fin 0.
Proof.
  assert (Ht : fst generate_biphasic_waveform = map Z.of_nat (seq 0 600))
    by (vm_compute; reflexivity).
  assert (Hw : snd generate_biphasic_waveform = cycle 50 ++ cycle 50 ++ cycle 50)
    by (vm_compute; reflexivity).
  destruct generate_biphasic_waveform as [tm wf]; cbn [fst snd] in Ht, Hw; subst tm wf.
  repeat split; try (vm_compute; reflexivity).
  intros i Hi.
  assert (Hlen : (i < length (map Z.of_nat (seq 0 600)))%nat)
    by (rewrite List.length_map, List.length_seq; exact Hi).
  rewrite (nth_indep _ (-1) (Z.of_nat 0) Hlen).
  rewrite map_nth, seq_nth by exact Hi. reflexivity.
Qed.

End WaveformFacts.

(** ** Facts about the runtime model *)

Module PyFacts.
Import Py Num Spec.

Lemma returns_Ok {A} (a : A) : returns (Ok a).
Proof. eexists; reflexivity. Qed.

Lemma not_returns_Raise {A} e : ~ returns (@Raise A e).
Proof. intros [a Ha]. discriminate. Qed.

Lemma bind_Ok {A B} (a : A) (k : A -> result B) : (Ok a ≫= k) = k a.
Proof. reflexivity. Qed.

Lemma bind_Raise {A B} e (k : A -> result B) : (Raise e ≫= k) = Raise e.
Proof. reflexivity. Qed.

Lemma str_lt_spec a b : str_lt a b = true <-> String_as_OT.lt a b.
Proof.
  unfold str_lt, String_as_OT.lt.
  destruct (String_as_OT.compare a b); split; congruence.
Qed.

Lemma str_lt_irrefl a : str_lt a a = false.
Proof.
  destruct (str_lt a a) eqn:E; [|reflexivity].
  apply str_lt_spec in E. exfalso. exact (StrictOrder_Irreflexive a E).
Qed.

Lemma str_lt_trans a b c : str_lt a b = true -> str_lt b c = true -> str_lt a c = true.
Proof.
  rewrite !str_lt_spec. apply (StrictOrder_Transitive (R := String_as_OT.lt)).
Qed.

Lemma str_lt_asym a b : str_lt a b = true -> str_lt b a = false.
Proof.
  intros H. destruct (str_lt b a) eqn:E; [|reflexivity].
  pose proof (str_lt_trans _ _ _ H E) as Haa. rewrite str_lt_irrefl in Haa. discriminate.
Qed.

Lemma str_lt_connex a b : str_lt a b = false -> str_lt b a = false -> a = b.
Proof.
  unfold str_lt. intros Hab Hba.
  destruct (String_as_OT.compare_spec a b) as [Heq|Hlt|Hgt]; try discriminate.
  - exact Heq.
  - unfold String_as_OT.lt in Hgt. rewrite Hgt in Hba. discriminate.
Qed.

Lemma str_le_trans a b c : str_le a b -> str_le b c -> str_le a c.
Proof.
  unfold str_le. intros Hab Hbc.
  destruct (str_lt c a) eqn:Hca; [|reflexivity].
  destruct (str_lt a b) eqn:E.
  - pose proof (str_lt_trans _ _ _ Hca E) as H. congruence.
  - pose proof (str_lt_connex _ _ E Hab) as ->. congruence.
Qed.

Lemma filter_perm {A} (f : A -> bool) (l l' : list A) :
  l ≡ₚ l' -> List.filter f l ≡ₚ List.filter f l'.
Proof.
  induction 1 as [|x l l' _ IH|x y l|l l' l'' _ IH1 _ IH2]; simpl.
  - constructor.
  - destruct (f x); [constructor|]; exact IH.
  - destruct (f x), (f y); try reflexivity. apply perm_swap.
  - etransitivity; eassumption.
Qed.


Lemma filter_Forall {A} (f : A -> bool) (l : list A) :
  Forall (fun x => f x = true) (List.filter f l).
Proof.
  induction l as [|x l IH]; simpl; [constructor|].
  destruct (f x) eqn:E; [constructor; assumption | exact IH].
Qed.

Lemma filter_all {A} (f : A -> bool) (l : list A) :
  Forall (fun x => f x = true) l -> List.filter f l = l.
Proof.
  induction 1 as [|x l Hx _ IH]; simpl; [reflexivity|].
  rewrite Hx, IH. reflexivity.
Qed.

Lemma filter_StronglySorted {A} (R : A -> A -> Prop) (f : A -> bool) (l : list A) :
  StronglySorted R l -> StronglySorted R (List.filter f l).
Proof.
  induction 1 as [|x l _ IH Hx]; simpl; [constructor|].
  destruct (f x); [|exact IH].
  constructor; [exact IH|].
  rewrite Forall_forall in Hx |- *. intros y Hy.
  apply Hx. apply list_elem_of_In. apply list_elem_of_In in Hy.
  apply List.filter_In in Hy. tauto.
Qed.

Lemma forallb_Forall {A} (f : A -> bool) (l : list A) :
  forallb f l = true -> Forall (fun x => f x = true) l.
Proof.
  induction l as [|x l IH]; cbn [forallb]; intros H; constructor.
  - apply andb_prop in H. apply H.
  - apply IH. apply andb_prop in H. apply H.
Qed.

End PyFacts.

(** ** Chronological order and phase classification *)

Module ClassifyFacts.
Import Py Num Analysis Spec Examples PyFacts.

Lemma insert_entry_perm x l : insert_entry x l ≡ₚ x :: l.
Proof.
  induction l as [|y l IH]; simpl; [reflexivity|].
  destruct (str_lt (timestamp y) (timestamp x)); [|reflexivity].
  rewrite IH. apply perm_swap.
Qed.

Lemma sort_by_timestamp_perm l : sort_by_timestamp l ≡ₚ l.
Proof.
  induction l as [|x l IH]; simpl; [reflexivity|].
  rewrite insert_entry_perm, IH. reflexivity.
Qed.

Lemma insert_entry_sorted x l :
  StronglySorted not_after l -> StronglySorted not_after (insert_entry x l).
Proof.
  induction 1 as [|y l Hl IH Hy]; simpl.
  - repeat constructor.
  - destruct (str_lt (timestamp y) (timestamp x)) eqn:E.
    + constructor; [exact IH|].
      rewrite insert_entry_perm. constructor; [|exact Hy].
      apply str_lt_asym. exact E.
    + constructor; [constructor; assumption|].
      constructor; [exact E|].
      eapply Forall_impl; [exact Hy|].
      intros z Hz. eapply str_le_trans; [exact E|exact Hz].
Qed.

Lemma sort_by_timestamp_sorted l : StronglySorted not_after (sort_by_timestamp l).
Proof.
  induction l as [|x l IH]; simpl; [constructor|].
  apply insert_entry_sorted, IH.
Qed.

(** A list in strictly increasing key order is the only chronological
    arrangement of its elements. *)
Lemma chronological_unique (l l' : list entry) :
  StronglySorted before l -> StronglySorted not_after l' -> l ≡ₚ l' -> l' = l.
Proof.
  intros Hl. revert l'.
  induction Hl as [|a l Hl IH Ha]; intros l' Hl' Hp.
  - apply Permutation_nil in Hp. exact Hp.
  - destruct l' as [|h t].
    { symmetry in Hp. apply Permutation_nil in Hp. discriminate. }
    apply StronglySorted_inv in Hl' as [Ht Hh].
    assert (h = a) as ->.
    { assert (Hin : h ∈ a :: l) by (rewrite Hp; left).
      assert (Hin' : a ∈ h :: t) by (rewrite <- Hp; left).
      apply elem_of_cons in Hin as [->|Hin]; [reflexivity|].
      apply elem_of_cons in Hin' as [->|Hin']; [reflexivity|].
      rewrite Forall_forall in Ha, Hh.
      specialize (Ha h Hin). specialize (Hh a Hin').
      unfold before in Ha. unfold not_after, str_le in Hh. congruence. }
    f_equal. apply IH; [exact Ht|].
    eapply Permutation_cons_inv. exact Hp.
Qed.

(** After the sort, the files of one status are in chronological order. *)
Lemma sorted_status_files (s : string) (files l : list entry) :
  List.filter (has_status s) files ≡ₚ l ->
  StronglySorted before l ->
  List.filter (has_status s) (sort_by_timestamp files) = l.
Proof.
  intros Hp Hl. apply chronological_unique.
  - exact Hl.
  - apply filter_StronglySorted, sort_by_timestamp_sorted.
  - rewrite <- Hp. apply filter_perm. symmetry. apply sort_by_timestamp_perm.
Qed.

Lemma assign_nth_insert n key (fs : list entry) (m : gmap string entry) :
  assign_nth (S n) key fs m =
  match fs !! n with
  | Some f => <[key := f]> m
  | None => m
  end.
Proof.
  unfold assign_nth. replace (S n - 1)%nat with n by lia.
  destruct (fs !! n) eqn:E.
  - apply lookup_lt_Some in E.
    destruct (Nat.leb_spec (S n) (length fs)); [reflexivity|lia].
  - destruct (S n <=? length fs)%nat; reflexivity.
Qed.

Lemma assign_nth_lookup n key (fs : list entry) (m : gmap string entry) :
  assign_nth (S n) key fs m !! key = match fs !! n with Some f => Some f | None => m !! key end.
Proof.
  rewrite assign_nth_insert. destruct (fs !! n); [apply lookup_insert_eq|reflexivity].
Qed.

Lemma assign_nth_lookup_ne n key key' (fs : list entry) (m : gmap string entry) :
  key <> key' -> assign_nth n key fs m !! key' = m !! key'.
Proof.
  intros Hne. unfold assign_nth.
  destruct (n <=? length fs)%nat; [|reflexivity].
  destruct (fs !! (n - 1)%nat); [|reflexivity].
  apply lookup_insert_ne. exact Hne.
Qed.

(** The classifier, key by key: the [i]-th key of a status holds the [i]-th
    file of that status, and is absent when there is no such file. *)
Lemma classify_phases_on (files : list entry) i key :
  on_keys !! i = Some key -> classify_phases files !! key = on_files files !! i.
Proof.
  intros Hk. unfold classify_phases. fold (on_files files). fold (off_files files).
  destruct i as [|[|[|i]]]; simpl in Hk; try discriminate; injection Hk as <-;
    repeat first
      [ rewrite assign_nth_lookup_ne by discriminate
      | rewrite assign_nth_lookup ];
    destruct (on_files files !! _); reflexivity.
Qed.

Lemma classify_phases_off (files : list entry) i key :
  off_keys !! i = Some key -> classify_phases files !! key = off_files files !! i.
Proof.
  intros Hk. unfold classify_phases. fold (on_files files). fold (off_files files).
  destruct i as [|[|[|i]]]; simpl in Hk; try discriminate; injection Hk as <-;
    repeat first
      [ rewrite assign_nth_lookup_ne by discriminate
      | rewrite assign_nth_lookup ];
    destruct (off_files files !! _); reflexivity.
Qed.

End ClassifyFacts.

Module ClassifyClaims.
Import Py Num Analysis Spec Examples PyFacts ClassifyFacts.

(** C1. Whenever the ON files of a subject are [a1], [a2], [a3] with
    increasing timestamps and the OFF files are [b1], [b2], [b3] with
    increasing timestamps, in whatever order the list holds them, the
    classifier applied to the chronologically sorted list maps
    [ems_response] to [a1], [train_phase1] to [a2], [train_phase2] to [a3],
    [baseline] to [b1], [measure_phase1] to [b2], [measure_phase2] to [b3]. *)
Theorem classify_phases_three_and_three (files : list entry) (a1 a2 a3 b1 b2 b3 : entry) :
  on_files files ≡ₚ [a1; a2; a3] ->
  off_files files ≡ₚ [b1; b2; b3] ->
  before a1 a2 -> before a2 a3 ->
  before b1 b2 -> before b2 b3 ->
  let phases := classify_phases (sort_by_timestamp files) in
  phases !! "ems_response" = Some a1 /\
  phases !! "train_phase1" = Some a2 /\
  phases !! "train_phase2" = Some a3 /\
  phases !! "baseline" = Some b1 /\
  phases !! "measure_phase1" = Some b2 /\
  phases !! "measure_phase2" = Some b3.
Proof.
  intros Hon Hoff Ha12 Ha23 Hb12 Hb23 phases.
  assert (Hsorted : forall x y z : entry,
             before x y -> before y z -> StronglySorted before [x; y; z]).
  { intros x y z Hxy Hyz. repeat constructor; try assumption.
    eapply str_lt_trans; eassumption. }
  pose proof (sorted_status_files "EMS_ON" files _ Hon (Hsorted _ _ _ Ha12 Ha23)) as Eon.
  pose proof (sorted_status_files "EMS_OFF" files _ Hoff (Hsorted _ _ _ Hb12 Hb23)) as Eoff.
  fold (on_files (sort_by_timestamp files)) in Eon.
  fold (off_files (sort_by_timestamp files)) in Eoff.
  subst phases.
  rewrite (classify_phases_on _ 0 "ems_response"), (classify_phases_on _ 1 "train_phase1"),
    (classify_phases_on _ 2 "train_phase2"), (classify_phases_off _ 0 "baseline"),
    (classify_phases_off _ 1 "measure_phase1"), (classify_phases_off _ 2 "measure_phase2")
    by reflexivity.
  rewrite Eon, Eoff. repeat split; reflexivity.
Qed.

Lemma classify_phases_three_and_three_witness :
  let phases := classify_phases (sort_by_timestamp shuffled) in
  phases !! "ems_response" = Some on1 /\
  phases !! "train_phase1" = Some on2 /\
  phases !! "train_phase2" = Some on3 /\
  phases !! "baseline" = Some off1 /\
  phases !! "measure_phase1" = Some off2 /\
  phases !! "measure_phase2" = Some off3.
Proof.
  apply (classify_phases_three_and_three shuffled on1 on2 on3 off1 off2 off3).
  - exact (Permutation_app_comm [on3] [on1; on2]).
  - exact (Permutation_app_comm [off2; off3] [off1]).
  - reflexivity.
  - reflexivity.
  - reflexivity.
  - reflexivity.
Defined.

Lemma reaction_times_missing (phases : gmap string entry) key :
  phases !! key = None -> reaction_times phases key = Raise (KeyError key).
Proof. intros H. unfold reaction_times, getitem. rewrite H. reflexivity. Qed.

Lemma reaction_times_cases (phases : gmap string entry) key :
  returns (reaction_times phases key) \/ raises_KeyError (reaction_times phases key).
Proof.
  unfold reaction_times, getitem.
  destruct (phases !! key) as [f|]; simpl; [|right; eexists; reflexivity].
  destruct (data f); simpl; [right|left]; eexists; reflexivity.
Qed.

(** The analyzer reads the three OFF phases first: a missing one ends it
    with a [KeyError]. *)
Lemma analyze_subject_missing mannwhitneyu name (phases : gmap string entry) key :
  key ∈ off_keys -> phases !! key = None ->
  raises_KeyError (analyze_subject mannwhitneyu name phases).
Proof.
  intros Hkey Hnone. unfold analyze_subject.
  destruct (reaction_times_cases phases "baseline") as [[bl Hbl]|[k Hbl]];
    rewrite Hbl; simpl; [|eexists; reflexivity].
  destruct (reaction_times_cases phases "measure_phase1") as [[p1 Hp1]|[k Hp1]];
    rewrite Hp1; simpl; [|eexists; reflexivity].
  destruct (reaction_times_cases phases "measure_phase2") as [[p2 Hp2]|[k Hp2]];
    rewrite Hp2; simpl; [|eexists; reflexivity].
  unfold off_keys in Hkey.
  repeat (apply elem_of_cons in Hkey as [->|Hkey]);
    try (rewrite (reaction_times_missing _ _ Hnone) in *; discriminate).
  apply elem_of_nil in Hkey. contradiction.
Qed.

(** C9. When a subject has no more than [i] files of a status, with [i]
    below 3, classification still returns a mapping; that mapping lacks
    the status's key number [i]; reading that key raises [KeyError]; and,
    for the OFF status, so does the subject analyzer. *)
Theorem missing_phase_is_KeyError mannwhitneyu name (files : list entry)
    (status : string) (keys : list string) (i : nat) (key : string) :
  (status, keys) ∈ status_keys ->
  keys !! i = Some key ->
  (length (List.filter (has_status status) files) <= i)%nat ->
  classify_phases files !! key = None /\
  getitem (classify_phases files) key = Raise (KeyError key) /\
  (status = "EMS_OFF" ->
   raises_KeyError (analyze_subject mannwhitneyu name (classify_phases files))).
Proof.
  intros Hs Hk Hlen.
  assert (Hnone : classify_phases files !! key = None).
  { unfold status_keys in Hs.
    apply elem_of_cons in Hs as [Hs|Hs]; [|apply list_elem_of_singleton in Hs];
      injection Hs as -> ->.
    - rewrite (classify_phases_on _ i) by exact Hk.
      apply lookup_ge_None. exact Hlen.
    - rewrite (classify_phases_off _ i) by exact Hk.
      apply lookup_ge_None. exact Hlen. }
  split; [exact Hnone|]. split.
  - unfold getitem. rewrite Hnone. reflexivity.
  - intros ->. apply (analyze_subject_missing _ _ _ key); [|exact Hnone].
    unfold status_keys in Hs.
    apply elem_of_cons in Hs as [Hs|Hs]; [discriminate|].
    apply list_elem_of_singleton in Hs. injection Hs as ->.
    eapply list_elem_of_lookup_2. exact Hk.
Qed.

Lemma missing_phase_is_KeyError_witness :
  classify_phases (sort_by_timestamp cut_short) !! "measure_phase2" = None /\
  getitem (classify_phases (sort_by_timestamp cut_short)) "measure_phase2" =
    Raise (KeyError "measure_phase2") /\
  raises_KeyError
    (analyze_subject singleton_rank_sum "S1" (classify_phases (sort_by_timestamp cut_short))).
Proof.
  destruct (missing_phase_is_KeyError singleton_rank_sum "S1" (sort_by_timestamp cut_short)
              "EMS_OFF" off_keys 2 "measure_phase2") as (Hnone & Hget & Hraise).
  - right. left.
  - reflexivity.
  - vm_compute. apply le_n.
  - split; [exact Hnone|]. split; [exact Hget|]. apply Hraise. reflexivity.
Defined.

End ClassifyClaims.

(** ** The outlier filter *)

Module OutlierClaims.
Import Py Num Analysis Spec Examples PyFacts.

Lemma remove_outliers_unfold series label :
  remove_outliers series label =
  List.filter (mask_iqr (iqr_lower (physio series)) (iqr_upper (physio series))) (physio series).
Proof. reflexivity. Qed.

Lemma filter_filter_same {A} (f : A -> bool) (l : list A) :
  List.filter f (List.filter f l) = List.filter f l.
Proof. apply filter_all, filter_Forall. Qed.

Lemma remove_outliers_physio series label :
  Forall (fun x => mask_physio x = true) (remove_outliers series label).
Proof.
  rewrite remove_outliers_unfold.
  apply Forall_forall. intros x Hx.
  apply list_elem_of_In, List.filter_In in Hx as [Hx _].
  apply List.filter_In in Hx as [_ Hx]. exact Hx.
Qed.




(** A second pass removes nothing exactly when the survivors of the first
    lie within their own fences. *)
Lemma remove_outliers_twice series label :
  remove_outliers (remove_outliers series label) label = remove_outliers series label <->
  within_own_fences (remove_outliers series label).
Proof.
  set (out := remove_outliers series label).
  assert (Hout : physio out = out) by apply filter_all, remove_outliers_physio.
  rewrite (remove_outliers_unfold out), Hout. unfold within_own_fences. split.
  - intros H.
    pose proof (filter_Forall (mask_iqr (iqr_lower out) (iqr_upper out)) out) as HF.
    rewrite H in HF. exact HF.
  - apply filter_all.
Qed.

(** The fences are the rounded ones.  The upper fence of the doubles
    105.0, 107.4, 108.2 and 113.8 is 113.79999999999997, two doubles below
    113.8, which is dropped; the two quartiles of two neighbours of 100 round to the double
    between them, and nothing is kept. *)
Lemma remove_outliers_rounded_fences :
  iqr_upper close_to_fence = Fin (8007963087418161 # 70368744177664) /\
  remove_outliers close_to_fence "" = map round64 [105 # 1; 1074 # 10; 1082 # 10]%Q /\
  Forall (fun x => mask_physio x = true) neighbours /\
  remove_outliers neighbours "" = [].
Proof.
  split; [vm_compute; reflexivity|]. split; [vm_compute; reflexivity|].
  split; [|vm_compute; reflexivity].
  apply forallb_Forall. vm_compute. reflexivity.
Qed.

(** C7. A second pass returns the output of the first exactly when the
    values kept by the first pass lie within the fences drawn from their
    own quartiles; this is so whenever the first pass removes nothing but
    the values outside [100, 1000].  On
    [120, 130, 125, 128, 122, 900, 121] the first pass
    removes exactly 900, the six values left lie within their own fences,
    and the second pass removes nothing.  On
    [100, 101, 102, 103, 104, 110, 200] the second pass removes more. *)
Theorem remove_outliers_idempotent :
  (forall series label,
     within_own_fences (remove_outliers series label) <->
     remove_outliers (remove_outliers series label) label = remove_outliers series label) /\
  (forall series label,
     remove_outliers series label = physio series ->
     remove_outliers (remove_outliers series label) label = remove_outliers series label) /\
  remove_outliers synthetic "" = synthetic_cleaned /\
  within_own_fences (remove_outliers synthetic "") /\
  remove_outliers (remove_outliers synthetic "") "" = remove_outliers synthetic "" /\
  remove_outliers (remove_outliers drifting "") "" <> remove_outliers drifting "".
Proof.
  assert (Hfirst : remove_outliers synthetic "" = synthetic_cleaned)
    by (vm_compute; reflexivity).
  assert (Hin : within_own_fences (remove_outliers synthetic "")).
  { rewrite Hfirst. apply forallb_Forall. vm_compute. reflexivity. }
  split; [intros series label; symmetry; apply remove_outliers_twice|].
  split.
  { intros series label H. apply remove_outliers_twice.
    pose proof (filter_Forall (mask_iqr (iqr_lower (physio series)) (iqr_upper (physio series)))
                  (physio series)) as HF.
    rewrite <- remove_outliers_unfold with (label := label) in HF.
    rewrite H in *. exact HF. }
  split; [exact Hfirst|]. split; [exact Hin|]. split.
  - apply remove_outliers_twice, Hin.
  - intros H. vm_compute in H. discriminate H.
Qed.

(** Two anticipations and a lapse change nothing: the first pass on
    [with_lapses] ends on the six values of the synthetic series. *)
Lemma remove_outliers_idempotent_witness :
  within_own_fences (remove_outliers with_lapses "") /\
  remove_outliers with_lapses "" = synthetic_cleaned /\
  remove_outliers (remove_outliers with_lapses "") "" = remove_outliers with_lapses "".
Proof.
  assert (Hfirst : remove_outliers with_lapses "" = synthetic_cleaned)
    by (vm_compute; reflexivity).
  assert (Hin : within_own_fences (remove_outliers with_lapses "")).
  { rewrite Hfirst. apply forallb_Forall. vm_compute. reflexivity. }
  split; [exact Hin|]. split; [exact Hfirst|].
  exact (proj1 (proj1 remove_outliers_idempotent with_lapses "") Hin).
Defined.

End OutlierClaims.

(** ** The file parser *)

Module ParserClaims.
Import Py Num Analysis Spec Examples PyFacts.

Lemma startswith_app s p : startswith s p = true <-> exists t, s = (p ++ t)%string.
Proof.
  unfold startswith. revert s.
  induction p as [|a p IH]; intros s.
  - split; [intros _; exists s; reflexivity | intros _; destruct s; reflexivity].
  - destruct s as [|b s]; simpl; [split; [discriminate|intros [t Ht]; discriminate]|].
    destruct (ascii_dec a b) as [->|Hne].
    + rewrite IH. split; intros [t Ht]; exists t.
      * rewrite Ht. reflexivity.
      * change (String b s = String b (p ++ t)%string) in Ht. congruence.
    + split; [discriminate|]. intros [t Ht].
      change (String b s = String a (p ++ t)%string) in Ht. congruence.
Qed.

Lemma startswith_self p : startswith p p = true.
Proof.
  apply startswith_app. exists EmptyString.
  induction p as [|a p IH]; [reflexivity|].
  change (String a p = String a (p ++ EmptyString)%string). rewrite <- IH. reflexivity.
Qed.

Lemma split_once_contains c s :
  contains c s = true -> exists a b, split_once c s = [a; b].
Proof.
  induction s as [|x s IH]; simpl; [discriminate|].
  destruct (Ascii.eqb x c); [intros _; eauto|].
  intros H. destruct (IH H) as (a & b & ->). eauto.
Qed.

(** The settings step of a line that is no marker: it never raises and
    leaves the modes and the trials as they are. *)
Lemma settings_step st line :
  exists st1,
    (if in_settings st && contains "," line then
       '(key, val) ← unpack2 (split_once "," line);
       Ok (set_setting st (strip key) (strip val))
     else Ok st) = Ok st1 /\
    in_settings st1 = in_settings st /\ in_trials st1 = in_trials st /\
    trials st1 = trials st.
Proof.
  destruct (in_settings st && contains "," line) eqn:E.
  - apply andb_prop in E as [_ E].
    destruct (split_once_contains _ _ E) as (a & b & ->).
    eexists. split; [reflexivity|]. repeat split.
  - eexists. split; [reflexivity|]. repeat split.
Qed.

(** The loop body on a line that is no marker. *)
Lemma parse_line_plain st raw :
  no_marker (strip raw) ->
  exists st1,
    in_settings st1 = in_settings st /\ in_trials st1 = in_trials st /\
    trials st1 = trials st /\
    parse_line st raw =
    if in_trials st && nonempty (strip raw) && (3 <=? length (split "," (strip raw)))%nat then
      t ← int (field (split "," (strip raw)) 0);
      rt ← float_of_str (field (split "," (strip raw)) 2);
      Ok (Next (append_trial st1
                  {| Trial := t; Direction := field (split "," (strip raw)) 1;
                     ReactionTime_ms := rt |}))
    else Ok (Next st1).
Proof.
  intros (H1 & H2 & H3). unfold parse_line. rewrite H1, H2, H3.
  destruct (settings_step st (strip raw)) as (st1 & -> & Hs & Htr & Hts).
  exists st1. repeat split; try assumption.
  rewrite bind_Ok, Htr.
  destruct (in_trials st && nonempty (strip raw)); cbn [andb]; [|reflexivity].
  destruct (3 <=? length (split "," (strip raw)))%nat; reflexivity.
Qed.

Lemma no_marker_dec line :
  {startswith line settings_marker = true} +
  {startswith line settings_marker = false /\ startswith line summary_marker = true} +
  {startswith line settings_marker = false /\ startswith line summary_marker = false /\
   startswith line trials_marker = true} +
  {no_marker line}.
Proof.
  unfold no_marker.
  destruct (startswith line settings_marker); [auto|].
  destruct (startswith line summary_marker); [auto|].
  destruct (startswith line trials_marker); auto.
Qed.

Lemma parse_lines_returns st lines :
  returns (parse_lines st lines) <-> Forall numeric_row (trial_rows (in_trials st) lines).
Proof.
  revert st. induction lines as [|raw rest IH]; intros st.
  { split; [constructor | intros _; apply returns_Ok]. }
  cbn [parse_lines trial_rows].
  destruct (no_marker_dec (strip raw)) as [[[H1|[H1 H2]]|(H1 & H2 & H3)]|Hno].
  - unfold parse_line. rewrite H1, bind_Ok. apply IH.
  - unfold parse_line. rewrite H1, H2, bind_Ok.
    split; [constructor | intros _; apply returns_Ok].
  - unfold parse_line. rewrite H1, H2, H3, bind_Ok. apply IH.
  - destruct (parse_line_plain st raw Hno) as (st1 & _ & Htr & _ & ->).
    destruct Hno as (-> & -> & ->).
    destruct (in_trials st && nonempty (strip raw) &&
              (3 <=? length (split "," (strip raw)))%nat).
    + rewrite Forall_cons. unfold numeric_row.
      destruct (int (field (split "," (strip raw)) 0)) as [n|e].
      * rewrite bind_Ok.
        destruct (float_of_str (field (split "," (strip raw)) 2)) as [rt|e].
        -- rewrite !bind_Ok, (IH (append_trial st1 _)).
           cbn [append_trial in_trials]. rewrite Htr.
           split; [intros H; repeat split; try apply returns_Ok; exact H | tauto].
        -- rewrite !bind_Raise.
           split; [intros H; destruct (not_returns_Raise _ H)|].
           intros [[_ H] _]. destruct (not_returns_Raise _ H).
      * rewrite !bind_Raise.
        split; [intros H; destruct (not_returns_Raise _ H)|].
        intros [[H _] _]. destruct (not_returns_Raise _ H).
    + rewrite bind_Ok, <- Htr. apply IH.
Qed.

Lemma int_raises s e : int s = Raise e -> e = invalid_int.
Proof.
  unfold int.
  repeat match goal with
         | |- context [let '(_, _) := ?x in _] => destruct x
         | |- context [match ?x with _ => _ end] => destruct x
         end; congruence.
Qed.

Lemma float_of_str_raises s e : float_of_str s = Raise e -> e = invalid_float.
Proof.
  unfold float_of_str.
  repeat match goal with
         | |- context [let '(_, _) := ?x in _] => destruct x
         | |- context [match ?x with _ => _ end] => destruct x
         | |- context [if ?x then _ else _] => destruct x
         end; congruence.
Qed.

(** What [parse_lines] can raise: the errors of [int] and [float]. *)
Lemma parse_lines_raises st lines e :
  parse_lines st lines = Raise e -> e = invalid_int \/ e = invalid_float.
Proof.
  revert st. induction lines as [|raw rest IH]; intros st; [discriminate|].
  cbn [parse_lines].
  destruct (no_marker_dec (strip raw)) as [[[H1|[H1 H2]]|(H1 & H2 & H3)]|Hno].
  - unfold parse_line. rewrite H1, bind_Ok. apply IH.
  - unfold parse_line. rewrite H1, H2, bind_Ok. discriminate.
  - unfold parse_line. rewrite H1, H2, H3, bind_Ok. apply IH.
  - destruct (parse_line_plain st raw Hno) as (st1 & _ & _ & _ & ->).
    destruct (in_trials st && nonempty (strip raw) &&
              (3 <=? length (split "," (strip raw)))%nat);
      [|rewrite bind_Ok; apply IH].
    destruct (int (field (split "," (strip raw)) 0)) as [n|e'] eqn:Ei.
    + rewrite bind_Ok.
      destruct (float_of_str (field (split "," (strip raw)) 2)) as [rt|e'] eqn:Ef.
      * rewrite !bind_Ok. apply IH.
      * rewrite !bind_Raise. intros [= <-]. right. eapply float_of_str_raises, Ef.
    + rewrite !bind_Raise. intros [= <-]. left. eapply int_raises, Ei.
Qed.

(** C4, as the code has it.  A file that can be opened and decoded is
    parsed without error exactly when every line read as a trial row (in
    trial mode, before the summary marker, not empty, three fields or more)
    has an integer literal in field 0 and a float literal in field 2; rows
    with fewer than three fields are dropped and put no condition.  The
    parser raises nothing but the error of opening or decoding the file and
    the [ValueError] of [int] or [float] on such a row. *)
Theorem parse_csv_returns_iff (fs : filesystem) (path : string) :
  (returns (parse_csv fs path) <->
   exists lines, fs path = Ok lines /\ Forall numeric_row (trial_rows false lines)) /\
  (forall e, parse_csv fs path = Raise e ->
             fs path = Raise e \/ e = invalid_int \/ e = invalid_float).
Proof.
  unfold parse_csv. split.
  - destruct (fs path) as [lines|e].
    + rewrite bind_Ok.
      pose proof (parse_lines_returns parser_init lines) as Hl.
      cbn [parser_init in_trials] in Hl.
      split.
      * intros Hr. exists lines. split; [reflexivity|]. apply Hl.
        destruct (parse_lines parser_init lines) as [st|e]; [apply returns_Ok|].
        destruct (not_returns_Raise _ Hr).
      * intros (lines' & [= <-] & Hrows). apply Hl in Hrows as [st ->].
        apply returns_Ok.
    + rewrite bind_Raise. split.
      * intros Hr. destruct (not_returns_Raise _ Hr).
      * intros (lines & Hl & _). discriminate.
  - intros e. destruct (fs path) as [lines|e'].
    + rewrite bind_Ok.
      destruct (parse_lines parser_init lines) as [st|e'] eqn:El; [discriminate|].
      rewrite bind_Raise. intros [= <-]. right. eapply parse_lines_raises, El.
    + rewrite bind_Raise. intros [= <-]. left. reflexivity.
Qed.

Lemma parse_csv_returns_iff_witness :
  Forall numeric_row (trial_rows false
    ["--- Settings ---"; "StimulusOffset, 0"; "Label,a,b";
     "Trial,Direction,ReactionTime_ms"; "1,Left,250.5"; "garbage"; "";
     "2,Right"; "3,Right,3e2,late"; "--- Summary ---"; "Average,x,y"]) /\
  returns (parse_csv noisy "Data_S1_EMS_OFF_20240105_101500.csv").
Proof.
  assert (Hrows : Forall numeric_row (trial_rows false
    ["--- Settings ---"; "StimulusOffset, 0"; "Label,a,b";
     "Trial,Direction,ReactionTime_ms"; "1,Left,250.5"; "garbage"; "";
     "2,Right"; "3,Right,3e2,late"; "--- Summary ---"; "Average,x,y"])).
  { repeat constructor; eexists; vm_compute; reflexivity. }
  split; [exact Hrows|].
  apply (proj1 (parse_csv_returns_iff noisy "Data_S1_EMS_OFF_20240105_101500.csv")).
  eexists. split; [reflexivity|exact Hrows].
Defined.

(** C4 fails on the code: two files that open and decode, whose single
    trial row has three fields, and on which the parser raises. *)
Lemma parse_csv_raises_on_words :
  parse_csv word_for_number "Data_S1_EMS_OFF_20240105_101500.csv" = Raise invalid_int /\
  parse_csv word_for_time "Data_S1_EMS_OFF_20240105_101500.csv" = Raise invalid_float.
Proof. split; vm_compute; reflexivity. Qed.

(** On a well-behaved noisy file the short rows are dropped. *)
Lemma parse_csv_noisy :
  snd <$> parse_csv noisy "Data_S1_EMS_OFF_20240105_101500.csv" =
  Ok [ {| Trial := 1; Direction := "Left"; ReactionTime_ms := Fin (501 # 2) |};
       {| Trial := 3; Direction := "Right"; ReactionTime_ms := Fin 300 |} ].
Proof. vm_compute. reflexivity. Qed.

(** C8, as the code has it.  The parser tests prefixes, in this order: a
    line that, once trimmed, starts with the settings marker enters
    settings mode; one that starts with the summary marker ends the
    parsing, whatever lines follow; one that starts with
    [Trial,Direction,] enters trial mode; any other line leaves the modes
    as they are and does not end the loop. *)
Theorem parse_line_markers (st : parser) (raw : string) :
  (forall t, strip raw = (settings_marker ++ t)%string ->
             parse_line st raw = Ok (Next (set_mode st true false))) /\
  (forall t rest, strip raw = (summary_marker ++ t)%string ->
                  parse_line st raw = Ok (Break st) /\
                  parse_lines st (raw :: rest) = Ok st) /\
  (forall t, strip raw = (trials_marker ++ t)%string ->
             parse_line st raw = Ok (Next (set_mode st false true))) /\
  (no_marker (strip raw) ->
   forall r, parse_line st raw = Ok r ->
             exists st', r = Next st' /\
                         in_settings st' = in_settings st /\ in_trials st' = in_trials st).
Proof.
  assert (Hpre : forall m t, strip raw = (m ++ t)%string -> startswith (strip raw) m = true).
  { intros m t Ht. apply startswith_app. exists t. exact Ht. }
  split; [|split; [|split]].
  - intros t Ht. unfold parse_line. rewrite (Hpre _ _ Ht). reflexivity.
  - intros t rest Ht.
    assert (Hline : parse_line st raw = Ok (Break st)).
    { unfold parse_line. rewrite (Hpre _ _ Ht).
      destruct (startswith (strip raw) settings_marker) eqn:E; [|reflexivity].
      apply startswith_app in E as [t' E]. rewrite Ht in E. discriminate. }
    split; [exact Hline|]. cbn [parse_lines]. rewrite Hline. reflexivity.
  - intros t Ht. unfold parse_line. rewrite (Hpre _ _ Ht).
    destruct (startswith (strip raw) settings_marker) eqn:E1.
    { apply startswith_app in E1 as [t' E1]. rewrite Ht in E1. discriminate. }
    destruct (startswith (strip raw) summary_marker) eqn:E2; [|reflexivity].
    apply startswith_app in E2 as [t' E2]. rewrite Ht in E2. discriminate.
  - intros Hno r Hr.
    destruct (parse_line_plain st raw Hno) as (st1 & Hs & Htr & _ & Hline).
    rewrite Hline in Hr.
    destruct (in_trials st && nonempty (strip raw) &&
              (3 <=? length (split "," (strip raw)))%nat).
    + destruct (int (field (split "," (strip raw)) 0)) as [n|e]; [|discriminate].
      rewrite bind_Ok in Hr.
      destruct (float_of_str (field (split "," (strip raw)) 2)) as [rt|e]; [|discriminate].
      rewrite bind_Ok in Hr. injection Hr as <-.
      eexists. split; [reflexivity|]. split; assumption.
    + injection Hr as <-. eexists. split; [reflexivity|]. split; assumption.
Qed.

Lemma parse_line_markers_witness :
  no_marker (strip "StimulusOffset, 0") /\
  exists st', parse_line (set_mode parser_init true false) "StimulusOffset, 0" = Ok (Next st') /\
              in_settings st' = true /\ in_trials st' = false.
Proof.
  assert (Hno : no_marker (strip "StimulusOffset, 0")) by (repeat split).
  split; [exact Hno|].
  destruct (proj2 (proj2 (proj2
              (parse_line_markers (set_mode parser_init true false) "StimulusOffset, 0")))
              Hno _ eq_refl) as (st' & Hr & Hs & Ht).
  exists st'. split; [rewrite <- Hr; reflexivity|]. split; assumption.
Defined.

(** C8 fails on the code: lines that extend a marker, or that share only
    the first two columns of the trials header, switch the mode; after
    the extended summary marker the row that follows is not read. *)
Lemma markers_match_by_prefix :
  strip "--- Settings ---x" <> settings_marker /\
  parse_line parser_init "--- Settings ---x" = Ok (Next (set_mode parser_init true false)) /\
  strip "Trial,Direction,Speed" <> "Trial,Direction,ReactionTime_ms" /\
  parse_line parser_init "Trial,Direction,Speed" = Ok (Next (set_mode parser_init false true)) /\
  strip "--- Summary ---x" <> summary_marker /\
  trials <$> parse_lines parser_init
    ["Trial,Direction,ReactionTime_ms"; "--- Summary ---x"; "1,Left,250"] = Ok [].
Proof. repeat split; try discriminate; vm_compute; reflexivity. Qed.

End ParserClaims.

(** ** Descriptive statistics and effect sizes *)

Module StatsFacts.
Import Py Num Analysis Spec Examples PyFacts.

Lemma Q2R_Qred q : Q2R (Qred q) = Q2R q.
Proof. apply Qeq_eqR, Qred_correct. Qed.

Lemma rsqrt_nonneg x : (0 <= x)%R -> rsqrt (RFin x) = RFin (sqrt x).
Proof. intros H. unfold rsqrt. destruct (Rlt_dec x 0); [lra|reflexivity]. Qed.

Lemma rdiv_finite x y : y <> 0%R -> rdiv (RFin x) (RFin y) = RFin (x / y).
Proof.
  intros H. unfold rdiv, rzero. destruct (Req_dec_T y 0); [contradiction|reflexivity].
Qed.

(** The effect size of two samples with finite means and variances that
    are not both zero. *)
Lemma cohen_d_finite (m1 m2 v1 v2 : Q) :
  (0 <= v1)%Q -> (0 <= v2)%Q -> (0 < v1 + v2)%Q ->
  cohen_d (Fin m1) (rsqrt (of_float (Fin v1))) (Fin m2) (rsqrt (of_float (Fin v2))) =
  RFin ((Q2R m1 - Q2R m2) / sqrt ((sqrt (Q2R v1) * sqrt (Q2R v1) +
                                  sqrt (Q2R v2) * sqrt (Q2R v2)) / 2)).
Proof.
  intros H1 H2 H12. apply Qle_Rle in H1, H2. apply Qlt_Rlt in H12.
  rewrite Q2R_plus in H12. change (Q2R 0) with (0 * / 1)%R in *.
  rewrite Rmult_0_l in *.
  unfold cohen_d. cbn [fsub fneg fadd]. unfold fin. cbn [of_float].
  rewrite !rsqrt_nonneg by assumption. cbn [rsqr radd].
  rewrite !sqrt_sqrt by assumption.
  rewrite rdiv_finite by lra.
  rewrite rsqrt_nonneg by lra.
  assert (Hpos : (0 < sqrt ((Q2R v1 + Q2R v2) / 2))%R) by (apply sqrt_lt_R0; lra).
  rewrite rdiv_finite by lra.
  f_equal. f_equal.
  rewrite Q2R_Qred, Q2R_plus, Q2R_Qred, Q2R_opp. reflexivity.
Qed.

Lemma cohen_d_nan_l m1 m2 s2 : cohen_d m1 RNaN m2 s2 = RNaN.
Proof.
  unfold cohen_d. cbn [rsqr radd rdiv rsqrt].
  destruct (of_float (fsub m1 m2)); reflexivity.
Qed.

Lemma cohen_d_nan_r m1 s1 m2 : cohen_d m1 s1 m2 RNaN = RNaN.
Proof.
  unfold cohen_d. cbn [rsqr].
  replace (radd (rsqr s1) RNaN) with RNaN by (destruct (rsqr s1); reflexivity).
  cbn [rdiv rsqrt]. destruct (of_float (fsub m1 m2)); reflexivity.
Qed.

Lemma physio_notnan (l : list float) :
  Forall (fun x => mask_physio x = true) l -> List.filter notnan l = l.
Proof.
  intros H. apply filter_all. eapply Forall_impl; [exact H|].
  intros x Hx. destruct x; try reflexivity. discriminate.
Qed.

(** A sample standard deviation needs two values. *)
Lemma pd_std_short (s : list float) :
  (length (List.filter notnan s) <= 1)%nat -> pd_std s = RNaN.
Proof.
  intros H. unfold pd_std, pd_var.
  destruct (Nat.leb_spec (length (List.filter notnan s)) 1); [reflexivity|lia].
Qed.

Lemma pd_mean_empty (s : list float) : List.filter notnan s = [] -> pd_mean s = NaN.
Proof. intros H. unfold pd_mean. rewrite H. reflexivity. Qed.


End StatsFacts.

(** ** Subject and group analysis *)

Module AnalysisClaims.
Import Py Num Analysis Spec Examples PyFacts ClassifyFacts ClassifyClaims OutlierClaims ParserClaims StatsFacts.

Lemma cleaned_std_short series label :
  (length (remove_outliers series label) <= 1)%nat ->
  pd_std (remove_outliers series label) = RNaN.
Proof.
  intros H. apply pd_std_short.
  rewrite physio_notnan by apply remove_outliers_physio. exact H.
Qed.

(** C5, as the code has it.  The analyzer has no error for short series.
    When the three measurement phases can be read and the rank-sum tests
    return, it returns a result; there, a phase whose cleaned series has
    zero or one value has NaN as standard deviation and NaN as every
    effect size that involves it, and a phase with no value has NaN as
    mean. *)
Theorem analyze_subject_short_series (mannwhitneyu : rank_sum_test) (name : string)
    (phases : gmap string entry) (bl_raw p1_raw p2_raw : list float) :
  reaction_times phases "baseline" = Ok bl_raw ->
  reaction_times phases "measure_phase1" = Ok p1_raw ->
  reaction_times phases "measure_phase2" = Ok p2_raw ->
  let bl := remove_outliers bl_raw name in
  let p1 := remove_outliers p1_raw name in
  let p2 := remove_outliers p2_raw name in
  returns (mannwhitneyu bl p1 greater) ->
  returns (mannwhitneyu bl p2 greater) ->
  returns (mannwhitneyu p1 p2 greater) ->
  exists r,
    analyze_subject mannwhitneyu name phases = Ok r /\
    ((length bl <= 1)%nat -> bl_sd r = RNaN /\ d_p1 r = RNaN /\ d_p2 r = RNaN) /\
    ((length p1 <= 1)%nat -> p1_sd r = RNaN /\ d_p1 r = RNaN) /\
    ((length p2 <= 1)%nat -> p2_sd r = RNaN /\ d_p2 r = RNaN) /\
    (bl = [] -> bl_mean r = NaN) /\
    (p1 = [] -> p1_mean r = NaN) /\
    (p2 = [] -> p2_mean r = NaN).
Proof.
  intros Hbl Hp1 Hp2 bl p1 p2 [[u1 pv1] H1] [[u2 pv2] H2] [[u3 pv3] H3].
  subst bl p1 p2.
  unfold analyze_subject. rewrite Hbl, Hp1, Hp2. rewrite !bind_Ok. cbv zeta.
  rewrite H1, H2, H3. rewrite !bind_Ok.
  eexists. split; [reflexivity|].
  cbn [bl_sd p1_sd p2_sd d_p1 d_p2 bl_mean p1_mean p2_mean].
  repeat split.
  - apply cleaned_std_short; assumption.
  - rewrite (cleaned_std_short bl_raw name) by assumption. apply cohen_d_nan_l.
  - rewrite (cleaned_std_short bl_raw name) by assumption. apply cohen_d_nan_l.
  - apply cleaned_std_short; assumption.
  - rewrite (cleaned_std_short p1_raw name) by assumption. apply cohen_d_nan_r.
  - apply cleaned_std_short; assumption.
  - rewrite (cleaned_std_short p2_raw name) by assumption. apply cohen_d_nan_r.
  - intros ->. reflexivity.
  - intros ->. reflexivity.
  - intros ->. reflexivity.
Qed.

Lemma analyze_subject_short_series_witness :
  exists r,
    analyze_subject singleton_rank_sum "S1"
      (classify_phases (sort_by_timestamp one_trial_each)) = Ok r /\
    bl_sd r = RNaN /\ d_p1 r = RNaN /\ d_p2 r = RNaN.
Proof.
  set (phases := classify_phases (sort_by_timestamp one_trial_each)).
  assert (Hbl : reaction_times phases "baseline" = Ok [of_Z 300]) by (vm_compute; reflexivity).
  assert (Hp1 : reaction_times phases "measure_phase1" = Ok [of_Z 280])
    by (vm_compute; reflexivity).
  assert (Hp2 : reaction_times phases "measure_phase2" = Ok [of_Z 260])
    by (vm_compute; reflexivity).
  destruct (analyze_subject_short_series singleton_rank_sum "S1" phases _ _ _ Hbl Hp1 Hp2
              (returns_Ok _) (returns_Ok _) (returns_Ok _))
    as (r & Hr & Hshort & _).
  exists r. split; [exact Hr|]. apply Hshort. vm_compute. apply le_n.
Defined.

(** C5 fails on the code: a subject with one value per phase is analyzed
    without any error; the standard deviation and the effect size come out
    as NaN. *)
Lemma one_trial_each_gives_nan :
  exists r,
    analyze_subject singleton_rank_sum "S1"
      (classify_phases (sort_by_timestamp one_trial_each)) = Ok r /\
    bl_n r = 1%nat /\ p1_n r = 1%nat /\ p2_n r = 1%nat /\
    bl_mean r = Fin 300 /\ bl_sd r = RNaN /\ d_p1 r = RNaN /\ p_p1 r = Fin (1 # 2).
Proof.
  eexists. split; [vm_compute; reflexivity|].
  repeat split.
Qed.

(** The effect size of [analyze_subject] is built on [Series.std], that of
    the pooled rows on [ndarray.std]. *)
Lemma analyze_subject_effect_size mannwhitneyu name phases r :
  analyze_subject mannwhitneyu name phases = Ok r ->
  d_p1 r = cohen_d (pd_mean (bl_data r)) (pd_std (bl_data r))
                   (pd_mean (p1_data r)) (pd_std (p1_data r)) /\
  d_p2 r = cohen_d (pd_mean (bl_data r)) (pd_std (bl_data r))
                   (pd_mean (p2_data r)) (pd_std (p2_data r)).
Proof.
  unfold analyze_subject.
  destruct (reaction_times phases "baseline"); [|discriminate].
  destruct (reaction_times phases "measure_phase1"); [|discriminate].
  destruct (reaction_times phases "measure_phase2"); [|discriminate].
  rewrite !bind_Ok. cbv zeta.
  repeat match goal with
         | |- context [mannwhitneyu ?x ?y ?alt] =>
             destruct (mannwhitneyu x y alt) as [[? ?]|?]; [rewrite bind_Ok|discriminate]
         end.
  intros [= <-]. split; reflexivity.
Qed.

Lemma Q2R_frac (n : Z) (d : positive) : Q2R (n # d) = (IZR n / IZR (Z.pos d))%R.
Proof. reflexivity. Qed.

(** C3 fails on the code.  For the cleaned series [300, 310, 290, 305] and
    [280, 275, 285, 270], the per-subject effect size uses the sample
    variances 875/12 and 125/3, the pooled one the population variances
    875/16 and 125/4: the same formula gives two different values. *)
Theorem effect_size_sd_mismatch :
  remove_outliers baseline_sample "" = baseline_sample /\
  remove_outliers post_sample "" = post_sample /\
  cohen_d (pd_mean baseline_sample) (pd_std baseline_sample)
          (pd_mean post_sample) (pd_std post_sample) =
    RFin ((1205 / 4 - 555 / 2) / sqrt ((875 / 12 + 125 / 3) / 2)) /\
  cohen_d (np_mean baseline_sample) (np_std baseline_sample)
          (np_mean post_sample) (np_std post_sample) =
    RFin ((1205 / 4 - 555 / 2) / sqrt ((875 / 16 + 125 / 4) / 2)) /\
  cohen_d (pd_mean baseline_sample) (pd_std baseline_sample)
          (pd_mean post_sample) (pd_std post_sample) <>
  cohen_d (np_mean baseline_sample) (np_std baseline_sample)
          (np_mean post_sample) (np_std post_sample).
Proof.
  assert (Hpd : cohen_d (pd_mean baseline_sample) (pd_std baseline_sample)
                        (pd_mean post_sample) (pd_std post_sample) =
                RFin ((1205 / 4 - 555 / 2) / sqrt ((875 / 12 + 125 / 3) / 2))).
  { unfold pd_std.
    replace (pd_mean baseline_sample) with (Fin (1205 # 4)) by (vm_compute; reflexivity).
    replace (pd_mean post_sample) with (Fin (555 # 2)) by (vm_compute; reflexivity).
    replace (pd_var baseline_sample) with (Fin (875 # 12)) by (vm_compute; reflexivity).
    replace (pd_var post_sample) with (Fin (125 # 3)) by (vm_compute; reflexivity).
    rewrite cohen_d_finite by (unfold Qle, Qlt; simpl; lia).
    rewrite !sqrt_sqrt by (rewrite Q2R_frac; lra).
    rewrite !Q2R_frac. reflexivity. }
  assert (Hnp : cohen_d (np_mean baseline_sample) (np_std baseline_sample)
                        (np_mean post_sample) (np_std post_sample) =
                RFin ((1205 / 4 - 555 / 2) / sqrt ((875 / 16 + 125 / 4) / 2))).
  { unfold np_std.
    replace (np_mean baseline_sample) with (Fin (1205 # 4)) by (vm_compute; reflexivity).
    replace (np_mean post_sample) with (Fin (555 # 2)) by (vm_compute; reflexivity).
    replace (np_var baseline_sample) with (Fin (875 # 16)) by (vm_compute; reflexivity).
    replace (np_var post_sample) with (Fin (125 # 4)) by (vm_compute; reflexivity).
    rewrite cohen_d_finite by (unfold Qle, Qlt; simpl; lia).
    rewrite !sqrt_sqrt by (rewrite Q2R_frac; lra).
    rewrite !Q2R_frac. reflexivity. }
  split; [vm_compute; reflexivity|]. split; [vm_compute; reflexivity|].
  split; [exact Hpd|]. split; [exact Hnp|].
  rewrite Hpd, Hnp. intros [= H].
  assert (Ha : (0 < sqrt ((875 / 12 + 125 / 3) / 2))%R) by (apply sqrt_lt_R0; lra).
  assert (Hb : (0 < sqrt ((875 / 16 + 125 / 4) / 2))%R) by (apply sqrt_lt_R0; lra).
  assert (Hs : sqrt ((875 / 12 + 125 / 3) / 2) = sqrt ((875 / 16 + 125 / 4) / 2)).
  { apply Rinv_eq_reg. unfold Rdiv in H.
    apply Rmult_eq_reg_l in H; [exact H | lra]. }
  apply sqrt_inj in Hs; lra.
Qed.



End AnalysisClaims.

(** ** More on the file parser *)

Module ParserExtras.
Import Py Num Analysis Spec Examples PyFacts ParserClaims ParserSpec.

Lemma fmap_Ok {A B} (f : A -> B) (a : A) : f <$> Ok a = Ok (f a).
Proof. reflexivity. Qed.

Lemma fmap_Raise {A B} (f : A -> B) e : f <$> (@Raise A e) = Raise e.
Proof. reflexivity. Qed.

Lemma parse_lines_trials st lines :
  trials <$> parse_lines st lines =
  app (trials st) <$> rows_of (trial_rows (in_trials st) lines).
Proof.
  revert st. induction lines as [|raw rest IH]; intros st.
  { cbn [parse_lines trial_rows rows_of]. rewrite !fmap_Ok, app_nil_r. reflexivity. }
  cbn [parse_lines trial_rows].
  destruct (no_marker_dec (strip raw)) as [[[H1|[H1 H2]]|(H1 & H2 & H3)]|Hno].
  - unfold parse_line. rewrite H1, bind_Ok. apply (IH (set_mode st true false)).
  - unfold parse_line. rewrite H1, H2, bind_Ok.
    cbn [rows_of]. rewrite !fmap_Ok, app_nil_r. reflexivity.
  - unfold parse_line. rewrite H1, H2, H3, bind_Ok. apply (IH (set_mode st false true)).
  - destruct (parse_line_plain st raw Hno) as (st1 & _ & Htr & Hts & ->).
    destruct Hno as (-> & -> & ->).
    destruct (in_trials st && nonempty (strip raw) &&
              (3 <=? length (split "," (strip raw)))%nat).
    + cbn [rows_of]. unfold row_of.
      destruct (int (field (split "," (strip raw)) 0)) as [n|e];
        [rewrite !bind_Ok | rewrite !bind_Raise, !fmap_Raise; reflexivity].
      destruct (float_of_str (field (split "," (strip raw)) 2)) as [rt|e];
        [rewrite !bind_Ok | rewrite !bind_Raise, !fmap_Raise; reflexivity].
      rewrite (IH (append_trial st1 _)). cbn [append_trial in_trials trials].
      rewrite Htr, Hts.
      destruct (rows_of (trial_rows (in_trials st) rest)) as [rows|e].
      * rewrite !bind_Ok, !fmap_Ok, <- app_assoc. reflexivity.
      * rewrite !bind_Raise, !fmap_Raise. reflexivity.
    + rewrite bind_Ok, (IH st1), Htr, Hts. reflexivity.
Qed.

(** X1. The trial table that [parse_csv] returns, or the error it raises,
    is that of converting, in order, the lines read as trial rows. *)
Theorem parse_csv_trial_table (fs : filesystem) (path : string) :
  snd <$> parse_csv fs path = fs path ≫= (fun lines => rows_of (trial_rows false lines)).
Proof.
  unfold parse_csv. destruct (fs path) as [lines|e]; [|reflexivity].
  rewrite !bind_Ok.
  pose proof (parse_lines_trials parser_init lines) as H.
  cbn [parser_init trials in_trials] in H.
  destruct (parse_lines parser_init lines) as [st|e].
  - rewrite bind_Ok, !fmap_Ok in *. cbn [snd].
    destruct (rows_of (trial_rows false lines)) as [rows|e'].
    + rewrite fmap_Ok in H. cbn [app] in H. exact H.
    + rewrite fmap_Raise in H. discriminate.
  - rewrite bind_Raise, !fmap_Raise in *.
    destruct (rows_of (trial_rows false lines)) as [rows|e'].
    + rewrite fmap_Ok in H. discriminate.
    + rewrite fmap_Raise in H. exact H.
Qed.




Lemma trial_rows_no_header lines :
  Forall no_header lines -> trial_rows false lines = [].
Proof.
  induction 1 as [|raw rest Hraw _ IH]; [reflexivity|].
  cbn [trial_rows]. unfold no_header in Hraw. rewrite Hraw.
  destruct (startswith (strip raw) settings_marker); [exact IH|].
  destruct (startswith (strip raw) summary_marker); [reflexivity|].
  cbn [andb]. exact IH.
Qed.

(** X3. A readable file in which no line starts with [Trial,Direction,]
    is parsed without error into an empty trial table; as the baseline of
    a subject, that table makes the analyzer raise
    [KeyError('ReactionTime_ms')]. *)
Theorem parse_csv_without_header (fs : filesystem) (path : string) (lines : list string) :
  fs path = Ok lines ->
  Forall no_header lines ->
  (exists s, parse_csv fs path = Ok (s, [])) /\
  (forall mannwhitneyu name (phases : gmap string entry) f,
     parse_csv fs path = Ok (file_settings f, data f) ->
     phases !! "baseline" = Some f ->
     analyze_subject mannwhitneyu name phases = Raise (KeyError "ReactionTime_ms")).
Proof.
  intros Hfs Hno.
  pose proof (parse_lines_trials parser_init lines) as H.
  cbn [parser_init trials in_trials] in H.
  rewrite (trial_rows_no_header _ Hno) in H. cbn [rows_of] in H. rewrite fmap_Ok in H.
  unfold parse_csv. rewrite Hfs, bind_Ok.
  destruct (parse_lines parser_init lines) as [st|e]; [|rewrite fmap_Raise in H; discriminate].
  rewrite fmap_Ok in H. cbn [app] in H. injection H as Htr.
  rewrite bind_Ok, Htr.
  split; [exists (settings st); reflexivity|].
  intros mwu name phases f [= _ Hdata] Hbl.
  unfold analyze_subject, reaction_times, getitem. rewrite Hbl, bind_Ok, <- Hdata.
  reflexivity.
Qed.

Lemma parse_csv_without_header_witness :
  exists s, parse_csv (fun _ => Ok headerless) "session.csv" = Ok (s, []).
Proof.
  apply (parse_csv_without_header (fun _ => Ok headerless) "session.csv" headerless).
  - reflexivity.
  - repeat constructor.
Defined.

Lemma split_once_first c k v :
  contains c k = false -> split_once c (k ++ String c v) = [k; v].
Proof.
  induction k as [|a k IH]; intros H.
  - change (EmptyString ++ String c v)%string with (String c v).
    cbn [split_once]. rewrite Ascii.eqb_refl. reflexivity.
  - change (String a k ++ String c v)%string with (String a (k ++ String c v)).
    cbn [split_once contains] in *.
    destruct (Ascii.eqb a c); [discriminate|]. rewrite (IH H). reflexivity.
Qed.

Lemma contains_app c k v : contains c (k ++ String c v) = true.
Proof.
  induction k as [|a k IH].
  - change (EmptyString ++ String c v)%string with (String c v).
    cbn [contains]. rewrite Ascii.eqb_refl. reflexivity.
  - change (String a k ++ String c v)%string with (String a (k ++ String c v)).
    cbn [contains]. destruct (Ascii.eqb a c); [reflexivity|exact IH].
Qed.

(** X4. In settings mode, a line that is no marker and reads [k,v] once
    trimmed, [k] free of commas, stores the trimmed [v] under the trimmed
    [k]: the value is everything after the first comma, further commas
    included, and an earlier value of the key is overwritten. *)
Theorem parse_line_setting (st : parser) (raw k v : string) :
  in_settings st = true ->
  in_trials st = false ->
  no_marker (strip raw) ->
  strip raw = (k ++ String "," v)%string ->
  contains "," k = false ->
  parse_line st raw = Ok (Next (set_setting st (strip k) (strip v))) /\
  settings (set_setting st (strip k) (strip v)) !! strip k = Some (strip v).
Proof.
  intros Hs Ht (H1 & H2 & H3) Hline Hk. split.
  - unfold parse_line. rewrite H1, H2, H3, Hs, Hline, contains_app.
    cbn [andb]. rewrite (split_once_first _ _ _ Hk). cbn [unpack2].
    rewrite !bind_Ok. cbn [set_setting in_trials]. rewrite Ht. reflexivity.
  - cbn [set_setting settings]. apply lookup_insert_eq.
Qed.

Lemma parse_line_setting_witness :
  parse_line (set_mode parser_init true false) "  Targets , left,right " =
  Ok (Next (set_setting (set_mode parser_init true false) "Targets" "left,right")).
Proof.
  apply (parse_line_setting (set_mode parser_init true false)
           "  Targets , left,right " "Targets " " left,right").
  - reflexivity.
  - reflexivity.
  - repeat split.
  - reflexivity.
  - reflexivity.
Defined.

End ParserExtras.

(** ** More on the order of the files and on the classifier *)

Module OrderExtras.
Import Py Num Analysis Spec Examples PyFacts ClassifyFacts OrderSpec.

(** X5. In the table of subjects, the sort leaves the subjects as they
    are and turns every subject's list into a rearrangement of itself in
    which no file comes after a file with a larger timestamp. *)
Theorem sort_subjects_chronological (subjects : gmap string (list entry))
    (name : string) (files : list entry) :
  subjects !! name = Some files ->
  dom (sort_subjects subjects) = dom subjects /\
  sort_subjects subjects !! name = Some (sort_by_timestamp files) /\
  sort_by_timestamp files ≡ₚ files /\
  StronglySorted not_after (sort_by_timestamp files).
Proof.
  intros H. unfold sort_subjects. split; [apply dom_fmap_L|].
  split; [rewrite lookup_fmap, H; reflexivity|].
  split; [apply sort_by_timestamp_perm | apply sort_by_timestamp_sorted].
Qed.

Lemma sort_subjects_chronological_witness :
  sort_subjects {[ "S1" := shuffled ]} !! "S1" = Some [on1; off1; on2; off2; on3; off3].
Proof.
  destruct (sort_subjects_chronological {[ "S1" := shuffled ]} "S1" shuffled)
    as (_ & H & _).
  - apply lookup_singleton_eq.
  - rewrite H. reflexivity.
Defined.

Lemma insert_entry_stamped ts x l :
  List.filter (stamped ts) (insert_entry x l) =
  if stamped ts x then x :: List.filter (stamped ts) l else List.filter (stamped ts) l.
Proof.
  induction l as [|y l IH]; cbn [insert_entry].
  - cbn [List.filter]. destruct (stamped ts x); reflexivity.
  - destruct (str_lt (timestamp y) (timestamp x)) eqn:E.
    + cbn [List.filter]. rewrite IH.
      destruct (stamped ts x) eqn:Ex, (stamped ts y) eqn:Ey; try reflexivity.
      unfold stamped in Ex, Ey. apply String.eqb_eq in Ex, Ey.
      rewrite Ex, Ey, str_lt_irrefl in E. discriminate.
    + cbn [List.filter]. destruct (stamped ts x); reflexivity.
Qed.

(** X6. The sort is stable: the files that share a timestamp keep, after
    the sort, the order they had in the list. *)
Theorem sort_by_timestamp_stable (ts : string) (l : list entry) :
  List.filter (stamped ts) (sort_by_timestamp l) = List.filter (stamped ts) l.
Proof.
  induction l as [|x l IH]; [reflexivity|].
  cbn [sort_by_timestamp List.filter]. rewrite insert_entry_stamped, IH. reflexivity.
Qed.

Lemma sorted_distinct_strict (l : list entry) :
  StronglySorted not_after l -> NoDup (map timestamp l) -> StronglySorted before l.
Proof.
  induction 1 as [|x l Hl IH Hx]; intros Hnd; [constructor|].
  cbn [map] in Hnd. apply NoDup_cons in Hnd as [Hnotin Hnd].
  constructor; [apply IH, Hnd|].
  rewrite Forall_forall in Hx |- *. intros y Hy.
  specialize (Hx y Hy). unfold not_after, str_le in Hx. unfold before.
  destruct (str_lt (timestamp x) (timestamp y)) eqn:E; [reflexivity|].
  exfalso. apply Hnotin. rewrite (str_lt_connex _ _ E Hx).
  apply list_elem_of_In, in_map, list_elem_of_In, Hy.
Qed.

(** X7. When no two files carry the same timestamp, neither the sorted
    list nor the phases read off it depend on the order in which the
    files were listed. *)
Theorem sort_by_timestamp_listing_order (l l' : list entry) :
  l ≡ₚ l' ->
  NoDup (map timestamp l) ->
  sort_by_timestamp l = sort_by_timestamp l' /\
  classify_phases (sort_by_timestamp l) = classify_phases (sort_by_timestamp l').
Proof.
  intros Hp Hnd.
  assert (E : sort_by_timestamp l' = sort_by_timestamp l).
  { apply chronological_unique.
    - apply sorted_distinct_strict; [apply sort_by_timestamp_sorted|].
      assert (Hm : map timestamp (sort_by_timestamp l) ≡ₚ map timestamp l)
        by apply Permutation_map, sort_by_timestamp_perm.
      rewrite Hm. exact Hnd.
    - apply sort_by_timestamp_sorted.
    - rewrite !sort_by_timestamp_perm. exact Hp. }
  rewrite E. split; reflexivity.
Qed.

Lemma sort_by_timestamp_listing_order_witness :
  sort_by_timestamp shuffled = sort_by_timestamp [off1; off2; off3; on1; on2; on3].
Proof.
  apply (sort_by_timestamp_listing_order shuffled [off1; off2; off3; on1; on2; on3]).
  - change shuffled with ([on3] ++ [off2] ++ [on1] ++ [off3] ++ [off1] ++ [on2]).
    change [off1; off2; off3; on1; on2; on3]
      with ([off1] ++ [off2] ++ [off3] ++ [on1] ++ [on2] ++ [on3]).
    solve_Permutation.
  - vm_compute. repeat (constructor; [rewrite ?elem_of_cons, elem_of_nil; intuition discriminate|]).
    constructor.
Defined.

(** With equal timestamps the listing order shows through. *)
Lemma sort_by_timestamp_twins :
  sort_by_timestamp [twin_a; twin_b] = [twin_a; twin_b] /\
  sort_by_timestamp [twin_b; twin_a] = [twin_b; twin_a].
Proof. split; reflexivity. Qed.

End OrderExtras.

Module StampExtras.
Import Py Num Analysis Spec Examples PyFacts ClassifyFacts OrderSpec.

Lemma digits_value_acc ds acc :
  fold_left (fun a d => 10 * a + d) ds acc =
  acc * 10 ^ Z.of_nat (length ds) + fold_left (fun a d => 10 * a + d) ds 0.
Proof.
  revert acc. induction ds as [|d ds IH]; intros acc.
  - cbn [fold_left length]. change (10 ^ Z.of_nat 0) with 1. lia.
  - cbn [fold_left length]. rewrite IH, (IH (10 * 0 + d)).
    rewrite Nat2Z.inj_succ, Z.pow_succ_r by lia. lia.
Qed.

Lemma number_cons c s :
  number (String c s) = digit_val c * 10 ^ Z.of_nat (String.length s) + number s.
Proof.
  unfold number, digits_value. cbn [digits_of fold_left].
  rewrite digits_value_acc. f_equal.
  replace (length (digits_of s)) with (String.length s); [lia|].
  induction s as [|a s IH]; [reflexivity|]. cbn [digits_of String.length length]. congruence.
Qed.

Lemma digit_val_range c : is_digit c = true -> 0 <= digit_val c <= 9.
Proof.
  unfold is_digit, in_range, digit_val. intros H.
  apply andb_prop in H as [H1 H2]. apply N.leb_le in H1, H2. lia.
Qed.

Lemma number_range s :
  all_digits s = true -> 0 <= number s < 10 ^ Z.of_nat (String.length s).
Proof.
  induction s as [|c s IH]; intros H.
  - cbn. lia.
  - cbn [all_digits] in H. apply andb_prop in H as [Hc Hs].
    rewrite number_cons. cbn [String.length].
    rewrite Nat2Z.inj_succ, Z.pow_succ_r by lia.
    pose proof (digit_val_range c Hc). specialize (IH Hs). nia.
Qed.

Lemma compare_digit c d :
  Ascii_as_OT.compare c d = (digit_val c ?= digit_val d).
Proof.
  unfold Ascii_as_OT.compare, digit_val, code.
  change (N_as_OT.compare (N_of_ascii c) (N_of_ascii d))
    with (N.compare (N_of_ascii c) (N_of_ascii d)).
  rewrite <- N2Z.inj_compare.
  generalize (Z.of_N (N_of_ascii c)) (Z.of_N (N_of_ascii d)). intros x y.
  destruct (x ?= y) eqn:E; symmetry.
  - rewrite Z.compare_eq_iff in *. lia.
  - rewrite Z.compare_lt_iff in *. lia.
  - rewrite Z.compare_gt_iff in *. lia.
Qed.

(** Strings of digits of one length compare as the numbers they write. *)
Lemma compare_digits a b :
  all_digits a = true -> all_digits b = true -> String.length a = String.length b ->
  String_as_OT.compare a b = (number a ?= number b).
Proof.
  revert b. induction a as [|c a IH]; intros [|d b] Ha Hb Hlen; try discriminate.
  - reflexivity.
  - cbn [all_digits] in Ha, Hb.
    apply andb_prop in Ha as [Hc Ha]. apply andb_prop in Hb as [Hd Hb].
    cbn [String.length] in Hlen. injection Hlen as Hlen.
    cbn [String_as_OT.compare]. rewrite compare_digit, (IH b Ha Hb Hlen), !number_cons, Hlen.
    pose proof (number_range a Ha) as Ra. pose proof (number_range b Hb) as Rb.
    rewrite Hlen in Ra.
    set (p := 10 ^ Z.of_nat (String.length b)) in *.
    destruct (Z.compare_spec (digit_val c) (digit_val d)) as [E|E|E]; symmetry.
    + rewrite E. apply Z.add_compare_mono_l.
    + apply Z.compare_lt_iff. nia.
    + apply Z.compare_gt_iff. nia.
Qed.

Lemma compare_refl s : String_as_OT.compare s s = Eq.
Proof.
  destruct (String_as_OT.compare_spec s s) as [_|H|H]; [reflexivity| |];
    destruct (StrictOrder_Irreflexive s H).
Qed.

Lemma compare_app a1 b1 x y :
  String.length a1 = String.length b1 ->
  String_as_OT.compare (a1 ++ x) (b1 ++ y) =
  match String_as_OT.compare a1 b1 with
  | Eq => String_as_OT.compare x y
  | o => o
  end.
Proof.
  revert b1. induction a1 as [|c a1 IH]; intros [|d b1] Hlen; try discriminate.
  - reflexivity.
  - cbn [String.length] in Hlen. injection Hlen as Hlen.
    change (String c a1 ++ x)%string with (String c (a1 ++ x)).
    change (String d b1 ++ y)%string with (String d (b1 ++ y)).
    cbn [String_as_OT.compare]. rewrite (IH b1 Hlen).
    destruct (Ascii_as_OT.compare c d); reflexivity.
Qed.

Lemma stamp_split ts :
  is_stamp ts = true ->
  ts = (substring 0 8 ts ++ String "_" (substring 9 6 ts))%string /\
  String.length (substring 0 8 ts) = 8%nat /\
  String.length (substring 9 6 ts) = 6%nat /\
  all_digits (substring 0 8 ts) = true /\
  all_digits (substring 9 6 ts) = true.
Proof.
  unfold is_stamp. intros H.
  apply andb_prop in H as [H H4]. apply andb_prop in H as [H H3].
  apply andb_prop in H as [H1 H2]. apply Nat.eqb_eq in H1.
  do 15 (destruct ts as [|? ts]; [discriminate|]).
  destruct ts; [|discriminate].
  cbn in H3.
  match type of H3 with
  | context [Ascii.eqb ?c _] => destruct (Ascii.eqb_spec c "_") as [->|]; [|discriminate]
  end.
  repeat split; assumption.
Qed.

(** X8. Two timestamps of the shape the file names give them (eight
    digits, an underscore, six digits) compare as strings the way their
    dates and times compare as numbers: the sort key orders the files
    chronologically. *)
Theorem timestamp_order_chronological (a b : string) :
  is_stamp a = true -> is_stamp b = true ->
  (str_lt a b = true <-> earlier a b).
Proof.
  intros Ha Hb.
  destruct (stamp_split a Ha) as (Ea & La8 & La6 & Da & Ta).
  destruct (stamp_split b Hb) as (Eb & Lb8 & Lb6 & Db & Tb).
  unfold earlier, stamp_date, stamp_time, str_lt.
  rewrite Ea, Eb at 1.
  rewrite compare_app by congruence.
  rewrite (compare_digits _ _ Da Db) by congruence.
  cbn [String_as_OT.compare].
  replace (Ascii_as_OT.compare "_" "_") with Eq by reflexivity.
  rewrite (compare_digits _ _ Ta Tb) by congruence.
  destruct (Z.compare_spec (number (substring 0 8 a)) (number (substring 0 8 b)))
    as [E|E|E].
  - destruct (Z.compare_spec (number (substring 9 6 a)) (number (substring 9 6 b)));
      split; try discriminate; try lia; intros _; right; split; assumption.
  - split; [intros _; left; exact E | reflexivity].
  - split; [discriminate|lia].
Qed.

Lemma timestamp_order_chronological_witness :
  str_lt "20231231_235959" "20240101_000000" = true.
Proof.
  apply (timestamp_order_chronological "20231231_235959" "20240101_000000").
  - reflexivity.
  - reflexivity.
  - left. vm_compute. reflexivity.
Defined.

Lemma classify_phases_other (files : list entry) key :
  key ∉ on_keys -> key ∉ off_keys -> classify_phases files !! key = None.
Proof.
  intros Hon Hoff. unfold classify_phases.
  rewrite !assign_nth_lookup_ne; [apply lookup_empty|..];
    intros <-; (apply Hon + apply Hoff); unfold on_keys, off_keys;
    rewrite !elem_of_cons; tauto.
Qed.

Lemma filter_lookup_status s (files : list entry) i f :
  List.filter (has_status s) files !! i = Some f -> ems_status f = s.
Proof.
  intros H. apply list_elem_of_lookup_2, list_elem_of_In, List.filter_In in H as [_ H].
  apply String.eqb_eq. exact H.
Qed.

(** X9. Whatever the list, a phase that the classifier assigns is one of
    the six known keys and holds the file at the key's position among the
    first three files of the key's status; files of another status, and
    files after the third of a status, are never assigned. *)
Theorem classify_phases_sound (files : list entry) (key : string) (f : entry) :
  classify_phases files !! key = Some f ->
  exists i, (i < 3)%nat /\
    ((on_keys !! i = Some key /\ on_files files !! i = Some f /\ ems_status f = "EMS_ON") \/
     (off_keys !! i = Some key /\ off_files files !! i = Some f /\ ems_status f = "EMS_OFF")).
Proof.
  intros H.
  destruct (decide (key ∈ on_keys)) as [Hon|Hon].
  - apply list_elem_of_lookup in Hon as [i Hi]. exists i.
    split; [apply lookup_lt_Some in Hi; exact Hi|]. left.
    rewrite (classify_phases_on _ _ _ Hi) in H.
    split; [exact Hi|]. split; [exact H|].
    eapply filter_lookup_status. exact H.
  - destruct (decide (key ∈ off_keys)) as [Hoff|Hoff].
    + apply list_elem_of_lookup in Hoff as [i Hi]. exists i.
      split; [apply lookup_lt_Some in Hi; exact Hi|]. right.
      rewrite (classify_phases_off _ _ _ Hi) in H.
      split; [exact Hi|]. split; [exact H|].
      eapply filter_lookup_status. exact H.
    + rewrite (classify_phases_other _ _ Hon Hoff) in H. discriminate.
Qed.

Lemma classify_phases_sound_witness :
  exists i, (i < 3)%nat /\
    ((on_keys !! i = Some "measure_phase2" /\ on_files surplus !! i = Some off3 /\
      ems_status off3 = "EMS_ON") \/
     (off_keys !! i = Some "measure_phase2" /\ off_files surplus !! i = Some off3 /\
      ems_status off3 = "EMS_OFF")).
Proof.
  apply (classify_phases_sound surplus "measure_phase2" off3).
  vm_compute. reflexivity.
Defined.

End StampExtras.

(** ** What the analyzers can raise *)

Module ErrorExtras.
Import Py Num Analysis Spec Examples PyFacts ClassifyFacts.

Lemma reaction_times_raises (phases : gmap string entry) key e :
  reaction_times phases key = Raise e ->
  (phases !! key = None /\ e = KeyError key) \/
  (exists f, phases !! key = Some f /\ data f = [] /\ e = KeyError "ReactionTime_ms").
Proof.
  unfold reaction_times, getitem.
  destruct (phases !! key) as [f|]; rewrite ?bind_Ok, ?bind_Raise.
  - unfold column_ReactionTime_ms. destruct (data f) eqn:E; [|discriminate].
    intros [= <-]. right. exists f. repeat split. exact E.
  - intros [= <-]. left. split; reflexivity.
Qed.

(** X10. An exception of the subject analyzer is a [KeyError] for a
    measurement phase that the assignment lacks, a
    [KeyError('ReactionTime_ms')] for a measurement file without any
    trial, or the exception of a rank-sum test run one-sided on two
    cleaned series. *)
Theorem analyze_subject_raises (mannwhitneyu : rank_sum_test) (name : string)
    (phases : gmap string entry) (e : exn) :
  analyze_subject mannwhitneyu name phases = Raise e ->
  (exists key, key ∈ off_keys /\ phases !! key = None /\ e = KeyError key) \/
  (exists key f, key ∈ off_keys /\ phases !! key = Some f /\ data f = [] /\
                 e = KeyError "ReactionTime_ms") \/
  (exists x y, Forall (fun v => mask_physio v = true) x /\
               Forall (fun v => mask_physio v = true) y /\
               mannwhitneyu x y greater = Raise e).
Proof.
  assert (Hkeys : forall key, key ∈ ["baseline"; "measure_phase1"; "measure_phase2"] ->
                              key ∈ off_keys) by (intros key H; exact H).
  assert (Hraise : forall key, key ∈ off_keys ->
            reaction_times phases key = Raise e ->
            (exists key, key ∈ off_keys /\ phases !! key = None /\ e = KeyError key) \/
            (exists key f, key ∈ off_keys /\ phases !! key = Some f /\ data f = [] /\
                           e = KeyError "ReactionTime_ms") \/
            (exists x y, Forall (fun v => mask_physio v = true) x /\
                         Forall (fun v => mask_physio v = true) y /\
                         mannwhitneyu x y greater = Raise e)).
  { intros key Hk H. apply reaction_times_raises in H as [[H ->]|(f & H & Hd & ->)].
    - left. exists key. auto.
    - right. left. exists key, f. auto. }
  unfold analyze_subject.
  destruct (reaction_times phases "baseline") as [bl|e1] eqn:E1;
    [rewrite bind_Ok | rewrite bind_Raise; intros [= <-];
                       apply (Hraise "baseline"); [apply Hkeys; set_solver | exact E1]].
  destruct (reaction_times phases "measure_phase1") as [p1|e2] eqn:E2;
    [rewrite bind_Ok | rewrite bind_Raise; intros [= <-];
                       apply (Hraise "measure_phase1"); [apply Hkeys; set_solver | exact E2]].
  destruct (reaction_times phases "measure_phase2") as [p2|e3] eqn:E3;
    [rewrite bind_Ok | rewrite bind_Raise; intros [= <-];
                       apply (Hraise "measure_phase2"); [apply Hkeys; set_solver | exact E3]].
  cbv zeta. clear Hraise Hkeys.
  assert (Hp : forall s, Forall (fun v => mask_physio v = true) (remove_outliers s name)).
  { intros s. unfold remove_outliers. apply Forall_forall. intros v Hv.
    apply list_elem_of_In, List.filter_In in Hv as [Hv _].
    apply List.filter_In in Hv as [_ Hv]. exact Hv. }
  destruct (mannwhitneyu (remove_outliers bl name) (remove_outliers p1 name) greater)
    as [[u1 pv1]|e1] eqn:M1;
    [rewrite bind_Ok | rewrite bind_Raise; intros [= <-]; right; right; eauto].
  destruct (mannwhitneyu (remove_outliers bl name) (remove_outliers p2 name) greater)
    as [[u2 pv2]|e2] eqn:M2;
    [rewrite bind_Ok | rewrite bind_Raise; intros [= <-]; right; right; eauto].
  destruct (mannwhitneyu (remove_outliers p1 name) (remove_outliers p2 name) greater)
    as [[u3 pv3]|e3] eqn:M3;
    [rewrite bind_Ok; discriminate | rewrite bind_Raise; intros [= <-]; right; right; eauto].
Qed.

Lemma analyze_subject_raises_witness :
  (exists key, key ∈ off_keys /\
               classify_phases (sort_by_timestamp cut_short) !! key = None /\
               KeyError "measure_phase2" = KeyError key) \/
  (exists key f, key ∈ off_keys /\
                 classify_phases (sort_by_timestamp cut_short) !! key = Some f /\
                 data f = [] /\ KeyError "measure_phase2" = KeyError "ReactionTime_ms") \/
  (exists x y, Forall (fun v => mask_physio v = true) x /\
               Forall (fun v => mask_physio v = true) y /\
               singleton_rank_sum x y greater = Raise (KeyError "measure_phase2")).
Proof.
  apply (analyze_subject_raises singleton_rank_sum "S1"
           (classify_phases (sort_by_timestamp cut_short)) (KeyError "measure_phase2")).
  vm_compute. reflexivity.
Defined.

(** X11. An exception of the group analyzer is [KeyError('bl_mean')] on
    an empty list of results, or the exception of a test: of the paired
    test, which is run on the subjects' means only when there are two
    results or more, of the omnibus test on the three pools, or of a
    rank-sum test on two of the pools. *)
Theorem group_analysis_raises (ttest_rel : paired_test) (kruskal : omnibus_test)
    (mannwhitneyu : rank_sum_test) (results_list : list subject_result) (e : exn) :
  group_analysis ttest_rel kruskal mannwhitneyu results_list = Raise e ->
  let all_bl := concatenate (map bl_data results_list) in
  let all_p1 := concatenate (map p1_data results_list) in
  let all_p2 := concatenate (map p2_data results_list) in
  (results_list = [] /\ e = KeyError "bl_mean") \/
  ((2 <= length results_list)%nat /\
   exists post, post ∈ [map p1_mean results_list; map p2_mean results_list] /\
                ttest_rel (map bl_mean results_list) post = Raise e) \/
  kruskal all_bl all_p1 all_p2 = Raise e \/
  (exists g1 g2 alt, g1 ∈ [all_bl; all_p1] /\ g2 ∈ [all_p1; all_p2] /\
                     mannwhitneyu g1 g2 alt = Raise e).
Proof.
  intros H all_bl all_p1 all_p2. unfold group_analysis in H.
  destruct results_list as [|r0 rest]; [injection H as <-; left; split; reflexivity|].
  rewrite bind_Ok in H. right.
  set (rl := r0 :: rest) in *.
  destruct (2 <=? length rl)%nat eqn:E2.
  - apply Nat.leb_le in E2.
    destruct (ttest_rel (map bl_mean rl) (map p1_mean rl)) as [x|e1] eqn:T1;
      [rewrite bind_Ok in H
      | rewrite !bind_Raise in H; injection H as <-; left; split; [exact E2|];
        eexists; split; [|exact T1]; set_solver].
    destruct (ttest_rel (map bl_mean rl) (map p2_mean rl)) as [y|e1] eqn:T2;
      [rewrite !bind_Ok in H
      | rewrite !bind_Raise in H; injection H as <-; left; split; [exact E2|];
        eexists; split; [|exact T2]; set_solver].
    right. revert H. cbv zeta. fold all_bl all_p1 all_p2.
    destruct (kruskal all_bl all_p1 all_p2) as [[h hp]|e1];
      [rewrite bind_Ok | rewrite bind_Raise; intros [= <-]; left; reflexivity].
    intros H. right. destruct (flt hp (Fin (5 # 100))).
    + cbn [posthoc_rows] in H.
      repeat match type of H with
             | context [mannwhitneyu ?a ?b ?alt] =>
                 destruct (mannwhitneyu a b alt) as [[? ?]|?] eqn:?;
                 [rewrite !bind_Ok in H
                 | rewrite !bind_Raise in H; injection H as <-;
                   eexists _, _, _; split; [|split; [|eassumption]]; set_solver]
             end.
      discriminate.
    + repeat match type of H with
             | context [mannwhitneyu ?a ?b ?alt] =>
                 destruct (mannwhitneyu a b alt) as [[? ?]|?] eqn:?;
                 [rewrite !bind_Ok in H
                 | rewrite !bind_Raise in H; injection H as <-;
                   eexists _, _, _; split; [|split; [|eassumption]]; set_solver]
             end.
      discriminate.
  - rewrite bind_Ok in H.
    right. revert H. cbv zeta. fold all_bl all_p1 all_p2.
    destruct (kruskal all_bl all_p1 all_p2) as [[h hp]|e1];
      [rewrite bind_Ok | rewrite bind_Raise; intros [= <-]; left; reflexivity].
    intros H. right. destruct (flt hp (Fin (5 # 100))).
    + cbn [posthoc_rows] in H.
      repeat match type of H with
             | context [mannwhitneyu ?a ?b ?alt] =>
                 destruct (mannwhitneyu a b alt) as [[? ?]|?] eqn:?;
                 [rewrite !bind_Ok in H
                 | rewrite !bind_Raise in H; injection H as <-;
                   eexists _, _, _; split; [|split; [|eassumption]]; set_solver]
             end.
      discriminate.
    + repeat match type of H with
             | context [mannwhitneyu ?a ?b ?alt] =>
                 destruct (mannwhitneyu a b alt) as [[? ?]|?] eqn:?;
                 [rewrite !bind_Ok in H
                 | rewrite !bind_Raise in H; injection H as <-;
                   eexists _, _, _; split; [|split; [|eassumption]]; set_solver]
             end.
      discriminate.
Qed.

Lemma group_analysis_raises_witness :
  ([] = ([] : list subject_result) /\ KeyError "bl_mean" = KeyError "bl_mean") \/
  ((2 <= 0)%nat /\
   exists post, post ∈ [[]; []] /\ fixed_ttest [] post = Raise (KeyError "bl_mean")) \/
  significant_kruskal [] [] [] = Raise (KeyError "bl_mean") \/
  (exists g1 g2 alt, g1 ∈ [[]; []] /\ g2 ∈ [[]; []] /\
                     fixed_rank_sum g1 g2 alt = Raise (KeyError "bl_mean")).
Proof.
  apply (group_analysis_raises fixed_ttest significant_kruskal fixed_rank_sum []
           (KeyError "bl_mean")).
  reflexivity.
Defined.

End ErrorExtras.

(** ** The scan of the data directory *)

Module LoaderExtras.
Import Py Num Analysis Spec Examples PyFacts ClassifyFacts OrderSpec StampExtras.
Import Loader LoaderSpec.

Lemma append_cons c (s t : string) : (String c s ++ t)%string = String c (s ++ t).
Proof. reflexivity. Qed.

Lemma append_assoc (a b c : string) : ((a ++ b) ++ c)%string = (a ++ (b ++ c))%string.
Proof.
  induction a as [|x a IH]; [reflexivity|].
  rewrite !append_cons, IH. reflexivity.
Qed.

Lemma split_at n s :
  (n <= String.length s)%nat ->
  s = (substring 0 n s ++ drop_str n s)%string /\ String.length (substring 0 n s) = n.
Proof.
  revert s. induction n as [|n IH]; intros s H.
  - destruct s; split; reflexivity.
  - destruct s as [|c s]; [cbn in H; lia|].
    cbn [String.length] in H. destruct (IH s) as [E L]; [lia|].
    cbn [substring drop_str String.length]. rewrite append_cons, <- E, L. split; reflexivity.
Qed.

Lemma word_run_length s : (word_run s <= String.length s)%nat.
Proof.
  induction s as [|c s IH]; cbn [word_run String.length]; [lia|].
  destruct (is_word c); lia.
Qed.

Lemma word_run_prefix n s :
  (n <= word_run s)%nat -> all_word (substring 0 n s) = true.
Proof.
  revert s. induction n as [|n IH]; intros s H.
  - destruct s; reflexivity.
  - destruct s as [|c s]; [cbn in H; lia|].
    cbn [word_run] in H. destruct (is_word c) eqn:E; [|lia].
    cbn [substring all_word]. rewrite E, IH by lia. reflexivity.
Qed.

Lemma literal_Some p s r : literal p s = Some r -> s = (p ++ r)%string.
Proof.
  unfold literal. revert s. induction p as [|a p IH]; intros s H.
  - destruct s; injection H as <-; reflexivity.
  - destruct s as [|b s]; [discriminate|].
    cbn [String.prefix String.length drop_str] in H.
    destruct (ascii_dec a b) as [->|]; [|discriminate].
    rewrite append_cons. f_equal. apply IH. exact H.
Qed.

Lemma digits_Some n s d r :
  digits n s = Some (d, r) ->
  s = (d ++ r)%string /\ String.length d = n /\ all_digits d = true.
Proof.
  unfold digits. intros H.
  destruct (String.length (substring 0 n s) =? n)%nat eqn:E; [|discriminate].
  destruct (all_digits (substring 0 n s)) eqn:D; [|discriminate].
  cbn [andb] in H. injection H as <- <-. apply Nat.eqb_eq in E.
  split; [|split; assumption].
  assert (n <= String.length s)%nat.
  { clear D. revert s E. induction n as [|n IH]; intros s E; [lia|].
    destruct s as [|c s]; [discriminate|].
    cbn [substring String.length] in *. specialize (IH s). lia. }
  apply split_at. assumption.
Qed.

Lemma longest_first_Some {R} n s (k : string -> string -> option R) r :
  longest_first n s k = Some r ->
  exists m, (1 <= m <= n)%nat /\ k (substring 0 m s) (drop_str m s) = Some r.
Proof.
  induction n as [|n IH]; [discriminate|].
  cbn [longest_first].
  destruct (k (substring 0 (S n) s) (drop_str (S n) s)) as [r'|] eqn:E.
  - intros [= <-]. exists (S n). split; [lia|exact E].
  - intros H. destruct (IH H) as (m & Hm & Hk). exists m. split; [lia|exact Hk].
Qed.

Lemma word_plus_Some {R} s (k : string -> string -> option R) r :
  word_plus s k = Some r ->
  exists w rest, s = (w ++ rest)%string /\ w <> EmptyString /\ all_word w = true /\
                 k w rest = Some r.
Proof.
  intros H. apply longest_first_Some in H as (m & [H1 Hm] & Hk).
  pose proof (word_run_length s).
  destruct (split_at m s) as [E L]; [lia|].
  exists (substring 0 m s), (drop_str m s).
  split; [exact E|]. split; [|split; [apply word_run_prefix; exact Hm | exact Hk]].
  intros E0. rewrite E0 in L. cbn in L. lia.
Qed.

Lemma length_append (a b : string) :
  String.length (a ++ b) = (String.length a + String.length b)%nat.
Proof.
  induction a as [|c a IH]; [reflexivity|].
  rewrite append_cons. cbn [String.length]. rewrite IH. reflexivity.
Qed.

Lemma stamp_of_parts d t :
  String.length d = 8%nat -> all_digits d = true ->
  String.length t = 6%nat -> all_digits t = true ->
  is_stamp (d ++ "_" ++ t) = true.
Proof.
  intros Ld Dd Lt Dt.
  do 8 (destruct d as [|? d]; [discriminate|]). destruct d; [|discriminate].
  do 6 (destruct t as [|? t]; [discriminate|]). destruct t; [|discriminate].
  unfold is_stamp. cbv beta iota delta [String.append].
  cbn [String.length Nat.eqb substring andb].
  rewrite Dd, Dt. reflexivity.
Qed.

(** X12. A file name that the pattern accepts spells its three groups: it
    is [Data_], the name, an underscore, the status, an underscore, the
    timestamp and [.csv], possibly followed by more; the name is a
    non-empty run of word characters, the status is [EMS_] followed by
    such a run, and the timestamp is eight digits, an underscore and six
    digits. *)
Theorem match_filename_sound (f name status stamp : string) :
  match_filename f = Some (name, status, stamp) ->
  exists w tail,
    f = ("Data_" ++ name ++ "_" ++ status ++ "_" ++ stamp ++ ".csv" ++ tail)%string /\
    status = ("EMS_" ++ w)%string /\
    name <> EmptyString /\ all_word name = true /\
    w <> EmptyString /\ all_word w = true /\
    is_stamp stamp = true.
Proof.
  unfold match_filename. intros H.
  destruct (literal "Data_" f) as [r0|] eqn:E0; [|discriminate].
  apply literal_Some in E0. cbn [mbind option_bind] in H.
  apply word_plus_Some in H as (n & r1 & E1 & Hn & Wn & H).
  destruct (literal "_" r1) as [r2|] eqn:E2; [|discriminate].
  apply literal_Some in E2. cbn [mbind option_bind] in H.
  destruct (literal "EMS_" r2) as [r3|] eqn:E3; [|discriminate].
  apply literal_Some in E3. cbn [mbind option_bind] in H.
  apply word_plus_Some in H as (w & r4 & E4 & Hw & Ww & H).
  destruct (literal "_" r4) as [r5|] eqn:E5; [|discriminate].
  apply literal_Some in E5. cbn [mbind option_bind] in H.
  destruct (digits 8 r5) as [[d r6]|] eqn:E6; [|discriminate].
  apply digits_Some in E6 as (E6 & Ld & Dd). cbn [mbind option_bind] in H.
  destruct (literal "_" r6) as [r7|] eqn:E7; [|discriminate].
  apply literal_Some in E7. cbn [mbind option_bind] in H.
  destruct (digits 6 r7) as [[t r8]|] eqn:E8; [|discriminate].
  apply digits_Some in E8 as (E8 & Lt & Dt). cbn [mbind option_bind] in H.
  destruct (literal ".csv" r8) as [r9|] eqn:E9; [|discriminate].
  apply literal_Some in E9. cbn [mbind option_bind] in H.
  injection H as <- <- <-.
  exists w, r9. repeat split; try assumption.
  - subst f r0 r1 r2 r3 r4 r5 r6 r7 r8.
    rewrite !append_assoc. reflexivity.
  - apply stamp_of_parts; assumption.
Qed.

Lemma match_filename_sound_witness :
  exists w tail,
    "Data_A_EMS_X_EMS_ON_20240105_100000.csv.bak" =
      ("Data_" ++ "A_EMS_X" ++ "_" ++ "EMS_ON" ++ "_" ++ "20240105_100000" ++ ".csv" ++ tail)%string /\
    "EMS_ON" = ("EMS_" ++ w)%string /\
    "A_EMS_X" <> EmptyString /\ all_word "A_EMS_X" = true /\
    w <> EmptyString /\ all_word w = true /\
    is_stamp "20240105_100000" = true.
Proof.
  apply (match_filename_sound "Data_A_EMS_X_EMS_ON_20240105_100000.csv.bak").
  vm_compute. reflexivity.
Defined.

End LoaderExtras.

Module DirectoryExtras.
Import Py Num Analysis Spec Examples PyFacts ClassifyFacts ClassifyClaims OrderSpec.
Import Loader LoaderSpec LoaderExtras.

#[local] Instance str_le_trans_inst : Transitive str_le.
Proof. intros a b c. apply str_le_trans. Qed.

#[local] Instance str_le_antisym_inst : AntiSymm (=) str_le.
Proof. intros a b Hab Hba. unfold str_le in *. apply str_lt_connex; assumption. Qed.

Lemma fmap_Ok_r {A B} (f : A -> B) (a : A) : f <$> Ok a = Ok (f a).
Proof. reflexivity. Qed.

Lemma fmap_Raise_r {A B} (f : A -> B) e : f <$> (@Raise A e) = Raise e.
Proof. reflexivity. Qed.

Lemma insert_str_perm x l : insert_str x l ≡ₚ x :: l.
Proof.
  induction l as [|y l IH]; cbn [insert_str]; [reflexivity|].
  destruct (str_lt y x); [|reflexivity]. rewrite IH. apply perm_swap.
Qed.

Lemma sorted_perm l : sorted l ≡ₚ l.
Proof.
  induction l as [|x l IH]; [reflexivity|].
  cbn [sorted fold_right]. fold (sorted l). rewrite insert_str_perm, IH. reflexivity.
Qed.

Lemma insert_str_sorted x l :
  StronglySorted str_le l -> StronglySorted str_le (insert_str x l).
Proof.
  induction 1 as [|y l Hl IH Hy]; cbn [insert_str].
  - repeat constructor.
  - destruct (str_lt y x) eqn:E.
    + constructor; [exact IH|]. rewrite insert_str_perm.
      constructor; [apply str_lt_asym; exact E | exact Hy].
    + constructor; [constructor; assumption|].
      constructor; [exact E|].
      eapply Forall_impl; [exact Hy|]. intros z Hz. eapply str_le_trans; [exact E|exact Hz].
Qed.

Lemma sorted_sorted l : StronglySorted str_le (sorted l).
Proof.
  induction l as [|x l IH]; [constructor|].
  cbn [sorted fold_right]. apply insert_str_sorted, IH.
Qed.

Lemma sorted_of_perm l l' : l ≡ₚ l' -> sorted l = sorted l'.
Proof.
  intros H. apply (StronglySorted_unique str_le); try apply sorted_sorted.
  rewrite !sorted_perm. exact H.
Qed.

Lemma sorted_filter (p : string -> bool) l :
  List.filter p (sorted l) = sorted (List.filter p l).
Proof.
  apply (StronglySorted_unique str_le).
  - apply filter_StronglySorted, sorted_sorted.
  - apply sorted_sorted.
  - etransitivity; [apply filter_perm, sorted_perm|]. symmetry. apply sorted_perm.
Qed.

Lemma append_to_perm (s : subject_table) name e :
  concat (map snd (append_to s name e)) ≡ₚ e :: concat (map snd s).
Proof.
  induction s as [|[n l] s IH]; cbn [append_to]; [reflexivity|].
  destruct (String.eqb n name); cbn [map snd concat].
  - rewrite <- app_assoc. cbn [app]. symmetry. apply Permutation_middle.
  - rewrite IH. symmetry. apply Permutation_middle.
Qed.

Lemma append_to_names (s : subject_table) name e :
  map fst (append_to s name e) = if decide (name ∈ map fst s) then map fst s
                                 else map fst s ++ [name].
Proof.
  induction s as [|[n l] s IH]; cbn [append_to map fst].
  - rewrite decide_False by (apply not_elem_of_nil). reflexivity.
  - destruct (String.eqb_spec n name) as [->|Hne]; cbn [map fst].
    + rewrite decide_True by (left). reflexivity.
    + rewrite IH. destruct (decide (name ∈ map fst s)) as [Hin|Hin].
      * rewrite decide_True by (right; exact Hin). reflexivity.
      * rewrite decide_False; [reflexivity|].
        rewrite elem_of_cons. intros [->|?]; [apply Hne; reflexivity | contradiction].
Qed.

Lemma append_to_elem (s : subject_table) name e n l :
  (n, l) ∈ append_to s name e ->
  (n, l) ∈ s \/ (n = name /\ exists l0, l = l0 ++ [e] /\ (l0 = [] \/ (n, l0) ∈ s)).
Proof.
  induction s as [|[n0 l0] s IH]; cbn [append_to].
  - intros H. apply list_elem_of_singleton in H. injection H as -> ->.
    right. split; [reflexivity|]. exists []. split; [reflexivity|left; reflexivity].
  - destruct (String.eqb_spec n0 name) as [->|Hne].
    + rewrite elem_of_cons. intros [[= -> ->]|H].
      * right. split; [reflexivity|]. exists l0. split; [reflexivity|]. right. left.
      * left. right. exact H.
    + rewrite elem_of_cons. intros [[= -> ->]|H]; [left; left|].
      destruct (IH H) as [H'|(-> & l1 & -> & [->|H'])].
      * left. right. exact H'.
      * right. split; [reflexivity|]. exists []. split; [reflexivity|left; reflexivity].
      * right. split; [reflexivity|]. exists l1. split; [reflexivity|]. right. right. exact H'.
Qed.

Section Directory.

Variable DATA_DIR : string.
Variable join : string -> string -> string.
Variable fs : filesystem.

Local Abbreviation scan := (Loader.scan DATA_DIR join fs).
Local Abbreviation load_all_data := (Loader.load_all_data DATA_DIR join).
Local Abbreviation well_formed := (LoaderSpec.well_formed fs (join DATA_DIR)).
Local Abbreviation parses := (fun f => relevant f = true -> returns (parse_csv fs (join DATA_DIR f))).

Lemma scan_cons f files s :
  scan (f :: files) s =
  if relevant f then
    match match_filename f with
    | Some (name, status, stamp) =>
        parse_csv fs (join DATA_DIR f) ≫= (fun '(settings, df) =>
          scan files (append_to s name
                        {| filename := f; ems_status := status; timestamp := stamp;
                           file_settings := settings; data := df |}))
    | None => scan files s
    end
  else scan files s.
Proof.
  unfold relevant. cbn [Loader.scan].
  destruct (endswith f ".csv"); cbn [negb andb]; [|reflexivity].
  destruct (match_filename f) as [[[? ?] ?]|]; reflexivity.
Qed.

Lemma scan_relevant files s : scan files s = scan (List.filter relevant files) s.
Proof.
  revert s. induction files as [|f files IH]; intros s; [reflexivity|].
  cbn [List.filter]. rewrite scan_cons. destruct (relevant f) eqn:E; [|apply IH].
  rewrite scan_cons, E.
  destruct (match_filename f) as [[[name status] stamp]|]; [|apply IH].
  destruct (parse_csv fs (join DATA_DIR f)) as [[settings df]|e]; [|reflexivity].
  rewrite !bind_Ok. apply IH.
Qed.

Lemma append_to_well_formed (s : subject_table) name e :
  well_formed s -> entry_of_file fs (join DATA_DIR) name e ->
  well_formed (append_to s name e).
Proof.
  intros [Hnd Hel] He. split.
  - rewrite append_to_names. destruct (decide (name ∈ map fst s)); [exact Hnd|].
    apply NoDup_app. split; [exact Hnd|]. split; [|apply NoDup_singleton].
    intros x Hx Hx'. apply list_elem_of_singleton in Hx'. subst x. contradiction.
  - intros n l H. apply append_to_elem in H as [H|(-> & l0 & -> & [->|H])].
    + apply Hel, H.
    + split; [discriminate|]. constructor; [exact He|constructor].
    + destruct (Hel _ _ H) as [_ Hl0].
      split; [destruct l0; discriminate|].
      apply Forall_app. split; [exact Hl0|]. constructor; [exact He|constructor].
Qed.

Lemma scan_well_formed files s t :
  scan files s = Ok t -> well_formed s -> well_formed t.
Proof.
  revert s. induction files as [|f files IH]; intros s.
  { intros [= <-]. tauto. }
  rewrite scan_cons. unfold relevant.
  destruct (endswith f ".csv") eqn:E1; cbn [andb]; [|apply IH].
  destruct (match_filename f) as [[[name status] stamp]|] eqn:E2; [|apply IH].
  destruct (parse_csv fs (join DATA_DIR f)) as [[settings df]|e] eqn:E3; [|discriminate].
  rewrite bind_Ok. intros H Hs. apply (IH _ H).
  apply append_to_well_formed; [exact Hs|].
  split; [exact E2|]. split; [exact E1|exact E3].
Qed.

Lemma scan_names files s t :
  scan files s = Ok t ->
  loaded_names t ≡ₚ loaded_names s ++ List.filter relevant files.
Proof.
  revert s. induction files as [|f files IH]; intros s.
  { intros [= <-]. cbn [List.filter]. rewrite app_nil_r. reflexivity. }
  rewrite scan_cons. cbn [List.filter].
  destruct (relevant f) eqn:E; [|apply IH].
  destruct (match_filename f) as [[[name status] stamp]|] eqn:E2;
    [|unfold relevant in E; rewrite E2, andb_false_r in E; discriminate].
  destruct (parse_csv fs (join DATA_DIR f)) as [[settings df]|e] eqn:E3; [|discriminate].
  rewrite bind_Ok. intros H. rewrite (IH _ H). unfold loaded_names.
  rewrite (Permutation_map filename (append_to_perm _ _ _)). cbn [map filename app].
  apply Permutation_middle.
Qed.

Lemma scan_returns files s :
  returns (scan files s) <-> Forall parses files.
Proof.
  revert s. induction files as [|f files IH]; intros s.
  { split; [constructor | intros _; apply returns_Ok]. }
  rewrite scan_cons, Forall_cons.
  destruct (relevant f) eqn:E.
  - unfold relevant in E. apply andb_prop in E as [_ E].
    destruct (match_filename f) as [[[name status] stamp]|]; [|discriminate].
    destruct (parse_csv fs (join DATA_DIR f)) as [[settings df]|e].
    + rewrite bind_Ok, IH.
      split; [intros H; split; [intros _; apply returns_Ok | exact H] | tauto].
    + rewrite bind_Raise.
      split; [intros H; destruct (not_returns_Raise _ H)|].
      intros [H _]. destruct (not_returns_Raise _ (H eq_refl)).
  - rewrite IH. split; [intros H; split; [discriminate | exact H] | tauto].
Qed.

Lemma load_all_data_unfold listdir names :
  listdir DATA_DIR = Ok names ->
  load_all_data listdir fs =
  scan (sorted names) [] ≫= (fun subjects =>
    Ok (map (fun '(name, l) => (name, sort_by_timestamp l)) subjects)).
Proof. intros H. unfold Loader.load_all_data. rewrite H. reflexivity. Qed.

Lemma load_all_data_listed listdir table :
  load_all_data listdir fs = Ok table ->
  exists names subjects,
    listdir DATA_DIR = Ok names /\ scan (sorted names) [] = Ok subjects /\
    table = map (fun '(name, l) => (name, sort_by_timestamp l)) subjects.
Proof.
  unfold Loader.load_all_data.
  destruct (listdir DATA_DIR) as [names|e]; [|discriminate].
  rewrite fmap_Ok_r, bind_Ok.
  destruct (Loader.scan DATA_DIR join fs (sorted names) []) as [subjects|e] eqn:Hs;
    [|discriminate].
  rewrite bind_Ok. intros [= <-]. exists names, subjects.
  split; [reflexivity|]. split; [exact Hs|reflexivity].
Qed.

Lemma sorted_table_names (subjects : subject_table) :
  map fst (map (fun '(name, l) => (name, sort_by_timestamp l)) subjects) = map fst subjects.
Proof.
  induction subjects as [|[n l] s IH]; [reflexivity|]. cbn [map fst]. rewrite IH. reflexivity.
Qed.

Lemma sorted_table_files (subjects : subject_table) :
  concat (map snd (map (fun '(name, l) => (name, sort_by_timestamp l)) subjects)) ≡ₚ
  concat (map snd subjects).
Proof.
  induction subjects as [|[n l] s IH]; [reflexivity|]. cbn [map snd concat].
  rewrite IH, sort_by_timestamp_perm. reflexivity.
Qed.

Lemma sorted_table_elem (subjects : subject_table) name files :
  (name, files) ∈ map (fun '(name, l) => (name, sort_by_timestamp l)) subjects ->
  exists l, (name, l) ∈ subjects /\ files = sort_by_timestamp l.
Proof.
  intros H. apply list_elem_of_In, in_map_iff in H as ([n l] & [= -> <-] & H).
  exists l. split; [apply list_elem_of_In; exact H | reflexivity].
Qed.

(** X14. In the table that [load_all_data] returns the subject names are
    distinct, no subject is without a file and the files of a subject
    come in non-decreasing timestamp order; every entry stands under the
    name that the pattern reads in its file name, carries the status and
    the timestamp read there, and holds the settings and trials that
    [parse_csv] returns for its file. *)
Theorem load_all_data_entries (listdir : string -> result (list string)) (table : subject_table) :
  load_all_data listdir fs = Ok table ->
  well_formed table /\
  forall name files, (name, files) ∈ table -> StronglySorted not_after files.
Proof.
  intros H. apply load_all_data_listed in H as (names & subjects & _ & Hscan & ->).
  assert (Hwf : well_formed subjects).
  { apply (scan_well_formed _ _ _ Hscan). split; [constructor|].
    intros n l Hin. apply elem_of_nil in Hin. contradiction. }
  destruct Hwf as [Hnd Hel]. split; [split|].
  - rewrite sorted_table_names. exact Hnd.
  - intros name files Hin. apply sorted_table_elem in Hin as (l & Hin & ->).
    destruct (Hel _ _ Hin) as [Hne Hall]. split.
    + intros E. apply Hne. apply Permutation_nil.
      rewrite <- E. apply sort_by_timestamp_perm.
    + rewrite sort_by_timestamp_perm. exact Hall.
  - intros name files Hin. apply sorted_table_elem in Hin as (l & _ & ->).
    apply sort_by_timestamp_sorted.
Qed.

(** X15. The files behind the table that [load_all_data] returns are the
    accepted names of the listing, each as many times as it is listed:
    none is lost, none is loaded twice, nothing else is loaded. *)
Theorem load_all_data_complete (listdir : string -> result (list string)) names table :
  listdir DATA_DIR = Ok names ->
  load_all_data listdir fs = Ok table ->
  loaded_names table ≡ₚ List.filter relevant names.
Proof.
  intros Hl H. apply load_all_data_listed in H as (names' & subjects & Hl' & Hscan & ->).
  rewrite Hl in Hl'. injection Hl' as <-.
  unfold loaded_names. rewrite (Permutation_map filename (sorted_table_files _)).
  fold (loaded_names subjects). rewrite (scan_names _ _ _ Hscan). cbn [app loaded_names].
  apply filter_perm, sorted_perm.
Qed.

(** X13. The table that [load_all_data] returns, or the error it raises,
    depends on the listing of the directory only through the names that
    the scan accepts, not on their order in the listing nor on any other
    name. *)
Theorem load_all_data_listing (listdir listdir' : string -> result (list string)) names names' :
  listdir DATA_DIR = Ok names ->
  listdir' DATA_DIR = Ok names' ->
  List.filter relevant names ≡ₚ List.filter relevant names' ->
  load_all_data listdir fs = load_all_data listdir' fs.
Proof.
  intros H H' Hp.
  rewrite (load_all_data_unfold _ _ H), (load_all_data_unfold _ _ H').
  rewrite (scan_relevant (sorted names)), (scan_relevant (sorted names')).
  rewrite !sorted_filter, (sorted_of_perm _ _ Hp). reflexivity.
Qed.

(** X16. [load_all_data] returns a table exactly when the directory can be
    listed and [parse_csv] returns for every accepted name: one file that
    cannot be read or parsed makes the whole load raise. *)
Theorem load_all_data_all_or_nothing (listdir : string -> result (list string)) :
  returns (load_all_data listdir fs) <->
  exists names, listdir DATA_DIR = Ok names /\ Forall parses names.
Proof.
  unfold Loader.load_all_data.
  destruct (listdir DATA_DIR) as [names|e].
  - rewrite fmap_Ok_r, bind_Ok.
    pose proof (scan_returns (sorted names) []) as Hs.
    assert (Hperm : Forall parses (sorted names) <-> Forall parses names)
      by (rewrite sorted_perm; reflexivity).
    split.
    + intros Hr. exists names. split; [reflexivity|]. apply Hperm, Hs.
      destruct (Loader.scan DATA_DIR join fs (sorted names) []); [apply returns_Ok|].
      rewrite bind_Raise in Hr. destruct (not_returns_Raise _ Hr).
    + intros (names' & [= <-] & Hall). apply Hperm, Hs in Hall as [t ->].
      rewrite bind_Ok. apply returns_Ok.
  - rewrite fmap_Raise_r, bind_Raise. split.
    + intros Hr. destruct (not_returns_Raise _ Hr).
    + intros (names & Hl & _). discriminate.
Qed.

Lemma filter_none {A} (p : A -> bool) (l : list A) :
  Forall (fun x => p x = false) l -> List.filter p l = [].
Proof.
  induction 1 as [|x l Hx _ IH]; [reflexivity|]. cbn [List.filter]. rewrite Hx. exact IH.
Qed.

Section Tests.

Variable listdir : string -> result (list string).
Variable ttest_rel : paired_test.
Variable kruskal : omnibus_test.
Variable mannwhitneyu : rank_sum_test.

Local Abbreviation analyze_all := (Loader.analyze_all mannwhitneyu).
Local Abbreviation main := (Loader.main DATA_DIR join listdir fs ttest_rel kruskal mannwhitneyu).

Lemma analyze_all_raises (table : subject_table) name files :
  (name, files) ∈ table ->
  (exists e, analyze_subject mannwhitneyu name (classify_phases files) = Raise e) ->
  exists e, analyze_all table = Raise e.
Proof.
  intros Hin [e He]. induction table as [|[n l] table IH]; [apply elem_of_nil in Hin; contradiction|].
  cbn [Loader.analyze_all].
  apply elem_of_cons in Hin as [[= <- <-]|Hin].
  - rewrite He, bind_Raise. eauto.
  - destruct (analyze_subject mannwhitneyu n (classify_phases l)) as [r|e'];
      [rewrite bind_Ok | rewrite bind_Raise; eauto].
    destruct (IH Hin) as [e' ->]. rewrite bind_Raise. eauto.
Qed.

(** X17. When the listing of the data directory holds no name that the
    scan accepts (an empty directory included), [main] ends with
    [KeyError('bl_mean')]: the group analysis is run on an empty list. *)
Theorem main_without_data (names : list string) :
  listdir DATA_DIR = Ok names ->
  Forall (fun f => relevant f = false) names ->
  main = Raise (KeyError "bl_mean").
Proof.
  intros Hl Hall. unfold Loader.main.
  rewrite (load_all_data_unfold _ _ Hl), scan_relevant, sorted_filter.
  rewrite (filter_none _ _ Hall). reflexivity.
Qed.

(** X18. [main] has no partial result: when the table that was loaded
    holds a subject with fewer than three EMS_OFF files, [main] ends with
    an exception, whatever the other subjects are. *)
Theorem main_fails_on_short_subject (table : subject_table) (name : string)
    (files : list entry) :
  load_all_data listdir fs = Ok table ->
  (name, files) ∈ table ->
  (length (off_files files) < 3)%nat ->
  exists e, main = Raise e.
Proof.
  intros Hload Hin Hlen. unfold Loader.main. rewrite Hload, bind_Ok.
  destruct (analyze_all_raises table name files Hin) as [e ->];
    [|rewrite bind_Raise; eauto].
  destruct (off_keys !! length (off_files files)) as [key|] eqn:Hk;
    [|apply lookup_ge_None in Hk; cbn in Hk; lia].
  destruct (analyze_subject_missing mannwhitneyu name (classify_phases files) key)
    as [k Hr].
  - eapply list_elem_of_lookup_2, Hk.
  - rewrite (classify_phases_off _ _ _ Hk). apply lookup_ge_None. lia.
  - eauto.
Qed.

End Tests.

End Directory.

Lemma load_all_data_listing_witness :
  Loader.load_all_data "ExperimentData" slash (fun _ => Ok some_names) some_files =
  Loader.load_all_data "ExperimentData" slash
    (fun _ => Ok (rev (List.filter relevant some_names))) some_files.
Proof.
  apply (load_all_data_listing "ExperimentData" slash some_files _ _ some_names
           (rev (List.filter relevant some_names))).
  - reflexivity.
  - reflexivity.
  - rewrite (filter_all relevant (rev (List.filter relevant some_names))).
    + apply Permutation_rev.
    + apply Forall_forall. intros x Hx.
      apply list_elem_of_In, in_rev, List.filter_In in Hx as [_ Hx]. exact Hx.
Defined.

Lemma load_all_data_entries_witness :
  exists table,
    Loader.load_all_data "ExperimentData" slash (fun _ => Ok some_names) some_files = Ok table /\
    map fst table = ["S1"; "S2"] /\
    well_formed some_files (slash "ExperimentData") table.
Proof.
  destruct (Loader.load_all_data "ExperimentData" slash (fun _ => Ok some_names) some_files)
    as [table|e] eqn:E; [|vm_compute in E; discriminate].
  exists table. split; [reflexivity|].
  split; [vm_compute in E; injection E as <-; reflexivity|].
  exact (proj1 (load_all_data_entries "ExperimentData" slash some_files _ table E)).
Defined.

Lemma load_all_data_complete_witness :
  exists table,
    Loader.load_all_data "ExperimentData" slash (fun _ => Ok some_names) some_files = Ok table /\
    loaded_names table ≡ₚ
      ["Data_S2_EMS_OFF_20240106_090000.csv"; "Data_S1_EMS_ON_20240105_100000.csv";
       "Data_S1_EMS_OFF_20240105_101500.csv"; "Data_S2_EMS_ON_20240106_091500.csv"].
Proof.
  destruct (Loader.load_all_data "ExperimentData" slash (fun _ => Ok some_names) some_files)
    as [table|e] eqn:E; [|vm_compute in E; discriminate].
  exists table. split; [reflexivity|].
  exact (load_all_data_complete "ExperimentData" slash some_files _ some_names table
           eq_refl E).
Defined.

Lemma main_without_data_witness :
  Loader.main "ExperimentData" slash (fun _ => Ok ["notes.txt"; "summary.csv"]) some_files
    fixed_ttest significant_kruskal fixed_rank_sum = Raise (KeyError "bl_mean").
Proof.
  apply (main_without_data "ExperimentData" slash some_files _ _ _ _
           ["notes.txt"; "summary.csv"]).
  - reflexivity.
  - repeat constructor.
Defined.

Lemma main_fails_on_short_subject_witness :
  exists e,
    Loader.main "ExperimentData" slash (fun _ => Ok some_names) some_files
      fixed_ttest significant_kruskal fixed_rank_sum = Raise e.
Proof.
  destruct (Loader.load_all_data "ExperimentData" slash (fun _ => Ok some_names) some_files)
    as [table|e] eqn:E; [|vm_compute in E; discriminate].
  destruct table as [|[name files] table]; [vm_compute in E; discriminate|].
  apply (main_fails_on_short_subject "ExperimentData" slash some_files _ _ _ _
           ((name, files) :: table) name files E).
  - left.
  - vm_compute in E. injection E as <- <- _. vm_compute. lia.
Defined.

End DirectoryExtras.

(** ** More on the descriptive statistics *)

Module StatsExtras.
Import Py Num Analysis Spec Examples PyFacts StatsFacts StatsSpec.
Local Open Scope Q_scope.

Lemma approx_fin q : approx (fin q) q.
Proof. apply Qred_correct. Qed.

Lemma approx_Fin q : approx (Fin q) q.
Proof. cbn. reflexivity. Qed.

Lemma approx_eq a p q : approx a p -> p == q -> approx a q.
Proof. destruct a; cbn; try tauto. intros H1 H2. rewrite H1. exact H2. Qed.

Lemma approx_add a b p q : approx a p -> approx b q -> approx (fadd a b) (p + q).
Proof.
  destruct a, b; cbn [approx]; try tauto. intros Ha Hb. cbn [fadd].
  eapply approx_eq; [apply approx_fin|]. rewrite Ha, Hb. reflexivity.
Qed.

Lemma approx_sub a b p q : approx a p -> approx b q -> approx (fsub a b) (p - q).
Proof.
  destruct a, b; cbn [approx]; try tauto. intros Ha Hb. unfold fsub. cbn [fneg fadd]. unfold fin.
  cbn [approx]. rewrite !Qred_correct, Ha, Hb. reflexivity.
Qed.

Lemma approx_mul a b p q : approx a p -> approx b q -> approx (fmul a b) (p * q).
Proof.
  destruct a, b; cbn [approx]; try tauto. intros Ha Hb. cbn [fmul].
  eapply approx_eq; [apply approx_fin|]. rewrite Ha, Hb. reflexivity.
Qed.

Lemma approx_div a b p q :
  approx a p -> approx b q -> ~ q == 0 -> approx (fdiv a b) (p / q).
Proof.
  destruct a as [x| | |], b as [y| | |]; cbn [approx]; try tauto. intros Ha Hb Hq. cbn [fdiv].
  destruct (Qeq_bool y 0) eqn:E.
  - apply Qeq_bool_iff in E. rewrite Hb in E. contradiction.
  - eapply approx_eq; [apply approx_fin|]. rewrite Ha, Hb. reflexivity.
Qed.

Lemma approx_fold l ql a p :
  approx a p -> Forall2 approx l ql -> approx (fold_left fadd l a) (p + qsum ql).
Proof.
  intros Ha H. revert a p Ha. induction H as [|x q l ql Hx _ IH]; intros a p Ha.
  - cbn. eapply approx_eq; [exact Ha|]. Lqa.lra.
  - cbn [fold_left qsum fold_right]. eapply approx_eq.
    + apply IH. apply approx_add; eassumption.
    + fold (qsum ql). Lqa.lra.
Qed.

Lemma approx_fsum l ql : Forall2 approx l ql -> approx (fsum l) (qsum ql).
Proof.
  intros H. eapply approx_eq; [apply (approx_fold l ql (Fin 0) 0); [reflexivity|exact H]|].
  Lqa.lra.
Qed.

Lemma plausible_value a : plausible a -> approx a (value a) /\ 100 <= value a <= 1000.
Proof.
  unfold plausible, mask_physio. intros H. apply andb_prop in H as [H1 H2].
  destruct a as [q| | |]; try discriminate. cbn in *.
  apply Qle_bool_iff in H1, H2. repeat split; assumption || reflexivity.
Qed.

Lemma plausible_values l : Forall plausible l -> Forall2 approx l (map value l).
Proof.
  induction 1 as [|a l Ha _ IH]; constructor; [|exact IH].
  apply plausible_value, Ha.
Qed.

Lemma plausible_notnan l : Forall plausible l -> List.filter notnan l = l.
Proof. apply physio_notnan. Qed.

Lemma qsum_bounds l :
  Forall plausible l ->
  100 * inject_Z (Z.of_nat (length l)) <= qsum (map value l) <=
  1000 * inject_Z (Z.of_nat (length l)).
Proof.
  induction 1 as [|a l Ha _ IH].
  - cbn [length map qsum fold_right]. change (inject_Z (Z.of_nat 0)) with 0. Lqa.lra.
  - cbn [length map qsum fold_right]. fold (qsum (map value l)).
    rewrite Nat2Z.inj_succ. unfold Z.succ. rewrite inject_Z_plus.
    destruct (plausible_value a Ha) as [_ Hb]. change (inject_Z 1) with 1. Lqa.lra.
Qed.

Lemma of_nat_pos n : (0 < n)%nat -> 0 < inject_Z (Z.of_nat n).
Proof. intros H. change 0 with (inject_Z 0). rewrite <- Zlt_Qlt. lia. Qed.

Lemma approx_of_nat n : approx (of_nat n) (inject_Z (Z.of_nat n)).
Proof. cbn. reflexivity. Qed.

(** The mean of a non-empty plausible series, by either library. *)
Lemma mean_plausible l :
  Forall plausible l -> l <> [] ->
  approx (pd_mean l) (qmean l) /\ approx (np_mean l) (qmean l) /\
  100 <= qmean l <= 1000.
Proof.
  intros Hl Hne.
  assert (Hn : 0 < inject_Z (Z.of_nat (length l)))
    by (apply of_nat_pos; destruct l; [contradiction|cbn; lia]).
  assert (Hmean : approx (np_mean l) (qmean l)).
  { unfold np_mean, qmean. apply approx_div.
    - apply approx_fsum, plausible_values, Hl.
    - apply approx_of_nat.
    - Lqa.lra. }
  split; [|split].
  - unfold pd_mean. rewrite (plausible_notnan l Hl). exact Hmean.
  - exact Hmean.
  - pose proof (qsum_bounds l Hl) as [H1 H2]. unfold qmean. split.
    + apply Qle_shift_div_l; [exact Hn|exact H1].
    + apply Qle_shift_div_r; [exact Hn|exact H2].
Qed.

Lemma plausible_finite a : plausible a -> finite a.
Proof. intros H. destruct (plausible_value a H) as [Ha _]. destruct a; try contradiction. eexists; reflexivity. Qed.

Lemma finite_values l : Forall finite l -> Forall2 approx l (map value l).
Proof.
  induction 1 as [|a l [q ->] _ IH]; constructor; [reflexivity|exact IH].
Qed.

Lemma finite_notnan l : Forall finite l -> List.filter notnan l = l.
Proof.
  intros H. apply filter_all. eapply Forall_impl; [exact H|]. intros a [q ->]. reflexivity.
Qed.

Lemma squares_nonneg m l : 0 <= squares m l.
Proof.
  unfold squares. induction l as [|x l IH]; cbn [map qsum fold_right]; [Lqa.lra|].
  fold (qsum (map (fun x => (x - m) * (x - m)) l)).
  assert (0 <= (x - m) * (x - m)) by (generalize (x - m); intros y; Lqa.nra).
  Lqa.lra.
Qed.

Lemma approx_squares l ql a m (flip : bool) :
  Forall2 approx l ql -> approx a m ->
  Forall2 approx
    (map (fun x => let e := if flip then fsub a x else fsub x a in fmul e e) l)
    (map (fun x => (x - m) * (x - m)) ql).
Proof.
  intros H Ha. induction H as [|x q l ql Hx _ IH]; cbn [map]; constructor; [|exact IH].
  destruct flip; cbv zeta.
  - eapply approx_eq; [apply approx_mul; apply approx_sub; eassumption|]. ring.
  - apply approx_mul; apply approx_sub; assumption.
Qed.

(** The two variances of a finite series with two values or more. *)
Lemma var_approx l :
  Forall finite l -> (2 <= length l)%nat ->
  approx (pd_var l)
    (squares (qmean l) (map value l) / inject_Z (Z.of_nat (length l - 1))) /\
  approx (np_var l)
    (squares (qmean l) (map value l) / inject_Z (Z.of_nat (length l))).
Proof.
  intros Hl Hn.
  assert (Hpos : 0 < inject_Z (Z.of_nat (length l))) by (apply of_nat_pos; lia).
  assert (Hpos1 : 0 < inject_Z (Z.of_nat (length l - 1))) by (apply of_nat_pos; lia).
  assert (Hmean : approx (fdiv (fsum l) (of_nat (length l))) (qmean l)).
  { unfold qmean. apply approx_div; [apply approx_fsum, finite_values, Hl | apply approx_of_nat|].
    Lqa.lra. }
  split.
  - unfold pd_var. rewrite (finite_notnan l Hl).
    destruct (Nat.leb_spec (length l) 1); [lia|].
    apply approx_div; [|apply approx_of_nat|Lqa.lra].
    apply approx_fsum. apply (approx_squares l _ _ _ true); [apply finite_values, Hl|exact Hmean].
  - unfold np_var, np_mean.
    apply approx_div; [|apply approx_of_nat|Lqa.lra].
    apply approx_fsum. apply (approx_squares l _ _ _ false); [apply finite_values, Hl|exact Hmean].
Qed.

Lemma approx_inv a q : approx a q -> exists p, a = Fin p /\ p == q.
Proof. destruct a; cbn; try tauto. intros H. eexists. split; [reflexivity|exact H]. Qed.

Lemma Q2R_nonneg q : 0 <= q -> (0 <= Q2R q)%R.
Proof. intros H. apply Qle_Rle in H. rewrite RMicromega.Q2R_0 in H. exact H. Qed.

(** X20. The standard deviation of a cleaned series is NaN exactly when
    the series has fewer than two values; from two values on it is a
    non-negative real number. *)
Theorem cleaned_std_defined (series : list float) (label : string) :
  let cleaned := remove_outliers series label in
  (pd_std cleaned = RNaN <-> (length cleaned <= 1)%nat) /\
  ((2 <= length cleaned)%nat -> exists x, pd_std cleaned = RFin x /\ (0 <= x)%R).
Proof.
  intros cleaned.
  assert (Hp : Forall plausible cleaned).
  { unfold cleaned, remove_outliers. apply Forall_forall. intros v Hv.
    apply list_elem_of_In, List.filter_In in Hv as [Hv _].
    apply List.filter_In in Hv as [_ Hv]. exact Hv. }
  assert (Hf : Forall finite cleaned)
    by (eapply Forall_impl; [exact Hp|apply plausible_finite]).
  assert (Hbig : (2 <= length cleaned)%nat -> exists x, pd_std cleaned = RFin x /\ (0 <= x)%R).
  { intros Hn. destruct (var_approx cleaned Hf Hn) as [Ha _].
    apply approx_inv in Ha as (a & Ea & Eq).
    assert (Hpos1 : 0 < inject_Z (Z.of_nat (length cleaned - 1))) by (apply of_nat_pos; lia).
    assert (Ha : 0 <= a).
    { rewrite Eq. apply Qle_shift_div_l; [exact Hpos1|].
      pose proof (squares_nonneg (qmean cleaned) (map value cleaned)). Lqa.lra. }
    exists (sqrt (Q2R a)). unfold pd_std. rewrite Ea. cbn [of_float].
    rewrite rsqrt_nonneg by (apply Q2R_nonneg, Ha).
    split; [reflexivity|apply sqrt_pos]. }
  split; [|exact Hbig]. split.
  - intros Hnan. destruct (le_lt_dec (length cleaned) 1) as [H|H]; [exact H|].
    destruct (Hbig H) as (x & Hx & _). congruence.
  - intros H. apply pd_std_short. rewrite (finite_notnan _ Hf). exact H.
Qed.

(** What a returned result is made of. *)
Lemma analyze_subject_Ok mannwhitneyu name (phases : gmap string entry) r :
  analyze_subject mannwhitneyu name phases = Ok r ->
  exists b1 b2 b3 pv1 pv2,
    let bl := remove_outliers b1 name in
    let p1 := remove_outliers b2 name in
    let p2 := remove_outliers b3 name in
    r = {| subject := name;
           bl_mean := pd_mean bl; bl_sd := pd_std bl; bl_median := pd_median bl;
           bl_n := length bl;
           p1_mean := pd_mean p1; p1_sd := pd_std p1; p1_median := pd_median p1;
           p1_n := length p1;
           p2_mean := pd_mean p2; p2_sd := pd_std p2; p2_median := pd_median p2;
           p2_n := length p2;
           change_p1 := fsub (pd_mean bl) (pd_mean p1);
           change_p2 := fsub (pd_mean bl) (pd_mean p2);
           d_p1 := cohen_d (pd_mean bl) (pd_std bl) (pd_mean p1) (pd_std p1); p_p1 := pv1;
           d_p2 := cohen_d (pd_mean bl) (pd_std bl) (pd_mean p2) (pd_std p2); p_p2 := pv2;
           bl_data := bl; p1_data := p1; p2_data := p2 |}.
Proof.
  unfold analyze_subject.
  destruct (reaction_times phases "baseline") as [b1|]; [|discriminate].
  destruct (reaction_times phases "measure_phase1") as [b2|]; [|discriminate].
  destruct (reaction_times phases "measure_phase2") as [b3|]; [|discriminate].
  rewrite !bind_Ok. cbv zeta.
  repeat match goal with
         | |- context [mannwhitneyu ?x ?y ?alt] =>
             destruct (mannwhitneyu x y alt) as [[? ?]|?]; [rewrite bind_Ok|discriminate]
         end.
  intros [= <-]. eexists b1, b2, b3, _, _. reflexivity.
Qed.

Lemma cleaned_plausible series label : Forall plausible (remove_outliers series label).
Proof.
  unfold remove_outliers. apply Forall_forall. intros v Hv.
  apply list_elem_of_In, List.filter_In in Hv as [Hv _].
  apply List.filter_In in Hv as [_ Hv]. exact Hv.
Qed.

Lemma cleaned_mean series label :
  mean_in_range (length (remove_outliers series label))
                (pd_mean (remove_outliers series label)).
Proof.
  pose proof (cleaned_plausible series label) as Hp.
  destruct (remove_outliers series label) as [|a l] eqn:E.
  - left. split; reflexivity.
  - right. split; [discriminate|].
    destruct (mean_plausible (a :: l) Hp) as (Hm & _ & Hr); [discriminate|].
    apply approx_inv in Hm as (q & -> & Eq). exists q. split; [reflexivity|].
    rewrite Eq. exact Hr.
Qed.

Lemma change_bounds m1 m2 q1 q2 :
  m1 = Fin q1 -> m2 = Fin q2 -> 100 <= q1 <= 1000 -> 100 <= q2 <= 1000 ->
  exists c, fsub m1 m2 = Fin c /\ -(900) <= c <= 900.
Proof.
  intros -> -> H1 H2.
  pose proof (approx_sub (Fin q1) (Fin q2) q1 q2 (approx_Fin q1) (approx_Fin q2)) as H.
  apply approx_inv in H as (c & -> & Ec). exists c. split; [reflexivity|].
  rewrite Ec. Lqa.lra.
Qed.

(** X21. In a result of the subject analyzer, each count is the length of
    the cleaned series kept with it, whose values all lie in
    [100, 1000]; each mean is NaN when the count is zero and a number in
    [100, 1000] otherwise; and a change score between two non-empty
    phases is a number in [-900, 900]. *)
Theorem analyze_subject_result_ranges (mannwhitneyu : rank_sum_test) (name : string)
    (phases : gmap string entry) (r : subject_result) :
  analyze_subject mannwhitneyu name phases = Ok r ->
  (bl_n r = length (bl_data r) /\ p1_n r = length (p1_data r) /\
   p2_n r = length (p2_data r)) /\
  (Forall plausible (bl_data r) /\ Forall plausible (p1_data r) /\
   Forall plausible (p2_data r)) /\
  (mean_in_range (bl_n r) (bl_mean r) /\ mean_in_range (p1_n r) (p1_mean r) /\
   mean_in_range (p2_n r) (p2_mean r)) /\
  (bl_n r <> 0%nat -> p1_n r <> 0%nat ->
   exists c, change_p1 r = Fin c /\ -(900) <= c <= 900) /\
  (bl_n r <> 0%nat -> p2_n r <> 0%nat ->
   exists c, change_p2 r = Fin c /\ -(900) <= c <= 900).
Proof.
  intros H. apply analyze_subject_Ok in H as (b1 & b2 & b3 & pv1 & pv2 & ->).
  cbn [bl_n p1_n p2_n bl_data p1_data p2_data bl_mean p1_mean p2_mean change_p1 change_p2].
  split; [repeat split|]. split; [repeat split; apply cleaned_plausible|].
  split; [repeat split; apply cleaned_mean|].
  split; intros Hb Hp.
  - destruct (cleaned_mean b1 name) as [[? _]|(_ & q1 & E1 & R1)]; [contradiction|].
    destruct (cleaned_mean b2 name) as [[? _]|(_ & q2 & E2 & R2)]; [contradiction|].
    eapply change_bounds; eassumption.
  - destruct (cleaned_mean b1 name) as [[? _]|(_ & q1 & E1 & R1)]; [contradiction|].
    destruct (cleaned_mean b3 name) as [[? _]|(_ & q2 & E2 & R2)]; [contradiction|].
    eapply change_bounds; eassumption.
Qed.

Lemma analyze_subject_result_ranges_witness :
  exists r,
    analyze_subject fixed_rank_sum "S1" (classify_phases (sort_by_timestamp shuffled)) = Ok r /\
    mean_in_range (bl_n r) (bl_mean r) /\ Forall plausible (bl_data r).
Proof.
  destruct (analyze_subject fixed_rank_sum "S1" (classify_phases (sort_by_timestamp shuffled)))
    as [r|e] eqn:E; [|vm_compute in E; discriminate].
  exists r. split; [reflexivity|].
  destruct (analyze_subject_result_ranges _ _ _ _ E) as (_ & (Hd & _ & _) & (Hm & _ & _) & _).
  split; assumption.
Defined.

Lemma pooled_sd_pos s1 s2 : (s1 <> 0 \/ s2 <> 0)%R -> (0 < pooled_sd s1 s2)%R.
Proof.
  intros H. unfold pooled_sd. apply sqrt_lt_R0.
  assert (0 <= s1 * s1)%R by nra. assert (0 <= s2 * s2)%R by nra.
  destruct H as [H|H]; assert (0 < s1 * s1 + s2 * s2)%R by nra; lra.
Qed.

Lemma cohen_d_columns m1 m2 s1 s2 :
  (s1 <> 0 \/ s2 <> 0)%R ->
  effect_of_columns (fsub (Fin m1) (Fin m2)) s1 s2
    (cohen_d (Fin m1) (RFin s1) (Fin m2) (RFin s2)).
Proof.
  intros Hs. pose proof (pooled_sd_pos s1 s2 Hs) as Hpos.
  pose proof (approx_sub (Fin m1) (Fin m2) m1 m2 (approx_Fin m1) (approx_Fin m2)) as H.
  apply approx_inv in H as (c & Ec & Eq). exists c. split; [exact Ec|].
  assert (Hsum : (0 < s1 * s1 + s2 * s2)%R).
  { assert (0 <= s1 * s1)%R by nra. assert (0 <= s2 * s2)%R by nra. destruct Hs; nra. }
  assert (Hip : (0 < / pooled_sd s1 s2)%R) by (apply Rinv_0_lt_compat; exact Hpos).
  assert (Hc : (0 < Q2R c)%R <-> 0 < c).
  { split; intros Hlt.
    - apply Rlt_Qlt. rewrite RMicromega.Q2R_0. exact Hlt.
    - apply Qlt_Rlt in Hlt. rewrite RMicromega.Q2R_0 in Hlt. exact Hlt. }
  assert (Hc' : (Q2R c < 0)%R <-> c < 0).
  { split; intros Hlt.
    - apply Rlt_Qlt. rewrite RMicromega.Q2R_0. exact Hlt.
    - apply Qlt_Rlt in Hlt. rewrite RMicromega.Q2R_0 in Hlt. exact Hlt. }
  split; [|split].
  - unfold cohen_d. rewrite Ec. cbn [of_float rsqr radd].
    rewrite rdiv_finite by lra. rewrite rsqrt_nonneg by lra.
    fold (pooled_sd s1 s2). rewrite rdiv_finite by lra. reflexivity.
  - rewrite <- Hc. unfold Rdiv. split; intros Hlt; nra.
  - rewrite <- Hc'. unfold Rdiv. split; intros Hlt; nra.
Qed.

(** X22. In a result of the subject analyzer, when the means of the
    baseline and of a post-phase are numbers and their standard
    deviations are real numbers not both zero, the effect size of the
    pair is a real number: the change score divided by
    [sqrt((SD1^2 + SD2^2) / 2)] of the reported standard deviations.  It
    is positive exactly when the change score is, and negative exactly
    when the change score is. *)
Theorem effect_size_from_columns (mannwhitneyu : rank_sum_test) (name : string)
    (phases : gmap string entry) (r : subject_result) (m1 : Q) (s1 : R) :
  analyze_subject mannwhitneyu name phases = Ok r ->
  bl_mean r = Fin m1 ->
  bl_sd r = RFin s1 ->
  (forall m2 s2, p1_mean r = Fin m2 -> p1_sd r = RFin s2 -> (s1 <> 0 \/ s2 <> 0)%R ->
                 effect_of_columns (change_p1 r) s1 s2 (d_p1 r)) /\
  (forall m2 s2, p2_mean r = Fin m2 -> p2_sd r = RFin s2 -> (s1 <> 0 \/ s2 <> 0)%R ->
                 effect_of_columns (change_p2 r) s1 s2 (d_p2 r)).
Proof.
  intros H Hm1 Hs1.
  apply analyze_subject_Ok in H as (b1 & b2 & b3 & pv1 & pv2 & ->).
  cbn [bl_sd p1_sd p2_sd bl_mean p1_mean p2_mean change_p1 change_p2 d_p1 d_p2] in *.
  rewrite Hm1, Hs1.
  split; intros m2 s2 Hm2 Hs2 Hs; rewrite Hm2, Hs2; apply cohen_d_columns; exact Hs.
Qed.

Lemma analyze_shuffled :
  analyze_subject fixed_rank_sum "S1" (classify_phases (sort_by_timestamp shuffled)) =
  Ok (result_of baseline_sample post_sample (map of_Z [260; 265; 255; 270]%Z)).
Proof.
  unfold analyze_subject.
  replace (reaction_times (classify_phases (sort_by_timestamp shuffled)) "baseline")
    with (Ok baseline_sample) by (vm_compute; reflexivity).
  replace (reaction_times (classify_phases (sort_by_timestamp shuffled)) "measure_phase1")
    with (Ok post_sample) by (vm_compute; reflexivity).
  replace (reaction_times (classify_phases (sort_by_timestamp shuffled)) "measure_phase2")
    with (Ok (map of_Z [260; 265; 255; 270]%Z)) by (vm_compute; reflexivity).
  rewrite !bind_Ok. cbv zeta.
  replace (remove_outliers baseline_sample "S1") with baseline_sample
    by (vm_compute; reflexivity).
  replace (remove_outliers post_sample "S1") with post_sample by (vm_compute; reflexivity).
  replace (remove_outliers (map of_Z [260; 265; 255; 270]%Z) "S1")
    with (map of_Z [260; 265; 255; 270]%Z) by (vm_compute; reflexivity).
  reflexivity.
Qed.

Lemma std_of_variance l v :
  pd_var l = Fin v -> 0 < v -> pd_std l = RFin (sqrt (Q2R v)) /\ (sqrt (Q2R v) <> 0)%R.
Proof.
  intros E Hv. apply Qlt_Rlt in Hv. rewrite RMicromega.Q2R_0 in Hv.
  unfold pd_std. rewrite E. cbn [of_float]. rewrite rsqrt_nonneg by lra.
  split; [reflexivity|]. pose proof (sqrt_lt_R0 _ Hv). lra.
Qed.

Lemma effect_size_from_columns_witness :
  effect_of_columns
    (change_p1 (result_of baseline_sample post_sample (map of_Z [260; 265; 255; 270]%Z)))
    (sqrt (Q2R (875 # 12))) (sqrt (Q2R (125 # 3)))
    (d_p1 (result_of baseline_sample post_sample (map of_Z [260; 265; 255; 270]%Z))).
Proof.
  destruct (std_of_variance baseline_sample (875 # 12)) as [Hb Hb0];
    [vm_compute; reflexivity | reflexivity|].
  destruct (std_of_variance post_sample (125 # 3)) as [Hp _];
    [vm_compute; reflexivity | reflexivity|].
  apply (proj1 (effect_size_from_columns fixed_rank_sum "S1"
                  (classify_phases (sort_by_timestamp shuffled)) _ (1205 # 4)
                  (sqrt (Q2R (875 # 12))) analyze_shuffled
                  ltac:(cbn [bl_mean result_of]; vm_compute; reflexivity) Hb)
           (555 # 2) (sqrt (Q2R (125 # 3)))).
  - cbn [p1_mean result_of]. vm_compute. reflexivity.
  - exact Hp.
  - left. exact Hb0.
Defined.

End StatsExtras.

(** ** The waveform for any parameters *)

Module WaveformExtras.
Import Py Num PlotWaveform PyFacts StatsSpec StatsExtras.

Lemma generate_instance :
  WaveformGeneral.generate PULSE_WIDTH_US BURST_COUNT PULSE_COUNT PULSE_INTERVAL_US DT =
  generate_biphasic_waveform.
Proof. vm_compute. reflexivity. Qed.

Section Parameters.

Variable PW BC PC PI DT : Z.

Local Abbreviation emit := (WaveformGeneral.emit DT).
Local Abbreviation emit_for := (WaveformGeneral.emit_for DT).
Local Abbreviation burst_body := (WaveformGeneral.burst_body PW DT).
Local Abbreviation rep_body := (WaveformGeneral.rep_body PW BC PC PI DT).
Local Abbreviation generate := (WaveformGeneral.generate PW BC PC PI DT).
Local Abbreviation repetition := (WaveformGeneral.repetition PW BC PC PI).
Local Abbreviation samples := (WaveformGeneral.samples PW BC PC PI).
Local Abbreviation after := (WaveformGeneral.after DT).

Lemma after_nil st : after st [] = st.
Proof.
  destruct st as [w tm t0]. unfold WaveformGeneral.after. cbn [waveform time t length seq map].
  rewrite !app_nil_r. f_equal. lia.
Qed.

Lemma map_seq_from {A} (f : nat -> A) (k n : nat) :
  map f (seq k n) = map (fun i => f (k + i)%nat) (seq 0 n).
Proof.
  revert k f. induction n as [|n IH]; intros k f; [reflexivity|].
  cbn [seq map]. f_equal; [f_equal; lia|].
  rewrite (IH (S k)), (IH 1%nat (fun i => f (k + i)%nat)).
  apply map_ext. intros i. f_equal. lia.
Qed.

Lemma after_app st w1 w2 : after (after st w1) w2 = after st (w1 ++ w2).
Proof.
  unfold WaveformGeneral.after. cbn [waveform time t].
  rewrite <- !app_assoc, length_app, seq_app, map_app, (map_seq_from _ (0 + length w1)).
  f_equal; [|lia]. f_equal. f_equal. apply map_ext. intros i. lia.
Qed.

Lemma emit_after v st : emit v st = after st [v].
Proof.
  unfold WaveformGeneral.emit, WaveformGeneral.after. cbn [length seq map]. f_equal.
  - f_equal. f_equal. lia.
  - lia.
Qed.

Lemma fold_ignore {A B} (f : A -> A) (l : list B) (a : A) :
  fold_left (fun x _ => f x) l a = Nat.iter (length l) f a.
Proof.
  revert a. induction l as [|b l IH]; intros a; [reflexivity|].
  cbn [fold_left length]. rewrite IH. symmetry. apply Nat.iter_succ_r.
Qed.

Lemma range_length n : length (range n) = Z.to_nat n.
Proof. unfold range. rewrite List.length_map, List.length_seq. reflexivity. Qed.

Lemma iter_after (f : gen -> gen) (w : list float) :
  (forall st, f st = after st w) ->
  forall n st, Nat.iter n f st = after st (concat (repeat w n)).
Proof.
  intros Hf n. induction n as [|n IH]; intros st.
  - symmetry. apply after_nil.
  - rewrite Nat.iter_succ_r, IH, Hf, after_app. reflexivity.
Qed.

Lemma emit_for_after n v st : emit_for n v st = after st (repeat v (Z.to_nat n)).
Proof.
  unfold WaveformGeneral.emit_for.
  rewrite fold_ignore, range_length, (iter_after _ [v]) by (intros; apply emit_after).
  f_equal. induction (Z.to_nat n) as [|k IH]; [reflexivity|].
  cbn [repeat concat app]. rewrite IH. reflexivity.
Qed.

Lemma burst_body_after st : burst_body st = after st (cycle (Z.to_nat PW)).
Proof.
  unfold WaveformGeneral.burst_body. cbv zeta.
  rewrite !emit_for_after, !after_app. reflexivity.
Qed.

Lemma bursts_after st :
  fold_left (fun st _ => burst_body st) (range BC) st =
  after st (concat (repeat (cycle (Z.to_nat PW)) (Z.to_nat BC))).
Proof.
  rewrite fold_ignore, range_length.
  apply iter_after. intros st'. apply burst_body_after.
Qed.

Lemma rep_body_after st (rep : nat) :
  rep_body st (Z.of_nat rep) = after st (repetition rep).
Proof.
  unfold WaveformGeneral.rep_body, WaveformGeneral.repetition. cbv zeta.
  rewrite bursts_after.
  destruct (Z.ltb_spec (Z.of_nat rep) (PC - 1)) as [H|H];
    destruct (Nat.ltb_spec (S rep) (Z.to_nat PC)) as [H'|H']; try lia.
  - rewrite emit_for_after, after_app. reflexivity.
  - rewrite app_nil_r. reflexivity.
Qed.

Lemma reps_after st (k n : nat) :
  fold_left rep_body (map Z.of_nat (seq k n)) st =
  after st (concat (map repetition (seq k n))).
Proof.
  revert st k. induction n as [|n IH]; intros st k.
  - cbn [seq map fold_left concat]. symmetry. apply after_nil.
  - cbn [seq map fold_left concat]. rewrite rep_body_after, IH, after_app. reflexivity.
Qed.

Lemma generate_after :
  generate =
  (map (fun i => Z.of_nat i * DT) (seq 0 (length samples)), samples).
Proof.
  unfold WaveformGeneral.generate. cbv zeta. unfold range. rewrite reps_after.
  unfold WaveformGeneral.after. cbn [waveform time t app]. f_equal.
Qed.

Lemma repetition_length (rep : nat) :
  length (repetition rep) =
  (4 * Z.to_nat PW * Z.to_nat BC +
   (if (S rep <? Z.to_nat PC)%nat then Z.to_nat PI else 0))%nat.
Proof.
  unfold WaveformGeneral.repetition. rewrite length_app. f_equal.
  - induction (Z.to_nat BC) as [|k IH]; [cbn; lia|].
    cbn [repeat concat]. rewrite length_app, IH. unfold cycle.
    rewrite !length_app, !repeat_length. lia.
  - destruct (S rep <? Z.to_nat PC)%nat; [apply repeat_length|reflexivity].
Qed.

Lemma samples_length_upto (n : nat) :
  (n <= Z.to_nat PC)%nat ->
  length (concat (map repetition (seq 0 n))) =
  (n * (4 * Z.to_nat PW * Z.to_nat BC) + Nat.min n (Z.to_nat PC - 1) * Z.to_nat PI)%nat.
Proof.
  induction n as [|n IH]; intros Hn; [reflexivity|].
  rewrite seq_S, map_app, concat_app, length_app, IH by lia.
  cbn [plus map concat]. rewrite app_nil_r, repetition_length.
  destruct (Nat.ltb_spec (S n) (Z.to_nat PC)); nia.
Qed.

(** X23. Whatever the values of the module's parameters, the waveform
    that [generate_biphasic_waveform] builds is, repetition after
    repetition, the burst of [BURST_COUNT] cycles of [PULSE_WIDTH_US]
    samples at +1, 0, -1 and 0, followed by [PULSE_INTERVAL_US] samples
    at 0 except after the last repetition; the time array has the same
    length and holds [i * DT] at index [i].  A negative parameter counts
    as zero. *)
Theorem generate_closed_form :
  let '(time, waveform) := generate in
  waveform = samples /\
  time = map (fun i => Z.of_nat i * DT) (seq 0 (length waveform)) /\
  length time = length waveform /\
  length waveform =
    (Z.to_nat PC * (4 * Z.to_nat PW * Z.to_nat BC) +
     (Z.to_nat PC - 1) * Z.to_nat PI)%nat.
Proof.
  rewrite generate_after.
  split; [reflexivity|]. split; [reflexivity|].
  split; [rewrite List.length_map, List.length_seq; reflexivity|].
  unfold WaveformGeneral.samples. rewrite samples_length_upto by lia.
  f_equal. f_equal. lia.
Qed.

Lemma Qred_canon q : Qred (Qred q) = Qred q.
Proof. apply Qred_complete, Qred_correct. Qed.

Lemma fold_exact (l : list float) (a : Q) :
  Forall finite l -> Qred a = a ->
  exists p, fold_left fadd l (Fin a) = Fin p /\ p == (a + qsum (map value l))%Q /\ Qred p = p.
Proof.
  intros Hl. revert a. induction Hl as [|x l [q ->] _ IH]; intros a Ha.
  - exists a. split; [reflexivity|]. split; [cbn; Lqa.lra|exact Ha].
  - cbn [fold_left fadd]. unfold fin.
    destruct (IH (Qred (a + q)) (Qred_canon _)) as (p & E & Eq & Hc).
    exists p. split; [exact E|]. split; [|exact Hc].
    rewrite Eq, Qred_correct. unfold qsum. cbn [map value fold_right]. Lqa.lra.
Qed.

Lemma qsum_app (a b : list Q) : (qsum (a ++ b) == qsum a + qsum b)%Q.
Proof.
  unfold qsum. induction a as [|x a IH]; cbn [app fold_right]; [Lqa.lra|].
  rewrite IH. Lqa.lra.
Qed.

Lemma qsum_repeat (z : Z) (n : nat) :
  (qsum (map value (repeat (of_Z z) n)) == inject_Z (Z.of_nat n) * inject_Z z)%Q.
Proof.
  unfold qsum. induction n as [|n IH].
  - cbn [repeat map fold_right]. change (inject_Z (Z.of_nat 0)) with 0%Q. Lqa.lra.
  - cbn [repeat map fold_right value of_Z].
    rewrite IH, Nat2Z.inj_succ. unfold Z.succ. rewrite inject_Z_plus.
    change (inject_Z 1) with 1%Q. Lqa.lra.
Qed.

Lemma cycle_balanced (n : nat) : (qsum (map value (cycle n)) == 0)%Q.
Proof.
  unfold cycle. rewrite !map_app, !qsum_app, !qsum_repeat.
  change (inject_Z 1) with 1%Q. change (inject_Z 0) with 0%Q.
  change (inject_Z (-1)) with (-(1))%Q. Lqa.lra.
Qed.

Lemma samples_balanced : (qsum (map value samples) == 0)%Q.
Proof.
  unfold WaveformGeneral.samples.
  induction (seq 0 (Z.to_nat PC)) as [|rep l IH]; [reflexivity|].
  cbn [map concat]. rewrite map_app, qsum_app, IH.
  unfold WaveformGeneral.repetition. rewrite map_app, qsum_app.
  assert (H1 : (qsum (map value (concat (repeat (cycle (Z.to_nat PW)) (Z.to_nat BC)))) == 0)%Q).
  { induction (Z.to_nat BC) as [|k IHk]; [reflexivity|].
    cbn [repeat concat]. rewrite map_app, qsum_app, IHk, cycle_balanced. Lqa.lra. }
  assert (H2 : (qsum (map value (if (S rep <? Z.to_nat PC)%nat
                                 then repeat (of_Z 0) (Z.to_nat PI) else [])) == 0)%Q).
  { destruct (S rep <? Z.to_nat PC)%nat; [|reflexivity].
    rewrite qsum_repeat. change (inject_Z 0) with 0%Q. Lqa.lra. }
  rewrite H1, H2. Lqa.lra.
Qed.

Lemma samples_levels : Forall (fun v => level v = true) samples.
Proof.
  unfold WaveformGeneral.samples. apply Forall_concat, Forall_forall.
  intros w Hw. apply list_elem_of_In, in_map_iff in Hw as (rep & <- & _).
  unfold WaveformGeneral.repetition. apply Forall_app. split.
  - apply Forall_concat, Forall_forall. intros c Hc.
    apply list_elem_of_In, repeat_spec in Hc. subst c. unfold cycle.
    rewrite !Forall_app. repeat split; apply Forall_forall; intros v Hv;
      apply list_elem_of_In, repeat_spec in Hv; subst v; reflexivity.
  - destruct (S rep <? Z.to_nat PC)%nat; [|constructor].
    apply Forall_forall. intros v Hv. apply list_elem_of_In, repeat_spec in Hv.
    subst v. reflexivity.
Qed.

(** X24. Whatever the values of the module's parameters, every sample of
    the waveform is -1, 0 or +1 and the samples sum to exactly 0: the
    stimulus is charge-balanced. *)
Theorem generate_charge_balanced :
  let '(time, waveform) := generate in
  Forall (fun v => level v = true) waveform /\ fsum waveform = Fin 0.
Proof.
  rewrite generate_after. split; [apply samples_levels|].
  assert (Hf : Forall finite samples).
  { eapply Forall_impl; [apply samples_levels|]. intros [q| | |] H; try discriminate.
    eexists; reflexivity. }
  destruct (fold_exact samples 0 Hf eq_refl) as (p & E & Eq & Hc).
  unfold fsum. rewrite E. f_equal.
  rewrite samples_balanced in Eq. rewrite <- Hc.
  change 0%Q with (Qred 0). apply Qred_complete. rewrite Eq. Lqa.lra.
Qed.

End Parameters.

End WaveformExtras.
